(** * Booking-curve analytics: KPI derivation and exemplar selection

    A shallow embedding of the two analysis scripts

    - [booking_analyzer01-01.py], [analyze_and_plot_optimal_booking_curves]
      (the best "last-minute" stay date of every listing), and
    - [booking_analyzer01-02.py], [analyze_and_plot_peer_group_champions]
      (the best "last-minute" stay date of every price tier).

    Both scripts are straight-line pandas code over one data frame.  A data
    frame is a list of rows (a record per row, a field per column), in row
    order.  Module [Pandas] gives the library calls the scripts make, each
    with the semantics of the pandas 1.x/2.x API the scripts are written
    against; the later modules follow the scripts statement by statement and
    keep their variable names.

    Numbers.  [stock] and the identifiers are integers ([Z]); [price] and
    every quotient are exact rationals ([Q]) standing for float64.  Division
    keeps the IEEE special cases that matter to the scripts: [0/0] is NaN
    (missing, [None]) and [x/0] is an infinity.  Timestamps are integers
    counting nanoseconds. *)

From Stdlib Require Import List ZArith QArith Bool Lia Permutation Sorted PeanoNat.
Import ListNotations.
Local Open Scope Z_scope.

(* ================================================================== *)
(** * The pandas calls used by the scripts *)
(* ================================================================== *)

Module Pandas.

(** ** Exceptions *)

(** The exceptions that can escape the modelled statements.  [OutsideModel]
    is not a Python exception: it marks the one place where the rational
    model stops (an infinite average daily rate entering the quantile
    arithmetic); lemma [characteristic_prices_total] shows it never occurs. *)
Inductive exn : Type :=
| DateParseError
| ValueError
| OutsideModel.

Inductive result (A : Type) : Type :=
| Ok (a : A)
| Raised (e : exn).

Arguments Ok {A} a.
Arguments Raised {A} e.

Definition bind {A B : Type} (m : result A) (f : A -> result B) : result B :=
  match m with
  | Ok a => f a
  | Raised e => Raised e
  end.

Notation "x <- m ;; k" := (bind m (fun x => k))
  (at level 61, m at next level, right associativity).

Fixpoint mapM {A B : Type} (f : A -> result B) (l : list A) : result (list B) :=
  match l with
  | [] => Ok []
  | a :: t => b <- f a ;; bs <- mapM f t ;; Ok (b :: bs)
  end.

(** ** Float columns *)

(** A float64 that is not NaN.  NaN, pandas' missing value, is [None]. *)
Inductive fnum : Type :=
| NInf
| Fin (q : Q)
| PInf.

(** [a / b] on float columns: numpy raises nothing, [0/0] is NaN and
    [x/0] is a signed infinity. *)
Definition fdiv (a b : Q) : option fnum :=
  if Qeq_bool b 0 then
    match (a ?= 0)%Q with
    | Eq => None
    | Gt => Some PInf
    | Lt => Some NInf
    end
  else Some (Fin (a / b)%Q).

(** [Series.fillna(v)]: only the missing entries are replaced. *)
Definition fillna {A : Type} (v : A) (x : option A) : A :=
  match x with
  | Some a => a
  | None => v
  end.

(** [(a / b).fillna(0)], the shape of every ratio of the scripts. *)
Definition div_fillna0 (a b : Q) : fnum := fillna (Fin 0) (fdiv a b).

(** [value] is the column entry [(num / den).fillna(0)], and the quotient
    was a number: the replacement of a missing value did not take place. *)
Definition defined_ratio (num den : Q) (value : fnum) : Prop :=
  value = div_fillna0 num den /\ fdiv num den = Some value.

(** The order of non-NaN floats. *)
Definition fnum_leb (a b : fnum) : bool :=
  match a, b with
  | NInf, _ => true
  | _, PInf => true
  | Fin x, Fin y => Qle_bool x y
  | _, _ => false
  end.

Definition fnum_eqb (a b : fnum) : bool := fnum_leb a b && fnum_leb b a.
Definition fnum_ltb (a b : fnum) : bool := negb (fnum_leb b a).

(** [Series.clip(lower=l)] on a column that may hold NaN. *)
Definition clip_lower (l : Z) (x : option Z) : option Z :=
  option_map (Z.max l) x.

(** ** Keys *)

(** Key columns are compared with [<=]; a composite key (a list of columns
    in [groupby], [merge] or [sort_values]) is compared lexicographically. *)
Class Ord (K : Type) : Type := leb : K -> K -> bool.

#[export] Instance Ord_Z : Ord Z := Z.leb.

#[export] Instance Ord_prod {A B : Type} `{Ord A} `{Ord B} : Ord (A * B) :=
  fun x y =>
    if leb (fst x) (fst y)
    then if leb (fst y) (fst x) then leb (snd x) (snd y) else true
    else false.

Definition eqb {K : Type} `{Ord K} (a b : K) : bool := leb a b && leb b a.

(** The order of a key column is total, and equal keys are the same key. *)
Class OrdLaws (K : Type) `{Ord K} : Prop := {
  leb_total : forall a b : K, leb a b = true \/ leb b a = true;
  leb_trans : forall a b c : K, leb a b = true -> leb b c = true -> leb a c = true;
  leb_antisym : forall a b : K, leb a b = true -> leb b a = true -> a = b
}.

(** ** Stable sorting *)

(** Insertion sort, stable: an element goes in front of the first element
    it is [le] to, so equal elements keep their order.  It stands for the
    lexsort behind [sort_values] on several columns and for the ordering of
    the group keys. *)
Fixpoint insert_by {A : Type} (le : A -> A -> bool) (x : A) (l : list A) : list A :=
  match l with
  | [] => [x]
  | y :: t => if le x y then x :: y :: t else y :: insert_by le x t
  end.

Fixpoint sort_by {A : Type} (le : A -> A -> bool) (l : list A) : list A :=
  match l with
  | [] => []
  | x :: t => insert_by le x (sort_by le t)
  end.

(** [DataFrame.sort_values([c1, ..., cn])] with n > 1: a stable lexsort on
    the composite key. *)
Definition sort_values {R K : Type} `{Ord K} (key : R -> K) (df : list R) : list R :=
  sort_by (fun a b => leb (key a) (key b)) df.

(** ** groupby *)

(** The distinct values of a key, first occurrences kept. *)
Fixpoint unique {K : Type} `{Ord K} (l : list K) : list K :=
  match l with
  | [] => []
  | k :: t => k :: filter (fun k' => negb (eqb k' k)) (unique t)
  end.

(** [df.groupby(key)] (sort=True): the groups in ascending key order, the
    rows of a group in their order in [df]. *)
Definition group_keys {R K : Type} `{Ord K} (key : R -> K) (df : list R) : list K :=
  sort_by leb (unique (map key df)).

Definition group {R K : Type} `{Ord K} (key : R -> K) (k : K) (df : list R) : list R :=
  filter (fun r => eqb (key r) k) df.

Definition groupby {R K : Type} `{Ord K} (key : R -> K) (df : list R)
  : list (K * list R) :=
  map (fun k => (k, group key k df)) (group_keys key df).

(** [groupby(key)[col].shift(1)]: for every row, in row order, the value of
    the previous row of the same group, NaN for the first row of a group.
    [prev] holds the last value seen for every key. *)
Fixpoint shift_from {R K V : Type} `{Ord K} (key : R -> K) (val : R -> V)
    (prev : K -> option V) (df : list R) : list (option V) :=
  match df with
  | [] => []
  | r :: t =>
      prev (key r)
      :: shift_from key val
           (fun k => if eqb k (key r) then Some (val r) else prev k) t
  end.

Definition groupby_shift {R K V : Type} `{Ord K} (key : R -> K) (val : R -> V)
    (df : list R) : list (option V) :=
  shift_from key val (fun _ => None) df.

(** [GroupBy.first()] on rows without missing values: the first row of
    every group. *)
Definition groupby_first {R K : Type} `{Ord K} (key : R -> K) (df : list R)
  : list (K * R) :=
  flat_map (fun g => match snd g with
                     | [] => []
                     | r :: _ => [(fst g, r)]
                     end)
           (groupby key df).

(** ** merge *)

(** [pd.merge(left, right, on=key)], an inner join in the order of the
    left rows. *)
Definition merge_inner {L Rt K : Type} `{Ord K} (kl : L -> K) (kr : Rt -> K)
    (left : list L) (right : list Rt) : list (L * Rt) :=
  flat_map (fun l => map (fun r => (l, r))
                         (filter (fun r => eqb (kr r) (kl l)) right))
           left.

(** [pd.merge(left, right, on=key, how='left')]: every left row is kept; a
    left row without a partner gets missing values for the right columns. *)
Definition merge_left {L Rt K : Type} `{Ord K} (kl : L -> K) (kr : Rt -> K)
    (left : list L) (right : list Rt) : list (L * option Rt) :=
  flat_map (fun l => match filter (fun r => eqb (kr r) (kl l)) right with
                     | [] => [(l, None)]
                     | ms => map (fun r => (l, Some r)) ms
                     end)
           left.

(** ** Column aggregates *)

Definition sumZ (l : list Z) : Z := fold_right Z.add 0 l.
Definition sumQ (l : list Q) : Q := fold_right Qplus 0%Q l.

(** [max] of a column of a group; groups are never empty. *)
Definition maximum (l : list Z) : Z :=
  match l with
  | [] => 0
  | x :: t => fold_left Z.max t x
  end.

(** [Series.median()]: the middle value of the sorted column, the mean of
    the two middle values when the length is even, NaN on no values. *)
Definition median (l : list Q) : option Q :=
  let s := sort_by Qle_bool l in
  let n := length s in
  match n with
  | O => None
  | _ =>
      if Nat.odd n then Some (nth (n / 2)%nat s 0%Q)
      else Some ((nth (n / 2 - 1)%nat s 0%Q + nth (n / 2)%nat s 0%Q) / 2)%Q
  end.

(** ** Sorting on one column *)

#[export] Instance Ord_Q : Ord Q := Qle_bool.

(** [df.take(indexer)]: the rows at the positions of [indexer], in its
    order (positions out of range raise in pandas; an indexer made by
    [argsort] has none, and they are skipped here). *)
Fixpoint take {R : Type} (df : list R) (indexer : list nat) : list R :=
  match indexer with
  | [] => []
  | i :: t =>
      match nth_error df i with
      | Some r => r :: take df t
      | None => take df t
      end
  end.

(** [pandas.core.sorting.nargsort(items, kind, ascending=False)] on a
    column without NaN: the column is reversed, argsorted ascending by
    numpy with the requested [kind], the positions are mapped back and the
    indexer is reversed.  [argsort] is numpy's [ndarray.argsort(kind=kind)]. *)
Definition nargsort_descending (argsort : list fnum -> list nat)
    (items : list fnum) : list nat :=
  let n := length items in
  rev (map (fun j => (n - 1 - j)%nat) (argsort (rev items))).

(** [df.sort_values(col, ascending=False)] with one column: [kind] is left
    at its default ['quicksort'], so [argsort] is numpy's quicksort.  Its
    code is not part of the scripts; what numpy promises of it is
    [is_argsort] below, and not [is_stable_argsort]. *)
Definition sort_values_descending {R : Type} (argsort : list fnum -> list nat)
    (col : R -> fnum) (df : list R) : list R :=
  take df (nargsort_descending argsort (map col df)).

Definition item (items : list fnum) (i : nat) : fnum := nth i items (Fin 0).

Fixpoint all_pairs {A : Type} (R : A -> A -> bool) (l : list A) : bool :=
  match l with
  | [] => true
  | x :: t => forallb (R x) t && all_pairs R t
  end.

(** [ix] lists every position below [n], and nothing else. *)
Definition covers (n : nat) (ix : list nat) : bool :=
  (length ix =? n)%nat && forallb (fun i => existsb (Nat.eqb i) ix) (seq 0 n).

(** What every [kind] of [argsort] returns: the positions of [items], the
    items at them ascending. *)
Definition is_argsort (items : list fnum) (ix : list nat) : bool :=
  covers (length items) ix
  && all_pairs (fun i j => fnum_leb (item items i) (item items j)) ix.

(** What a stable [kind] ('stable', 'mergesort') returns in addition: equal
    items keep their order. *)
Definition is_stable_argsort (items : list fnum) (ix : list nat) : bool :=
  covers (length items) ix
  && all_pairs (fun i j => fnum_ltb (item items i) (item items j)
                           || (fnum_eqb (item items i) (item items j) && (i <? j)%nat))
               ix.

Definition enumerate {A : Type} (l : list A) : list (nat * A) :=
  combine (seq 0 (length l)) l.

(** A stable argsort (insertion sort on the enumerated items). *)
Definition argsort_stable (items : list fnum) : list nat :=
  map fst (sort_by (fun a b => fnum_leb (snd a) (snd b)) (enumerate items)).

(** ** numpy's quicksort

    [DataFrame.sort_values] on one column leaves [kind] at 'quicksort', and
    [nargsort] hands the column to [ndarray.argsort(kind='quicksort')].
    For float64 that is, on the scalar path, the function [aquicksort_] of
    numpy's [npysort/quicksort.cpp] (an introsort on the index array
    [tosort]): median-of-three partitioning while a range has more than
    [SMALL_QUICKSORT] + 1 items, insertion sort on the ranges left.  The
    definitions follow that function statement by statement; [t] is
    [tosort] and [v] the values.  The column has no NaN ([nargsort] takes
    them out first), so [Tag::less] is [<].  (Builds that dispatch float64
    argsort to the AVX-512 sorting network do not run this function.) *)
Definition SMALL_QUICKSORT : nat := 16.

(** [npy_get_msb]: the position of the highest bit. *)
Definition npy_get_msb (num : nat) : Z := Z.log2 (Z.of_nat num).

Fixpoint store (t : list nat) (i x : nat) : list nat :=
  match t, i with
  | [], _ => []
  | _ :: rest, O => x :: rest
  | y :: rest, S i' => y :: store rest i' x
  end.

(** [INTP_SWAP(t[i], t[j])]. *)
Definition INTP_SWAP (t : list nat) (i j : nat) : list nat :=
  store (store t i (nth j t O)) j (nth i t O).

(** [v[t[i]]]. *)
Definition value_at (v : list fnum) (t : list nat) (i : nat) : fnum :=
  item v (nth i t O).

(** [do { ++pi; } while (less(v[*pi], vp));], entered after the first
    increment; the pivot at [pr - 1] stops it. *)
Fixpoint scan_up (fuel : nat) (v : list fnum) (t : list nat) (vp : fnum) (pi : nat)
  : nat :=
  match fuel with
  | O => pi
  | S fuel' =>
      if fnum_ltb (value_at v t pi) vp then scan_up fuel' v t vp (S pi) else pi
  end.

(** [do { --pj; } while (less(vp, v[*pj]));], entered after the first
    decrement; the item at [pl] stops it. *)
Fixpoint scan_down (fuel : nat) (v : list fnum) (t : list nat) (vp : fnum) (pj : nat)
  : nat :=
  match fuel with
  | O => pj
  | S fuel' =>
      if fnum_ltb vp (value_at v t pj) then scan_down fuel' v t vp (pj - 1) else pj
  end.

(** The loop [for (;;)] of the partition: both scans, [break] when they
    meet, a swap otherwise. *)
Fixpoint partition_loop (fuel : nat) (v : list fnum) (t : list nat) (vp : fnum)
    (pi pj : nat) : list nat * nat :=
  match fuel with
  | O => (t, pi)
  | S fuel' =>
      let pi := scan_up (length t) v t vp (S pi) in
      let pj := scan_down (length t) v t vp (pj - 1) in
      if (pj <=? pi)%nat then (t, pi)
      else partition_loop fuel' v (INTP_SWAP t pi pj) vp pi pj
  end.

(** One pass of [while ((pr - pl) > SMALL_QUICKSORT)]: the median of
    [pl], [pm], [pr] goes to [pm], the pivot is put aside at [pr - 1], the
    range is partitioned, and the pivot goes to its place [pi]. *)
Definition partition (v : list fnum) (t : list nat) (pl pr : nat) : list nat * nat :=
  let pm := (pl + (pr - pl) / 2)%nat in
  let t := if fnum_ltb (value_at v t pm) (value_at v t pl) then INTP_SWAP t pm pl else t in
  let t := if fnum_ltb (value_at v t pr) (value_at v t pm) then INTP_SWAP t pr pm else t in
  let t := if fnum_ltb (value_at v t pm) (value_at v t pl) then INTP_SWAP t pm pl else t in
  let vp := value_at v t pm in
  let t := INTP_SWAP t pm (pr - 1) in
  let found := partition_loop (length t) v t vp pl (pr - 1) in
  (INTP_SWAP (fst found) (snd found) (pr - 1), snd found).

(** [while (pj > pl && less(vp, v[*pk])) { *pj-- = *pk--; }]. *)
Fixpoint shift_up (fuel : nat) (v : list fnum) (t : list nat) (vp : fnum)
    (pl pj : nat) : list nat * nat :=
  match fuel with
  | O => (t, pj)
  | S fuel' =>
      if (pl <? pj)%nat && fnum_ltb vp (value_at v t (pj - 1))
      then shift_up fuel' v (store t pj (nth (pj - 1) t O)) vp pl (pj - 1)
      else (t, pj)
  end.

(** The insertion sort of the range [pl .. pr]. *)
Definition insertion_sort (v : list fnum) (t : list nat) (pl pr : nat) : list nat :=
  fold_left (fun t pi =>
               let vi := nth pi t O in
               let moved := shift_up pi v t (item v vi) pl pi in
               store (fst moved) (snd moved) vi)
            (seq (S pl) (pr - pl)) t.

(** The range [pl .. pr] with its depth counter.  After a partition the
    larger part is pushed on the stack with the counter, and the loop goes
    on with the smaller part; a range popped from the stack is first
    tested against the counter ([popped]).  [None]: the counter ran out,
    where numpy goes over to heapsort, which is not embedded. *)
Fixpoint sort_range (fuel : nat) (popped : bool) (cdepth : Z) (v : list fnum)
    (t : list nat) (pl pr : nat) : option (list nat) :=
  match fuel with
  | O => None
  | S fuel' =>
      if popped && (cdepth <? 0) then None
      else if (SMALL_QUICKSORT <? pr - pl)%nat then
        let split := partition v t pl pr in
        let t := fst split in
        let pi := snd split in
        if (pi - pl <? pr - pi)%nat then
          match sort_range fuel' false (cdepth - 1) v t pl (pi - 1) with
          | Some t => sort_range fuel' true (cdepth - 1) v t (S pi) pr
          | None => None
          end
        else
          match sort_range fuel' false (cdepth - 1) v t (S pi) pr with
          | Some t => sort_range fuel' true (cdepth - 1) v t pl (pi - 1)
          | None => None
          end
      else Some (insertion_sort v t pl pr)
  end.

(** [aquicksort_(v, tosort, num)], [tosort] holding [0 .. num - 1]. *)
Definition aquicksort (v : list fnum) : option (list nat) :=
  let num := length v in
  sort_range (S num) true (npy_get_msb num * 2) v (seq 0 num) 0 (num - 1).

(** [argsort(kind='quicksort')]; past the depth limit the stable argsort
    stands in for the heapsort (no statement below reaches that case). *)
Definition argsort_quicksort (v : list fnum) : list nat :=
  match aquicksort v with
  | Some t => t
  | None => argsort_stable v
  end.

(** ** Quantile binning *)

(** [Series.quantile(i/q)] on sorted data (linear interpolation): the
    position is [i/q * (n-1)]; the value interpolates between the items
    around it. *)
Definition quantile (sorted : list Q) (i q : nat) : Q :=
  let n := length sorted in
  let pos := (i * (n - 1))%nat in
  let lo := (pos / q)%nat in
  let a := nth lo sorted 0%Q in
  let b := nth (Nat.min (lo + 1) (n - 1)) sorted 0%Q in
  (a + (b - a) * (Z.of_nat (pos mod q) # Pos.of_nat q))%Q.

(** The bin edges of [pd.qcut(x, q)]: the quantiles at
    [np.linspace(0, 1, q + 1)]. *)
Definition quantile_edges (x : list Q) (q : nat) : list Q :=
  let s := sort_by Qle_bool x in
  map (fun i => quantile s i q) (seq 0 (q + 1)).

(** [bins.searchsorted(v, side='left')] on ascending edges: the number of
    edges below [v]. *)
Definition searchsorted_left (bins : list Q) (v : Q) : nat :=
  length (filter (fun e => negb (Qle_bool v e)) bins).

(** [pd.qcut(x, q, labels=labels, duplicates='drop')], after
    [pandas.core.reshape.tile._bins_to_cuts]: duplicate edges are dropped
    (unless there are just two edges); then the number of labels must be
    the number of bins, or ValueError ("Bin labels must be one fewer than
    the number of bin edges") is raised; a value gets the label of the
    right-closed bin it lies in, the lowest edge included. *)
Definition qcut {L : Type} (x : list Q) (q : nat) (labels : list L)
  : result (list (option L)) :=
  let bins := quantile_edges x q in
  let unique_bins := unique bins in
  let bins := if (length unique_bins <? length bins)%nat
                 && negb (length bins =? 2)%nat
              then unique_bins else bins in
  if negb (length labels =? length bins - 1)%nat then Raised ValueError
  else Ok (map (fun v =>
                  let ids := searchsorted_left bins v in
                  let ids := if eqb v (hd 0%Q bins) then 1%nat else ids in
                  if (ids =? length bins)%nat || (ids =? 0)%nat then None
                  else nth_error labels (ids - 1))
               x).

(** ** groupby on a categorical column *)

(** [df.groupby(col).first()] where [col] is categorical: the categories
    in their order.  With [observed=False] a category without rows still
    gets a row, all of whose values are missing ([None]); with
    [observed=True] it gets none.  Rows whose key is NaN are in no group. *)
Definition groupby_first_categorical {R L : Type} (eqL : L -> L -> bool)
    (observed : bool) (categories : list L) (col : R -> option L)
    (df : list R) : list (L * option R) :=
  flat_map (fun c =>
              match filter (fun r => match col r with
                                     | Some l => eqL l c
                                     | None => false
                                     end) df with
              | [] => if observed then [] else [(c, None)]
              | r :: _ => [(c, Some r)]
              end)
           categories.

(** The default of [groupby(observed=...)] in pandas 1.x and 2.x. *)
Definition observed_default : bool := false.

(** [pd.Timedelta(days=d)] in nanoseconds. *)
Definition Timedelta (days : Z) : Z := days * 86400000000000.

End Pandas.

Import Pandas.

(* ================================================================== *)
(** * Stage 1: reading and cleaning the snapshot table
      (01: lines 16-23, 02: lines 17-24, identical) *)
(* ================================================================== *)

Module Normalizer.

(** A cell of a date column of the CSV file: empty, text that is no date,
    or a date. *)
Inductive date_cell : Type :=
| Blank
| Garbled
| Stamp (t : Z).

(** A line of the CSV file; [None] is an empty cell. *)
Record RawRow : Type := mkRawRow {
  raw_hotel_id : option Z;
  raw_plan_id : option Z;
  raw_room_type_id : option Z;
  raw_date : date_cell;
  raw_created_at : date_cell;
  raw_stock : option Z;
  raw_price : option Q
}.

(** A snapshot: a row without missing values. *)
Record Row : Type := mkRow {
  hotel_id : Z;
  plan_id : Z;
  room_type_id : Z;
  date : Z;
  created_at : Z;
  stock : Z;
  price : Q
}.

(** [pd.to_datetime(column)], [errors='raise'] by default: an empty cell
    becomes NaT, text that is no date raises.  ([read_csv(parse_dates=...)]
    before it leaves a column it cannot parse as it was read.) *)
Definition to_datetime (column : list date_cell) : result (list (option Z)) :=
  mapM (fun c => match c with
                 | Blank => Ok None
                 | Stamp t => Ok (Some t)
                 | Garbled => Raised DateParseError
                 end)
       column.

(** A row of [df.dropna()]: kept when no cell is missing. *)
Definition complete (r : RawRow) (d c : option Z) : option Row :=
  match raw_hotel_id r, raw_plan_id r, raw_room_type_id r, d, c,
        raw_stock r, raw_price r with
  | Some h, Some p, Some t, Some d', Some c', Some s, Some pr =>
      Some (mkRow h p t d' c' s pr)
  | _, _, _, _, _, _, _ => None
  end.

Definition dropna (df : list (RawRow * (option Z * option Z))) : list Row :=
  flat_map (fun x => match complete (fst x) (fst (snd x)) (snd (snd x)) with
                     | Some r => [r]
                     | None => []
                     end)
           df.

(** Lines 16-23 of 01: the two date columns are converted, then the rows
    with a missing value are dropped. *)
Definition normalize (csv : list RawRow) : result (list Row) :=
  created <- to_datetime (map raw_created_at csv) ;;
  dates <- to_datetime (map raw_date csv) ;;
  Ok (dropna (combine csv (combine dates created))).

(** The value of a date cell that parses, and the rows a line of the
    file leaves in the clean frame when every date of the file parses. *)
Definition cell_value (c : date_cell) : option Z :=
  match c with
  | Stamp t => Some t
  | _ => None
  end.

Definition clean_row (r : RawRow) : list Row :=
  match complete r (cell_value (raw_date r)) (cell_value (raw_created_at r)) with
  | Some x => [x]
  | None => []
  end.

(** A row with an empty date or created_at cell. *)
Definition missing_date (r : RawRow) : bool :=
  match raw_date r, raw_created_at r with
  | Blank, _ => true
  | _, Blank => true
  | _, _ => false
  end.

(** A row with a date or created_at cell that is no date. *)
Definition unparseable_date (r : RawRow) : bool :=
  match raw_date r, raw_created_at r with
  | Garbled, _ => true
  | _, Garbled => true
  | _, _ => false
  end.

End Normalizer.

Import Normalizer.

(* ================================================================== *)
(** * Stage 2: capacity filter and sale derivation
      (01: lines 27-34, 02: lines 28-35, identical) *)
(* ================================================================== *)

Module SalesDeriver.

Definition listing : Type := Z * Z * Z.
Definition stay : Type := listing * Z.

(** The columns [['hotel_id', 'plan_id', 'room_type_id']]. *)
Definition listing_of (r : Row) : listing := (hotel_id r, plan_id r, room_type_id r).

(** The columns [['hotel_id', 'plan_id', 'room_type_id', 'date']]. *)
Definition stay_of (r : Row) : stay := (listing_of r, date r).

(** Line 27: the largest stock of every listing. *)
Definition max_stock_df (df : list Row) : list (listing * Z) :=
  map (fun g => (fst g, maximum (map stock (snd g)))) (groupby listing_of df).

(** The capacity of a listing as the data model words it: the largest
    stock over all its snapshots. *)
Definition listing_max_stock (df : list Row) (l : listing) : Z :=
  maximum (map stock (group listing_of l df)).

(** Lines 28-29: the column [max_stock] is merged in and the listings
    below 30 rooms are dropped. *)
Definition with_max_stock (df : list Row) : list (Row * Z) :=
  map (fun x => (fst x, snd (snd x)))
      (merge_inner listing_of fst df (max_stock_df df)).

Definition capacity_filter (df : list (Row * Z)) : list (Row * Z) :=
  filter (fun x => 30 <=? snd x) df.

(** Line 31: the sort on listing, stay date and observation time. *)
Definition sorted (df : list (Row * Z)) : list (Row * Z) :=
  sort_values (fun x => (stay_of (fst x), created_at (fst x))) df.

(** Line 32: the stock of the previous snapshot of the same stay date. *)
Definition stock_shift (df : list (Row * Z)) : list (option Z) :=
  groupby_shift (fun x => stay_of (fst x)) (fun x => stock (fst x)) df.

(** A row of the frame after line 34. *)
Record Sale : Type := mkSale {
  snapshot : Row;
  max_stock : Z;
  sold : Z;
  revenue : Q
}.

(** Line 33: [(stock_shift - stock).clip(lower=0).fillna(0)]. *)
Definition sold_of (shift : option Z) (s : Z) : Z :=
  fillna 0 (clip_lower 0 (option_map (fun p => p - s) shift)).

(** Lines 33-34 on one row. *)
Definition sale_of (x : Row * Z) (shift : option Z) : Sale :=
  let n := sold_of shift (stock (fst x)) in
  mkSale (fst x) (snd x) n (inject_Z n * price (fst x))%Q.

Definition with_sales (df : list (Row * Z)) : list Sale :=
  map (fun p => sale_of (fst p) (snd p)) (combine df (stock_shift df)).

(** Lines 27-34: the frame [df] all later statements read. *)
Definition sales (df : list Row) : list Sale :=
  with_sales (sorted (capacity_filter (with_max_stock df))).

Definition sale_listing (s : Sale) : listing := listing_of (snapshot s).
Definition sale_stay (s : Sale) : stay := stay_of (snapshot s).

(** The sold column of one stay date as the data model words it: nothing
    for the first snapshot, then the drop of the stock from one snapshot
    to the next, never negative. *)
Fixpoint sold_after (prev : Z) (stocks : list Z) : list Z :=
  match stocks with
  | [] => []
  | s :: t => Z.max (prev - s) 0 :: sold_after s t
  end.

Definition sold_sequence (stocks : list Z) : list Z :=
  match stocks with
  | [] => []
  | s :: t => 0 :: sold_after s t
  end.

End SalesDeriver.

Import SalesDeriver.

(* ================================================================== *)
(** * Stage 3: the KPI of every stay date *)
(* ================================================================== *)

Module KpiAggregator.

(** A row of [daily_kpi] after the aggregation (01: lines 40-45,
    02: lines 41-46). *)
Record Kpi : Type := mkKpi {
  kpi_stay : stay;
  total_revenue : Q;
  total_sold : Z;
  kpi_max_stock : Z
}.

Definition kpi_listing (k : Kpi) : listing := fst (kpi_stay k).
Definition kpi_date (k : Kpi) : Z := snd (kpi_stay k).

(** The named aggregation: sums of revenue and sold, first max_stock. *)
Definition agg (g : stay * list Sale) : Kpi :=
  mkKpi (fst g)
        (sumQ (map revenue (snd g)))
        (sumZ (map sold (snd g)))
        (hd 0 (map max_stock (snd g))).

(** The stay dates with at least one sale. *)
Definition daily_kpi (df : list Sale) : list Kpi :=
  filter (fun k => 0 <? total_sold k) (map agg (groupby sale_stay df)).

(** Sales observed more than 120 days before the stay date
    (01: lines 51-53). *)
Definition sold_before_120_df (df : list Sale) : list Sale :=
  filter (fun s => created_at (snapshot s) <? date (snapshot s) - Timedelta 120) df.

Definition sold_before_120_agg (df : list Sale) : list (stay * Z) :=
  map (fun g => (fst g, sumZ (map sold (snd g))))
      (groupby sale_stay (sold_before_120_df df)).

(** Sales observed in the last 30 days before the stay date
    (01: lines 59-61, 02: lines 69-71). *)
Definition sold_last_30_df (df : list Sale) : list Sale :=
  filter (fun s => date (snapshot s) - Timedelta 30 <=? created_at (snapshot s)) df.

Definition sold_last_30_agg (df : list Sale) : list (stay * Z) :=
  map (fun g => (fst g, sumZ (map sold (snd g))))
      (groupby sale_stay (sold_last_30_df df)).

(** [pd.merge(left, agg, on=stay, how='left')] followed by [fillna(0)] on
    the merged column. *)
Definition left_join_fill0 {L : Type} (key : L -> stay) (left : list L)
    (right : list (stay * Z)) : list (L * Z) :=
  map (fun p => (fst p, fillna 0 (option_map snd (snd p))))
      (merge_left key fst left right).

(** The sales of a stay date, and those of them inside a window, as the
    specification words them. *)
Definition events_of (k : stay) (df : list Sale) : list Sale :=
  filter (fun s => eqb (sale_stay s) k) df.

Definition observed_before (t : Z) (s : Sale) : bool := created_at (snapshot s) <? t.
Definition observed_from (t : Z) (s : Sale) : bool := t <=? created_at (snapshot s).

(** The units of stay date [k] sold more than 120 days ahead. *)
Definition sold_early (k : stay) (df : list Sale) : Z :=
  sumZ (map sold (filter (observed_before (snd k - Timedelta 120)) (events_of k df))).

(** The units of stay date [k] sold in its last 30 days. *)
Definition sold_late (k : stay) (df : list Sale) : Z :=
  sumZ (map sold (filter (observed_from (snd k - Timedelta 30)) (events_of k df))).

(** The late-booking join as the specification words it, for the row of
    stay date [kpi_stay k]: [last] is the number of units sold in the last
    30 days, nothing when the join finds no such sale, and [ratio] is its
    share of all units sold; a stay date all of whose sales fall in the
    last 30 days has ratio 1, which meets a threshold of one half. *)
Definition late_booking_spec (df : list Sale) (k : Kpi) (last : Z) (ratio : fnum)
  : Prop :=
  let events := events_of (kpi_stay k) df in
  let in_last_30 := observed_from (kpi_date k - Timedelta 30) in
  0 < total_sold k
  /\ total_sold k = sumZ (map sold events)
  /\ last = sumZ (map sold (filter in_last_30 events))
  /\ ratio = Fin (inject_Z last / inject_Z (total_sold k))%Q
  /\ (filter in_last_30 events = [] -> last = 0)
  /\ ((forall s, In s events -> sold s <> 0 -> in_last_30 s = true) ->
      last = total_sold k
      /\ exists q, ratio = Fin q /\ (q == 1)%Q /\ fnum_leb (Fin (1 # 2)) ratio = true).

End KpiAggregator.

Import KpiAggregator.

(* ================================================================== *)
(** * booking_analyzer01-01.py: the best stay date of every listing *)
(* ================================================================== *)

Module OptimalBookingCurves.

(** A row of [daily_kpi] after line 64. *)
Record DailyKpi : Type := mkDailyKpi {
  kpi : Kpi;
  RevPAR : fnum;
  sold_before_120 : Z;
  booking_rate_at_120_days : fnum;
  sold_last_30 : Z;
  last_30_days_booking_ratio : fnum
}.

(** Lines 48-64 on one row: the three quotients, each [(a / b).fillna(0)]. *)
Definition kpi_row (x : Kpi * Z * Z) : DailyKpi :=
  let k := fst (fst x) in
  let before := snd (fst x) in
  let last := snd x in
  mkDailyKpi k
    (div_fillna0 (total_revenue k) (inject_Z (kpi_max_stock k)))
    before
    (div_fillna0 (inject_Z before) (inject_Z (kpi_max_stock k)))
    last
    (div_fillna0 (inject_Z last) (inject_Z (total_sold k))).

(** Lines 40-64. *)
Definition daily_kpi (df : list Sale) : list DailyKpi :=
  let kpis := KpiAggregator.daily_kpi df in
  let joined_120 := left_join_fill0 kpi_stay kpis (sold_before_120_agg df) in
  let joined_30 :=
    left_join_fill0 (fun x => kpi_stay (fst x)) joined_120 (sold_last_30_agg df) in
  map kpi_row joined_30.

(** Line 67. *)
Definition last_minute_success_cases (last_minute_threshold : Q)
    (daily_kpi : list DailyKpi) : list DailyKpi :=
  filter (fun k => fnum_leb (Fin last_minute_threshold) (last_30_days_booking_ratio k))
         daily_kpi.

(** Line 68: sorted by RevPAR, largest first; the first row of every
    listing. *)
Definition best_dates (argsort : list fnum -> list nat) (last_minute_threshold : Q)
    (daily_kpi : list DailyKpi) : list DailyKpi :=
  map snd
      (groupby_first (fun k => kpi_listing (kpi k))
         (sort_values_descending argsort RevPAR
            (last_minute_success_cases last_minute_threshold daily_kpi))).

(** The function up to the chart loop, which draws one chart for every row
    of [best_dates]. *)
Definition analyze_and_plot_optimal_booking_curves (argsort : list fnum -> list nat)
    (csv : list RawRow) (last_minute_threshold : Q) : result (list DailyKpi) :=
  df <- normalize csv ;;
  Ok (best_dates argsort last_minute_threshold (daily_kpi (sales df))).

End OptimalBookingCurves.

(* ================================================================== *)
(** * booking_analyzer01-02.py: the best stay date of every price tier *)
(* ================================================================== *)

Module PeerGroupChampions.

(** The three labels of line 59, cheapest first: 梅 (low), 竹 (middle),
    松 (high). *)
Inductive tier_label : Type :=
| Ume
| Take
| Matsu.

(** A value of the column [price_tier]: a label, or the text of line 63
    (one single group). *)
Inductive tier : Type :=
| Labelled (l : tier_label)
| SingleGroup.

(** The type of the column [price_tier]: the categorical that [qcut]
    returns, or plain text. *)
Inductive tier_dtype : Type :=
| Categorical (categories : list tier_label)
| Object.

Definition tier_label_eqb (a b : tier_label) : bool :=
  match a, b with
  | Ume, Ume => true
  | Take, Take => true
  | Matsu, Matsu => true
  | _, _ => false
  end.

(** A row of [daily_kpi] after line 74. *)
Record DailyKpi : Type := mkDailyKpi {
  kpi : Kpi;
  RevPAR : fnum;
  ADR : fnum;
  characteristic_price : Q;
  price_tier : option tier;
  sold_last_30 : Z;
  last_30_days_booking_ratio : fnum
}.

(** Lines 49-50. *)
Definition revpar_of (k : Kpi) : fnum :=
  div_fillna0 (total_revenue k) (inject_Z (kpi_max_stock k)).

Definition adr_of (k : Kpi) : fnum :=
  div_fillna0 (total_revenue k) (inject_Z (total_sold k)).

(** The quantile arithmetic is modelled on rationals. *)
Definition finite (x : fnum) : result Q :=
  match x with
  | Fin q => Ok q
  | _ => Raised OutsideModel
  end.

(** The average daily rate of a stay date with sales, and the
    characteristic price of a listing: the median of those rates over the
    stay dates of the listing. *)
Definition adr_value (k : Kpi) : Q := (total_revenue k / inject_Z (total_sold k))%Q.

Definition median_adr (daily_kpi : list Kpi) (l : listing) : Q :=
  fillna 0%Q (median (map adr_value (group kpi_listing l daily_kpi))).

(** Line 53: the median ADR of every listing. *)
Definition plan_characteristic_price (daily_kpi : list Kpi)
  : result (list (listing * Q)) :=
  mapM (fun g =>
          adrs <- mapM (fun k => finite (adr_of k)) (snd g) ;;
          match median adrs with
          | Some m => Ok (fst g, m)
          | None => Raised OutsideModel
          end)
       (groupby kpi_listing daily_kpi).

(** Line 54. *)
Definition with_characteristic_price (daily_kpi : list Kpi)
  : result (list (Kpi * Q)) :=
  prices <- plan_characteristic_price daily_kpi ;;
  Ok (map (fun x => (fst x, snd (snd x)))
          (merge_inner kpi_listing fst daily_kpi prices)).

(** Line 59: [['松', '竹', '梅'][::-1][:num_tiers]]. *)
Definition tier_labels (num_tiers : nat) : list tier_label :=
  firstn num_tiers (rev [Matsu; Take; Ume]).

(** The prices take exactly two distinct values. *)
Definition two_distinct_prices (prices : list Q) : Prop :=
  exists a b : Q,
    (a < b)%Q
    /\ Forall (fun x => x == a \/ x == b)%Q prices
    /\ Exists (fun x => x == a)%Q prices
    /\ Exists (fun x => x == b)%Q prices.

(** The quantile binning is degenerate: the [num_tiers + 1] bin edges are
    not all distinct. *)
Definition edges_collide (num_tiers : nat) (prices : list Q) : Prop :=
  (length (unique (quantile_edges prices num_tiers)) < num_tiers + 1)%nat.

(** Lines 58-63: the column [price_tier], its type, and whether the
    warning of line 62 was printed.  [except ValueError] catches nothing
    else. *)
Definition assign_price_tier (num_tiers : nat) (prices : list Q)
  : result (tier_dtype * list (option tier) * bool) :=
  match qcut prices num_tiers (tier_labels num_tiers) with
  | Ok column =>
      Ok (Categorical (tier_labels num_tiers),
          map (option_map Labelled) column, false)
  | Raised ValueError =>
      Ok (Object, map (fun _ => Some SingleGroup) prices, true)
  | Raised e => Raised e
  end.

(** Lines 49-74 on one row. *)
Definition kpi_row (x : Kpi * Q * option tier * Z) : DailyKpi :=
  let k := fst (fst (fst x)) in
  let price := snd (fst (fst x)) in
  let t := snd (fst x) in
  let last := snd x in
  mkDailyKpi k (revpar_of k) (adr_of k) price t last
    (div_fillna0 (inject_Z last) (inject_Z (total_sold k))).

(** The frame [daily_kpi] at line 74, with the type of its tier column and
    the warning flag. *)
Record Frame : Type := mkFrame {
  rows : list DailyKpi;
  dtype : tier_dtype;
  warned : bool
}.

(** Lines 41-74. *)
Definition daily_kpi (num_tiers : nat) (df : list Sale) : result Frame :=
  priced <- with_characteristic_price (KpiAggregator.daily_kpi df) ;;
  tiers <- assign_price_tier num_tiers (map snd priced) ;;
  let tiered := combine priced (snd (fst tiers)) in
  let joined_30 :=
    left_join_fill0 (fun x => kpi_stay (fst (fst x))) tiered (sold_last_30_agg df) in
  Ok (mkFrame (map kpi_row joined_30) (fst (fst tiers)) (snd tiers)).

(** Line 77. *)
Definition last_minute_cases (last_minute_threshold : Q)
    (daily_kpi : list DailyKpi) : list DailyKpi :=
  filter (fun k => fnum_leb (Fin last_minute_threshold) (last_30_days_booking_ratio k))
         daily_kpi.

Definition label_of (k : DailyKpi) : option tier_label :=
  match price_tier k with
  | Some (Labelled l) => Some l
  | _ => None
  end.

Definition tier_eqb (a b : tier) : bool :=
  match a, b with
  | Labelled x, Labelled y => tier_label_eqb x y
  | SingleGroup, SingleGroup => true
  | _, _ => false
  end.

(** The rows whose [price_tier] is [t]. *)
Definition in_tier (t : tier) (k : DailyKpi) : bool :=
  match price_tier k with
  | Some t' => tier_eqb t' t
  | None => false
  end.

(** The values a tier column of type [dt] can hold: labels among the
    categories (or NaN) in a categorical, the text of line 63 in the text
    column. *)
Definition well_typed (dt : tier_dtype) (daily_kpi : list DailyKpi) : Prop :=
  match dt with
  | Categorical categories =>
      Forall (fun k => match price_tier k with
                       | Some (Labelled c) => In c categories
                       | Some SingleGroup => False
                       | None => True
                       end) daily_kpi
  | Object => Forall (fun k => price_tier k = Some SingleGroup) daily_kpi
  end.

(** [groupby(['price_tier']).first().reset_index()] of line 80; [None] is
    a row of missing values.  On the categorical column every category is
    a group, by [observed]; on the text column, which holds the same text
    in every row, the groups are those of a constant key. *)
Definition first_per_tier (observed : bool) (dt : tier_dtype)
    (df : list DailyKpi) : list (tier * option DailyKpi) :=
  match dt with
  | Categorical categories =>
      map (fun x => (Labelled (fst x), snd x))
          (groupby_first_categorical tier_label_eqb observed categories label_of df)
  | Object =>
      map (fun x => (SingleGroup, Some (snd x)))
          (groupby_first (fun _ : DailyKpi => 0) df)
  end.

(** Lines 77-80. *)
Definition best_dates_with (observed : bool) (argsort : list fnum -> list nat)
    (last_minute_threshold : Q) (dt : tier_dtype) (daily_kpi : list DailyKpi)
  : list (tier * option DailyKpi) :=
  first_per_tier observed dt
    (sort_values_descending argsort RevPAR
       (last_minute_cases last_minute_threshold daily_kpi)).

Definition best_dates : (list fnum -> list nat) -> Q -> tier_dtype ->
                        list DailyKpi -> list (tier * option DailyKpi) :=
  best_dates_with observed_default.

(** The head of the chart loop (lines 84-110) on one row of [best_dates]:
    [int(g['max_stock'])] raises ValueError on a missing value. *)
Definition chart (g : tier * option DailyKpi) : result (tier * DailyKpi) :=
  match snd g with
  | Some k => Ok (fst g, k)
  | None => Raised ValueError
  end.

(** Lines 41-80: the frame, then the selection. *)
Definition select (argsort : list fnum -> list nat) (df : list Row)
    (last_minute_threshold : Q) (num_tiers : nat)
  : result (bool * list (tier * option DailyKpi)) :=
  frame <- daily_kpi num_tiers (sales df) ;;
  Ok (warned frame,
      best_dates argsort last_minute_threshold (dtype frame) (rows frame)).

(** The function: the warning flag and the charts drawn. *)
Definition analyze_and_plot_peer_group_champions (argsort : list fnum -> list nat)
    (csv : list RawRow) (last_minute_threshold : Q) (num_tiers : nat)
  : result (bool * list (tier * DailyKpi)) :=
  df <- normalize csv ;;
  selected <- select argsort df last_minute_threshold num_tiers ;;
  charts <- mapM chart (snd selected) ;;
  Ok (fst selected, charts).

End PeerGroupChampions.

(* ================================================================== *)
(** * The chart loop: the booking curve of an exemplar
      (01: lines 72-90, 02: lines 84-102, identical) *)
(* ================================================================== *)

Module BookingCurve.

Definition nanoseconds_per_day : Z := 86400000000000.

(** [Series.dt.normalize()]: the timestamp at midnight of its day. *)
Definition normalize_day (t : Z) : Z := t - t mod nanoseconds_per_day.

(** [Series.cumsum()]. *)
Fixpoint cumsum_from (total : Z) (column : list Z) : list Z :=
  match column with
  | [] => []
  | x :: t => (total + x) :: cumsum_from (total + x) t
  end.

Definition cumsum (column : list Z) : list Z := cumsum_from 0 column.

(** [mean] of the column of a group, as an exact rational; the float64
    mean of the program can differ from it in the last place, so that
    only the days of the price series are stated of it below. *)
Definition mean (column : list Q) : Q :=
  (sumQ column / inject_Z (Z.of_nat (length column)))%Q.

(** What one pass of the loop hands to the plotting calls: the units sold
    before the window, the cumulative units per day ([daily_sold], with
    [sold_before] added), the mean price per day ([daily_price]) and the
    height of the horizontal line ([g['max_stock']]). *)
Record Curve : Type := mkCurve {
  sold_before : Z;
  daily_sold : list (Z * Z);
  daily_price : list (Z * Q);
  full_line : Z
}.

Definition observed_day (s : Sale) : Z := normalize_day (created_at (snapshot s)).

(** The snapshots of the exemplar's stay date from 120 days before it on
    (01: lines 73-83). *)
Definition window (df : list Sale) (g : stay) : list Sale :=
  filter (fun s => snd g - Timedelta 120 <=? created_at (snapshot s))
         (events_of g df).

(** 01: lines 73-90 for the row [g] of [best_dates], of which the loop
    reads the key columns and [max_stock].  [sort_index()] sorts the days,
    which [groupby] has made distinct. *)
Definition curve (df : list Sale) (g : stay) (g_max_stock : Z) : Curve :=
  let sub_df := events_of g df in
  let cutoff := snd g - Timedelta 120 in
  let before :=
    sumZ (map sold (filter (fun s => created_at (snapshot s) <? cutoff) sub_df)) in
  let by_day := groupby observed_day (window df g) in
  let sums := sort_values fst (map (fun d => (fst d, sumZ (map sold (snd d)))) by_day) in
  mkCurve before
    (combine (map fst sums) (map (Z.add before) (cumsum (map snd sums))))
    (map (fun d => (fst d, mean (map (fun s => price (snapshot s)) (snd d)))) by_day)
    g_max_stock.

(** The first script with its chart loop: a curve for every row of
    [best_dates]. *)
Definition plot_optimal_booking_curves (argsort : list fnum -> list nat)
    (csv : list RawRow) (last_minute_threshold : Q)
  : result (list (OptimalBookingCurves.DailyKpi * Curve)) :=
  df <- normalize csv ;;
  Ok (map (fun g => (g, curve (sales df)
                          (kpi_stay (OptimalBookingCurves.kpi g))
                          (kpi_max_stock (OptimalBookingCurves.kpi g))))
          (OptimalBookingCurves.best_dates argsort last_minute_threshold
             (OptimalBookingCurves.daily_kpi (sales df)))).

(** The chart loop of the second script (lines 84-131).  Every pass ends
    with [plt.show()], so the charts come out one by one; a row of missing
    values raises at line 110 ([PeerGroupChampions.chart]) and ends the
    loop after the charts of the rows before it have been drawn.  The
    result is the charts drawn and the exception that ended the loop, if
    there was one. *)
Fixpoint chart_loop (df : list Sale)
    (best_dates : list (PeerGroupChampions.tier * option PeerGroupChampions.DailyKpi))
  : list (PeerGroupChampions.tier * PeerGroupChampions.DailyKpi * Curve) * option exn :=
  match best_dates with
  | [] => ([], None)
  | g :: rest =>
      match PeerGroupChampions.chart g with
      | Raised e => ([], Some e)
      | Ok c =>
          let later := chart_loop df rest in
          ((c, curve df (kpi_stay (PeerGroupChampions.kpi (snd c)))
                 (kpi_max_stock (PeerGroupChampions.kpi (snd c)))) :: fst later,
           snd later)
      end
  end.

(** The second script with its chart loop: the warning flag, the charts
    drawn, and the exception of the loop. *)
Definition plot_peer_group_champions (argsort : list fnum -> list nat)
    (csv : list RawRow) (last_minute_threshold : Q) (num_tiers : nat)
  : result (bool * (list (PeerGroupChampions.tier * PeerGroupChampions.DailyKpi * Curve)
                    * option exn)) :=
  df <- normalize csv ;;
  selected <- PeerGroupChampions.select argsort df last_minute_threshold num_tiers ;;
  Ok (fst selected, chart_loop (sales df) (snd selected)).

End BookingCurve.

(* ================================================================== *)
(** * The capacity of a listing, as the data model words it *)
(* ================================================================== *)

Module ListingCapacity.

(** ListingCapacity: [m] is the largest stock across all snapshots of the
    listing [l] in the table [df]. *)
Definition is_max_stock (df : list Row) (l : listing) (m : Z) : Prop :=
  (exists r, In r df /\ listing_of r = l /\ stock r = m)
  /\ forall r, In r df -> listing_of r = l -> stock r <= m.

(** A listing is retained when its capacity is 30 or more. *)
Definition retained (df : list Row) (l : listing) : Prop :=
  exists m, is_max_stock df l m /\ 30 <= m.

End ListingCapacity.

Import ListingCapacity.

(* ================================================================== *)
(** * Stage 4: what the selection is to deliver *)
(* ================================================================== *)

Module ExemplarSelector.

(** [best] is a row of the group with the largest value of [col] among
    the candidate rows [cases] of the group. *)
Definition best_of {R : Type} (col : R -> fnum) (in_group : R -> bool)
    (cases : list R) (best : R) : Prop :=
  In best cases /\ in_group best = true
  /\ forall r, In r cases -> in_group r = true -> fnum_leb (col r) (col best) = true.

(** Among the rows of the group that tie with [best] on [col], [best] is
    the first in the order of [cases]. *)
Definition first_of_ties {R : Type} (col : R -> fnum) (in_group : R -> bool)
    (cases : list R) (best : R) : Prop :=
  exists i, nth_error cases i = Some best
            /\ forall j r, nth_error cases j = Some r -> in_group r = true ->
                           fnum_eqb (col r) (col best) = true -> (i <= j)%nat.

End ExemplarSelector.

Import ExemplarSelector.

(* ================================================================== *)
(** * Properties of the pandas calls *)
(* ================================================================== *)

#[export] Instance OrdLaws_Z : OrdLaws Z.
Proof.
  split; unfold leb, Ord_Z; intros.
  - destruct (Z.leb_spec a b); [now left | right; apply Z.leb_le; lia].
  - apply Z.leb_le in H, H0. apply Z.leb_le. lia.
  - apply Z.leb_le in H, H0. lia.
Qed.

#[export] Instance OrdLaws_prod {A B : Type} `{OrdLaws A} `{OrdLaws B} : OrdLaws (A * B).
Proof.
  split; unfold leb, Ord_prod.
  - intros [a1 b1] [a2 b2]; simpl.
    destruct (leb a1 a2) eqn:E1, (leb a2 a1) eqn:E2; auto.
    + apply leb_total.
    + destruct (leb_total a1 a2); congruence.
  - intros [a1 b1] [a2 b2] [a3 b3]; simpl.
    destruct (leb a1 a2) eqn:E12; [|discriminate].
    destruct (leb a2 a3) eqn:E23; [|intros; discriminate].
    rewrite (leb_trans a1 a2 a3 E12 E23).
    intros H12 H23.
    destruct (leb a3 a1) eqn:E31; [|reflexivity].
    rewrite (leb_trans a2 a3 a1 E23 E31) in H12.
    rewrite (leb_trans a3 a1 a2 E31 E12) in H23.
    eapply leb_trans; eassumption.
  - intros [a1 b1] [a2 b2]; simpl.
    destruct (leb a1 a2) eqn:E1; [|discriminate].
    destruct (leb a2 a1) eqn:E2; [|intros; discriminate].
    intros H1' H2'. f_equal; apply leb_antisym; assumption.
Qed.

Section KeyFacts.

Context {K : Type} `{OrdLaws K}.

Lemma eqb_sym (a b : K) : eqb a b = eqb b a.
Proof. unfold eqb. apply andb_comm. Qed.

Lemma eqb_eq (a b : K) : eqb a b = true <-> a = b.
Proof.
  unfold eqb. split.
  - intros E. apply andb_true_iff in E. destruct E. now apply leb_antisym.
  - intros ->. destruct (leb_total b b) as [E | E]; now rewrite E.
Qed.

Lemma eqb_refl (a : K) : eqb a a = true.
Proof. now apply eqb_eq. Qed.

Lemma eqb_neq (a b : K) : eqb a b = false <-> a <> b.
Proof.
  rewrite <- eqb_eq. destruct (eqb a b); split; congruence.
Qed.

Lemma unique_In (k : K) (l : list K) : In k (unique l) <-> In k l.
Proof.
  induction l as [|x l IH]; simpl; [tauto|].
  rewrite filter_In, IH, negb_true_iff, eqb_neq. split.
  - intros [-> | [Hin _]]; auto.
  - intros [-> | Hin]; auto.
    destruct (eqb k x) eqn:E.
    + apply eqb_eq in E. auto.
    + apply eqb_neq in E. auto.
Qed.

Lemma unique_NoDup (l : list K) : NoDup (unique l).
Proof.
  induction l as [|x l IH]; simpl; constructor.
  - rewrite filter_In, negb_true_iff, eqb_neq. intros [_ Hne]. now apply Hne.
  - now apply NoDup_filter.
Qed.

End KeyFacts.

Section SortFacts.

Context {A : Type} (le : A -> A -> bool).

Lemma insert_by_perm (x : A) (l : list A) : Permutation (insert_by le x l) (x :: l).
Proof.
  induction l as [|y l IH]; simpl; [reflexivity|].
  destruct (le x y); [reflexivity|].
  rewrite IH. apply perm_swap.
Qed.

Lemma sort_by_perm (l : list A) : Permutation (sort_by le l) l.
Proof.
  induction l as [|x l IH]; simpl; [reflexivity|].
  rewrite insert_by_perm. now constructor.
Qed.

Lemma sort_by_In (x : A) (l : list A) : In x (sort_by le l) <-> In x l.
Proof.
  split; apply Permutation_in; [|symmetry]; apply sort_by_perm.
Qed.

Lemma sort_by_length (l : list A) : length (sort_by le l) = length l.
Proof. apply Permutation_length, sort_by_perm. Qed.

Hypothesis le_total : forall a b, le a b = true \/ le b a = true.
Hypothesis le_trans : forall a b c, le a b = true -> le b c = true -> le a c = true.

Lemma insert_by_sorted (x : A) (l : list A) :
  StronglySorted (fun a b => le a b = true) l ->
  StronglySorted (fun a b => le a b = true) (insert_by le x l).
Proof.
  induction 1 as [|y l Hs IH Hy]; simpl.
  - repeat constructor.
  - destruct (le x y) eqn:E.
    + constructor; [now constructor|].
      constructor; [assumption|].
      eapply Forall_impl; [|exact Hy]. intros z Hz. now apply (le_trans x y z).
    + constructor; [assumption|].
      apply (Permutation_Forall (Permutation_sym (insert_by_perm x l))).
      constructor; [|assumption].
      destruct (le_total x y); congruence.
Qed.

Lemma sort_by_sorted (l : list A) :
  StronglySorted (fun a b => le a b = true) (sort_by le l).
Proof.
  induction l as [|x l IH]; simpl; [constructor|].
  now apply insert_by_sorted.
Qed.

End SortFacts.

Lemma StronglySorted_filter {A : Type} (R : A -> A -> Prop) (p : A -> bool) (l : list A) :
  StronglySorted R l -> StronglySorted R (filter p l).
Proof.
  induction 1 as [|x l Hs IH Hx]; simpl; [constructor|].
  destruct (p x); [|assumption].
  constructor; [assumption|].
  apply Forall_forall. intros y Hy. apply filter_In in Hy.
  rewrite Forall_forall in Hx. now apply Hx.
Qed.

Section GroupFacts.

Context {R K : Type} `{OrdLaws K} (key : R -> K).

Lemma group_keys_In (df : list R) (k : K) :
  In k (group_keys key df) <-> In k (map key df).
Proof.
  unfold group_keys. now rewrite sort_by_In, unique_In.
Qed.

Lemma group_keys_NoDup (df : list R) : NoDup (group_keys key df).
Proof.
  unfold group_keys.
  eapply Permutation_NoDup; [symmetry; apply sort_by_perm|].
  apply unique_NoDup.
Qed.

Lemma group_In (k : K) (df : list R) (r : R) :
  In r (group key k df) <-> In r df /\ key r = k.
Proof.
  unfold group. now rewrite filter_In, eqb_eq.
Qed.

Lemma group_nil (k : K) (df : list R) :
  ~ In k (map key df) -> group key k df = [].
Proof.
  intros Hn. unfold group.
  induction df as [|r df IH]; simpl; [reflexivity|].
  simpl in Hn.
  destruct (eqb (key r) k) eqn:E.
  - apply eqb_eq in E. tauto.
  - apply IH. tauto.
Qed.

Lemma group_not_nil (k : K) (df : list R) :
  In k (map key df) -> group key k df <> [].
Proof.
  intros Hin. apply in_map_iff in Hin. destruct Hin as (r & Hk & Hr).
  intros E. assert (Hg : In r (group key k df)) by now apply group_In.
  rewrite E in Hg. destruct Hg.
Qed.

Lemma groupby_In (df : list R) (k : K) (g : list R) :
  In (k, g) (groupby key df) <-> In k (map key df) /\ g = group key k df.
Proof.
  unfold groupby. rewrite in_map_iff. split.
  - intros (k' & E & Hin). inversion E; subst.
    split; [now apply group_keys_In | reflexivity].
  - intros [Hin ->]. exists k. split; [reflexivity | now apply group_keys_In].
Qed.

(** Looking a key up in an aggregate of [groupby]: the one row of the
    key's group, or nothing. *)
Lemma filter_keyed {V : Type} (f : K -> V) (keys : list K) (k : K) :
  NoDup keys ->
  filter (fun r => eqb (fst r) k) (map (fun k' => (k', f k')) keys)
  = if existsb (eqb k) keys then [(k, f k)] else [].
Proof.
  induction 1 as [|x keys Hx Hnd IH]; simpl; [reflexivity|].
  rewrite IH. rewrite (eqb_sym x k).
  destruct (eqb k x) eqn:E; simpl.
  - apply eqb_eq in E. subst x.
    destruct (existsb (eqb k) keys) eqn:Ex; [|reflexivity].
    apply existsb_exists in Ex. destruct Ex as (y & Hy & Ey).
    apply eqb_eq in Ey. subst y. contradiction.
  - reflexivity.
Qed.

Lemma existsb_keys (df : list R) (k : K) :
  existsb (eqb k) (group_keys key df) = false -> group key k df = [].
Proof.
  intros E. apply group_nil. intros Hin.
  apply group_keys_In in Hin.
  assert (Ht : existsb (eqb k) (group_keys key df) = true).
  { apply existsb_exists. exists k. split; [assumption | apply eqb_refl]. }
  congruence.
Qed.

End GroupFacts.

Section MergeFacts.

Context {L K V : Type} `{OrdLaws K} (kl : L -> K) (f : K -> V).

Lemma merge_inner_keyed (left : list L) (keys : list K) :
  NoDup keys ->
  (forall l, In l left -> In (kl l) keys) ->
  merge_inner kl fst left (map (fun k => (k, f k)) keys)
  = map (fun l => (l, (kl l, f (kl l)))) left.
Proof.
  intros Hnd Hin. unfold merge_inner.
  induction left as [|l left IH]; [reflexivity|].
  cbn [flat_map map]. rewrite IH by (intros; apply Hin; now right).
  rewrite (filter_keyed f keys (kl l) Hnd).
  assert (E : existsb (eqb (kl l)) keys = true).
  { apply existsb_exists. exists (kl l). split; [apply Hin; now left | apply eqb_refl]. }
  now rewrite E.
Qed.

Lemma merge_left_keyed (left : list L) (keys : list K) :
  NoDup keys ->
  merge_left kl fst left (map (fun k => (k, f k)) keys)
  = map (fun l => (l, if existsb (eqb (kl l)) keys
                      then Some (kl l, f (kl l)) else None)) left.
Proof.
  intros Hnd. unfold merge_left.
  induction left as [|l left IH]; [reflexivity|].
  cbn [flat_map]. rewrite map_cons, IH, (filter_keyed f keys (kl l) Hnd).
  now destruct (existsb (eqb (kl l)) keys).
Qed.

End MergeFacts.

(** An aggregate of [groupby] is a table keyed by the group keys. *)
Lemma groupby_agg_keyed {R K V : Type} `{OrdLaws K} (key : R -> K)
    (f : list R -> V) (df : list R) :
  map (fun g => (fst g, f (snd g))) (groupby key df)
  = map (fun k => (k, f (group key k df))) (group_keys key df).
Proof.
  unfold groupby. now rewrite map_map.
Qed.

(* ================================================================== *)
(** * Properties of the capacity filter and of the sale derivation *)
(* ================================================================== *)

Lemma fold_max_ge (l : list Z) (x : Z) : x <= fold_left Z.max l x.
Proof.
  revert x. induction l as [|y l IH]; intros x; simpl; [lia|].
  specialize (IH (Z.max x y)). lia.
Qed.

Lemma fold_max_upper (l : list Z) (x : Z) : Forall (fun y => y <= fold_left Z.max l x) l.
Proof.
  revert x. induction l as [|y l IH]; intros x; simpl; constructor.
  - pose proof (fold_max_ge l (Z.max x y)). lia.
  - apply IH.
Qed.

Lemma fold_max_In (l : list Z) (x : Z) : In (fold_left Z.max l x) (x :: l).
Proof.
  revert x. induction l as [|y l IH]; intros x; simpl; [now left|].
  destruct (IH (Z.max x y)) as [E | Hin].
  - rewrite <- E. destruct (Z.max_spec x y) as [[_ ->] | [_ ->]]; auto.
  - right. now right.
Qed.

Lemma maximum_upper (l : list Z) : Forall (fun y => y <= maximum l) l.
Proof.
  destruct l as [|x l]; simpl; constructor.
  - apply fold_max_ge.
  - apply fold_max_upper.
Qed.

Lemma maximum_In (l : list Z) : l <> [] -> In (maximum l) l.
Proof.
  destruct l as [|x l]; [congruence|]. intros _. apply fold_max_In.
Qed.

(** The capacity of a listing is the stock of one of its snapshots, and no
    snapshot of the listing has more. *)
Lemma listing_max_stock_spec (df : list Row) (r : Row) :
  In r df ->
  (exists r', In r' df /\ listing_of r' = listing_of r
              /\ stock r' = listing_max_stock df (listing_of r))
  /\ (forall r', In r' df -> listing_of r' = listing_of r ->
                 stock r' <= listing_max_stock df (listing_of r)).
Proof.
  intros Hin. unfold listing_max_stock. split.
  - assert (Hne : map stock (group listing_of (listing_of r) df) <> []).
    { intros E. apply map_eq_nil in E. revert E. apply group_not_nil.
      now apply in_map. }
    apply maximum_In in Hne. apply in_map_iff in Hne.
    destruct Hne as (r' & E & Hr'). apply group_In in Hr'.
    exists r'. tauto.
  - intros r' Hr' El.
    pose proof (maximum_upper (map stock (group listing_of (listing_of r) df))) as Hu.
    rewrite Forall_forall in Hu. apply Hu. apply in_map. now apply group_In.
Qed.

Lemma with_max_stock_eq (df : list Row) :
  with_max_stock df = map (fun r => (r, listing_max_stock df (listing_of r))) df.
Proof.
  unfold with_max_stock, max_stock_df.
  rewrite (groupby_agg_keyed listing_of (fun g => maximum (map stock g)) df).
  rewrite (merge_inner_keyed listing_of
             (fun k => maximum (map stock (group listing_of k df)))).
  - now rewrite map_map.
  - apply group_keys_NoDup.
  - intros l Hl. apply group_keys_In. now apply in_map.
Qed.

Lemma shift_from_length {R K V : Type} `{Ord K} (key : R -> K) (val : R -> V)
    (prev : K -> option V) (df : list R) :
  length (shift_from key val prev df) = length df.
Proof.
  revert prev. induction df as [|r df IH]; intros prev; simpl; auto.
Qed.

Lemma with_sales_rows (df : list (Row * Z)) :
  map (fun s => (snapshot s, max_stock s)) (with_sales df) = df.
Proof.
  unfold with_sales, stock_shift, groupby_shift.
  generalize (fun _ : stay => @None Z) as prev.
  induction df as [|x df IH]; intros prev; simpl; [reflexivity|].
  rewrite IH. now destruct x.
Qed.

(** The rows of [sales]: the snapshots of the listings of capacity 30 or
    more, each with the capacity of its listing. *)
Lemma sales_rows (df : list Row) (r : Row) (m : Z) :
  (exists s, In s (sales df) /\ snapshot s = r /\ max_stock s = m)
  <-> In r df /\ m = listing_max_stock df (listing_of r) /\ 30 <= m.
Proof.
  unfold sales.
  set (T := sorted (capacity_filter (with_max_stock df))).
  assert (HT : forall x, In x T <->
             In (fst x) df /\ snd x = listing_max_stock df (listing_of (fst x))
             /\ 30 <= snd x).
  { intros x. unfold T, sorted, sort_values. rewrite sort_by_In.
    unfold capacity_filter. rewrite filter_In, with_max_stock_eq, in_map_iff.
    rewrite Z.leb_le. split.
    - intros [(r' & E & Hr') Hm]. subst x. simpl in *. auto.
    - intros (Hr' & E & Hm). split; [|assumption].
      exists (fst x). split; [|assumption]. destruct x; simpl in *. now subst. }
  split.
  - intros (s & Hs & <- & <-).
    apply (in_map (fun s => (snapshot s, max_stock s))) in Hs.
    rewrite with_sales_rows in Hs. now apply HT in Hs.
  - intros (Hr & E & Hm).
    assert (Hx : In (r, m) T) by (apply HT; simpl; auto).
    rewrite <- (with_sales_rows T) in Hx. apply in_map_iff in Hx.
    destruct Hx as (s & Es & Hs). inversion Es. exists s. auto.
Qed.

Lemma StronglySorted_map_inv {A B : Type} (f : A -> B) (R : B -> B -> Prop) (l : list A) :
  StronglySorted R (map f l) -> StronglySorted (fun a b => R (f a) (f b)) l.
Proof.
  induction l as [|x l IH]; simpl; intros Hs; [constructor|].
  inversion Hs as [|? ? Hs' Hx]; subst. constructor; [now apply IH|].
  rewrite Forall_map in Hx. exact Hx.
Qed.

Lemma StronglySorted_weaken {A : Type} (R R' : A -> A -> Prop) (P : A -> Prop)
    (l : list A) :
  (forall a b, P a -> P b -> R a b -> R' a b) ->
  Forall P l -> StronglySorted R l -> StronglySorted R' l.
Proof.
  intros Hw HP Hs. induction Hs as [|x l Hs IH Hx]; [constructor|].
  inversion HP as [|? ? Px Pl]; subst. constructor; [now apply IH|].
  rewrite Forall_forall in *. intros y Hy. apply Hw; auto.
Qed.

Lemma sale_of_stay (x : Row * Z) (shift : option Z) :
  sale_stay (sale_of x shift) = stay_of (fst x).
Proof. reflexivity. Qed.

(** The sold column inside one stay date, whatever the rows in between:
    the drop of the stock from the previous snapshot of that stay date. *)
Lemma group_sold_from (g : stay) (df : list (Row * Z)) (prev : stay -> option Z) :
  map sold
      (filter (fun s => eqb (sale_stay s) g)
         (map (fun p => sale_of (fst p) (snd p))
            (combine df (shift_from (fun x => stay_of (fst x))
                           (fun x => stock (fst x)) prev df))))
  = let stocks := map (fun x => stock (fst x))
                      (filter (fun x => eqb (stay_of (fst x)) g) df) in
    match prev g with
    | None => sold_sequence stocks
    | Some p => sold_after p stocks
    end.
Proof.
  revert prev. induction df as [|x df IH]; intros prev.
  - simpl. now destruct (prev g).
  - cbn [shift_from combine map filter fst snd].
    rewrite sale_of_stay.
    destruct (eqb (stay_of (fst x)) g) eqn:E.
    + cbn [map]. rewrite IH. cbn zeta. rewrite (eqb_sym g), E.
      apply eqb_eq in E. rewrite E.
      unfold sale_of, sold_of; cbn [sold fst].
      destruct (prev g) as [p|]; cbn; try rewrite Z.max_comm; reflexivity.
    + rewrite IH. cbn zeta. now rewrite (eqb_sym g), E.
Qed.

Lemma events_rows (g : stay) (df : list (Row * Z)) :
  map (fun s => (snapshot s, max_stock s)) (events_of g (with_sales df))
  = filter (fun x => eqb (stay_of (fst x)) g) df.
Proof.
  unfold events_of.
  rewrite <- (with_sales_rows df) at 2.
  now rewrite filter_map_swap.
Qed.

Lemma events_sold (g : stay) (df : list Row) :
  map sold (events_of g (sales df))
  = sold_sequence (map (fun s => stock (snapshot s)) (events_of g (sales df))).
Proof.
  unfold sales.
  set (T := sorted (capacity_filter (with_max_stock df))).
  assert (E : map (fun s => stock (snapshot s)) (events_of g (with_sales T))
              = map (fun x => stock (fst x))
                    (filter (fun x => eqb (stay_of (fst x)) g) T)).
  { rewrite <- events_rows, map_map. reflexivity. }
  rewrite E. unfold events_of, with_sales, stock_shift, groupby_shift.
  now rewrite group_sold_from.
Qed.

Lemma events_sorted (g : stay) (df : list Row) :
  StronglySorted (fun a b => created_at (snapshot a) <= created_at (snapshot b))
                 (events_of g (sales df)).
Proof.
  unfold sales.
  set (T := sorted (capacity_filter (with_max_stock df))).
  pose (key := fun x : Row * Z => (stay_of (fst x), created_at (fst x))).
  assert (HT : StronglySorted (fun a b => leb (key a) (key b) = true) T).
  { unfold T, sorted, sort_values. apply sort_by_sorted.
    - intros a b. apply leb_total.
    - intros a b c. apply leb_trans. }
  apply (StronglySorted_filter _ (fun x => eqb (stay_of (fst x)) g)) in HT.
  rewrite <- events_rows in HT. apply StronglySorted_map_inv in HT.
  eapply (StronglySorted_weaken _ _ (fun s => sale_stay s = g)); [| |exact HT].
  - intros a b Ea Eb. unfold key; cbn [fst].
    unfold sale_stay in Ea, Eb. rewrite Ea, Eb.
    unfold leb at 1, Ord_prod; cbn [fst snd].
    match goal with |- context [if ?c then _ else _] => destruct c end;
      [|discriminate].
    intros Hc. now apply Z.leb_le.
  - apply Forall_forall. intros s Hs. unfold events_of in Hs.
    apply filter_In in Hs. now apply eqb_eq.
Qed.

Lemma sales_revenue (df : list Row) :
  Forall (fun s => revenue s = (inject_Z (sold s) * price (snapshot s))%Q) (sales df).
Proof.
  unfold sales, with_sales. apply Forall_forall. intros s Hs.
  apply in_map_iff in Hs. destruct Hs as (p & <- & _). reflexivity.
Qed.

Lemma sold_after_nonneg (p : Z) (stocks : list Z) :
  Forall (fun n => 0 <= n) (sold_after p stocks).
Proof.
  revert p. induction stocks as [|s t IH]; intros p; simpl; constructor; auto; lia.
Qed.

Lemma sales_sold_nonneg (df : list Row) : Forall (fun s => 0 <= sold s) (sales df).
Proof.
  unfold sales, with_sales. apply Forall_forall. intros s Hs.
  apply in_map_iff in Hs. destruct Hs as (p & <- & _).
  unfold sale_of, sold_of; cbn [sold].
  destruct (snd p); cbn; lia.
Qed.

(* ================================================================== *)
(** * Properties of the KPI aggregation *)
(* ================================================================== *)

Lemma daily_kpi_In (df : list Sale) (k : Kpi) :
  In k (KpiAggregator.daily_kpi df)
  <-> In (kpi_stay k) (map sale_stay df)
      /\ k = agg (kpi_stay k, events_of (kpi_stay k) df)
      /\ 0 < total_sold k.
Proof.
  unfold KpiAggregator.daily_kpi.
  rewrite filter_In, in_map_iff, Z.ltb_lt. split.
  - intros [([g rows] & E & Hg) Hs]. apply groupby_In in Hg.
    destruct Hg as [Hg ->]. subst k. cbn. auto.
  - intros (Hg & E & Hs). split; [|assumption].
    exists (kpi_stay k, events_of (kpi_stay k) df). split; [now symmetry|].
    apply groupby_In. auto.
Qed.

Lemma daily_kpi_totals (df : list Sale) (k : Kpi) :
  In k (KpiAggregator.daily_kpi df) ->
  total_sold k = sumZ (map sold (events_of (kpi_stay k) df))
  /\ total_revenue k = sumQ (map revenue (events_of (kpi_stay k) df))
  /\ 0 < total_sold k.
Proof.
  intros Hk. apply daily_kpi_In in Hk. destruct Hk as (_ & E & Hs).
  rewrite E at 1 3. cbn. auto.
Qed.

(** The capacity column of a KPI row is the capacity of its listing. *)
Lemma daily_kpi_max_stock (df : list Row) (k : Kpi) :
  In k (KpiAggregator.daily_kpi (sales df)) ->
  kpi_max_stock k = listing_max_stock df (kpi_listing k) /\ 30 <= kpi_max_stock k.
Proof.
  intros Hk. apply daily_kpi_In in Hk. destruct Hk as (Hg & E & _).
  pose proof (group_not_nil sale_stay (kpi_stay k) (sales df) Hg) as Hne.
  change (group sale_stay (kpi_stay k) (sales df))
    with (events_of (kpi_stay k) (sales df)) in Hne.
  destruct (events_of (kpi_stay k) (sales df)) as [|s rest] eqn:Ev; [congruence|].
  assert (Hs : In s (events_of (kpi_stay k) (sales df))) by (rewrite Ev; now left).
  unfold events_of in Hs. apply filter_In in Hs. destruct Hs as [Hs Es].
  apply eqb_eq in Es.
  assert (Hm : kpi_max_stock k = max_stock s) by (rewrite E; reflexivity).
  destruct (proj1 (sales_rows df (snapshot s) (max_stock s))) as (_ & Em & H30).
  { exists s. auto. }
  rewrite Hm. split; [|assumption].
  rewrite Em. unfold kpi_listing. rewrite <- Es. reflexivity.
Qed.

Lemma filter_comm {A : Type} (p q : A -> bool) (l : list A) :
  filter p (filter q l) = filter q (filter p l).
Proof.
  induction l as [|x l IH]; simpl; [reflexivity|].
  destruct (p x) eqn:Ep, (q x) eqn:Eq; simpl; rewrite ?Ep, ?Eq, IH; reflexivity.
Qed.

Lemma events_last_30 (g : stay) (df : list Sale) :
  events_of g (sold_last_30_df df)
  = filter (observed_from (snd g - Timedelta 30)) (events_of g df).
Proof.
  unfold events_of, sold_last_30_df. rewrite filter_comm.
  apply filter_ext_in. intros s Hs. apply filter_In in Hs.
  destruct Hs as [_ E]. apply eqb_eq in E.
  unfold observed_from. rewrite <- E. reflexivity.
Qed.

Lemma events_before_120 (g : stay) (df : list Sale) :
  events_of g (sold_before_120_df df)
  = filter (observed_before (snd g - Timedelta 120)) (events_of g df).
Proof.
  unfold events_of, sold_before_120_df. rewrite filter_comm.
  apply filter_ext_in. intros s Hs. apply filter_In in Hs.
  destruct Hs as [_ E]. apply eqb_eq in E.
  unfold observed_before. rewrite <- E. reflexivity.
Qed.

(** The left join with an aggregate of [groupby], followed by [fillna(0)]:
    every left row gets the sum over its own group, zero when the group
    has no row. *)
Lemma left_join_fill0_sum {L : Type} (key : L -> stay) (left : list L)
    (df : list Sale) :
  left_join_fill0 key left
    (map (fun g => (fst g, sumZ (map sold (snd g)))) (groupby sale_stay df))
  = map (fun l => (l, sumZ (map sold (events_of (key l) df)))) left.
Proof.
  unfold left_join_fill0.
  rewrite (groupby_agg_keyed sale_stay (fun g => sumZ (map sold g)) df).
  rewrite (merge_left_keyed key (fun k => sumZ (map sold (group sale_stay k df))))
    by apply group_keys_NoDup.
  rewrite map_map. apply map_ext. intros l. cbn [fst snd]. f_equal.
  destruct (existsb (eqb (key l)) (group_keys sale_stay df)) eqn:E.
  - reflexivity.
  - apply existsb_keys in E. unfold events_of.
    change (filter (fun s => eqb (sale_stay s) (key l)) df)
      with (group sale_stay (key l) df).
    now rewrite E.
Qed.

Lemma join_last_30 {L : Type} (key : L -> stay) (left : list L) (df : list Sale) :
  left_join_fill0 key left (sold_last_30_agg df)
  = map (fun l => (l, sold_late (key l) df)) left.
Proof.
  unfold sold_last_30_agg. rewrite left_join_fill0_sum.
  apply map_ext. intros l. unfold sold_late. now rewrite events_last_30.
Qed.

Lemma join_before_120 {L : Type} (key : L -> stay) (left : list L) (df : list Sale) :
  left_join_fill0 key left (sold_before_120_agg df)
  = map (fun l => (l, sold_early (key l) df)) left.
Proof.
  unfold sold_before_120_agg. rewrite left_join_fill0_sum.
  apply map_ext. intros l. unfold sold_early. now rewrite events_before_120.
Qed.

(** The frame [daily_kpi] of the first script, row by row. *)
Lemma optimal_daily_kpi_rows (df : list Sale) :
  OptimalBookingCurves.daily_kpi df
  = map (fun k => OptimalBookingCurves.kpi_row
                    (k, sold_early (kpi_stay k) df, sold_late (kpi_stay k) df))
        (KpiAggregator.daily_kpi df).
Proof.
  unfold OptimalBookingCurves.daily_kpi.
  rewrite join_before_120, join_last_30, !map_map. reflexivity.
Qed.

Lemma sumZ_nonneg (l : list Z) : Forall (fun n => 0 <= n) l -> 0 <= sumZ l.
Proof.
  induction 1; simpl; lia.
Qed.

Lemma sumZ_filter_le {A : Type} (f : A -> Z) (p : A -> bool) (l : list A) :
  Forall (fun a => 0 <= f a) l ->
  0 <= sumZ (map f (filter p l)) <= sumZ (map f l).
Proof.
  induction 1 as [|a l Ha Hl IH]; simpl; [lia|].
  destruct (p a); simpl; lia.
Qed.

Lemma events_sold_nonneg (g : stay) (df : list Row) :
  Forall (fun s => 0 <= sold s) (events_of g (sales df)).
Proof.
  unfold events_of. apply Forall_forall. intros s Hs. apply filter_In in Hs.
  pose proof (sales_sold_nonneg df) as Hn. rewrite Forall_forall in Hn.
  now apply Hn.
Qed.

(** [(a / b).fillna(0)] on a non-zero denominator is the quotient. *)
Lemma div_fillna0_nonzero (a : Q) (b : Z) :
  b <> 0 -> div_fillna0 a (inject_Z b) = Fin (a / inject_Z b)%Q.
Proof.
  intros Hb. unfold div_fillna0, fdiv.
  destruct (Qeq_bool (inject_Z b) 0) eqn:E; [|reflexivity].
  apply Qeq_bool_eq in E. unfold Qeq, inject_Z in E. simpl in E. lia.
Qed.

(* ================================================================== *)
(** * Properties of the tiering frame of the second script *)
(* ================================================================== *)

Lemma mapM_ok {A B : Type} (f : A -> result B) (g : A -> B) (l : list A) :
  (forall a, In a l -> f a = Ok (g a)) -> mapM f l = Ok (map g l).
Proof.
  induction l as [|a l IH]; intros Hf; simpl; [reflexivity|].
  rewrite (Hf a) by now left. simpl.
  rewrite IH by (intros; apply Hf; now right). reflexivity.
Qed.

Lemma mapM_map {A B C : Type} (f : B -> result C) (h : A -> B) (l : list A) :
  mapM f (map h l) = mapM (fun a => f (h a)) l.
Proof.
  induction l as [|a l IH]; simpl; [reflexivity|]. now rewrite IH.
Qed.

Lemma median_some (l : list Q) : l <> [] -> exists m, median l = Some m.
Proof.
  intros Hne. unfold median.
  destruct (length (sort_by Qle_bool l)) eqn:E.
  - rewrite sort_by_length in E. destruct l; [congruence | discriminate].
  - destruct (Nat.odd (S n)); eexists; reflexivity.
Qed.

Lemma adr_of_finite (k : Kpi) :
  total_sold k <> 0 -> PeerGroupChampions.adr_of k = Fin (PeerGroupChampions.adr_value k).
Proof.
  intros Hs. unfold PeerGroupChampions.adr_of. now apply div_fillna0_nonzero.
Qed.

(** The characteristic prices are always computed: no average daily rate
    is infinite, because the stay dates without sales were dropped. *)
Lemma characteristic_prices_total (kpis : list Kpi) :
  Forall (fun k => total_sold k <> 0) kpis ->
  PeerGroupChampions.plan_characteristic_price kpis
  = Ok (map (fun l => (l, PeerGroupChampions.median_adr kpis l))
            (group_keys kpi_listing kpis)).
Proof.
  intros Hs. rewrite Forall_forall in Hs.
  unfold PeerGroupChampions.plan_characteristic_price, groupby.
  rewrite mapM_map. apply mapM_ok. intros l Hl. cbn [fst snd].
  rewrite (mapM_ok _ PeerGroupChampions.adr_value).
  - cbn [bind]. unfold PeerGroupChampions.median_adr.
    destruct (median_some (map PeerGroupChampions.adr_value (group kpi_listing l kpis)))
      as [m Em].
    + intros E. apply map_eq_nil in E. revert E. apply group_not_nil.
      now apply group_keys_In.
    + now rewrite Em.
  - intros k Hk. apply group_In in Hk. rewrite adr_of_finite; [reflexivity|].
    apply Hs, Hk.
Qed.

Lemma with_characteristic_price_total (kpis : list Kpi) :
  Forall (fun k => total_sold k <> 0) kpis ->
  PeerGroupChampions.with_characteristic_price kpis
  = Ok (map (fun k => (k, PeerGroupChampions.median_adr kpis (kpi_listing k))) kpis).
Proof.
  intros Hs. unfold PeerGroupChampions.with_characteristic_price.
  rewrite characteristic_prices_total by assumption. cbn [bind].
  rewrite (merge_inner_keyed kpi_listing (PeerGroupChampions.median_adr kpis)).
  - now rewrite map_map.
  - apply group_keys_NoDup.
  - intros k Hk. apply group_keys_In. now apply in_map.
Qed.

Lemma daily_kpi_sold_nonzero (df : list Sale) :
  Forall (fun k => total_sold k <> 0) (KpiAggregator.daily_kpi df).
Proof.
  apply Forall_forall. intros k Hk. apply daily_kpi_In in Hk. lia.
Qed.

Lemma map_fst_combine {A B : Type} (l : list A) (l' : list B) :
  length l = length l' -> map fst (combine l l') = l.
Proof.
  revert l'. induction l as [|a l IH]; intros [|b l']; simpl; try discriminate; auto.
  intros E. f_equal. apply IH. now inversion E.
Qed.

Lemma map_snd_combine {A B : Type} (l : list A) (l' : list B) :
  length l = length l' -> map snd (combine l l') = l'.
Proof.
  revert l'. induction l as [|a l IH]; intros [|b l']; simpl; try discriminate; auto.
  intros E. f_equal. apply IH. now inversion E.
Qed.

Lemma qcut_raises {L : Type} (x : list Q) (q : nat) (labels : list L) (e : exn) :
  qcut x q labels = Raised e -> e = ValueError.
Proof.
  unfold qcut.
  match goal with |- context [if negb ?c then _ else _] => destruct c end;
    cbn; congruence.
Qed.

Lemma qcut_length {L : Type} (x : list Q) (q : nat) (labels : list L)
    (column : list (option L)) :
  qcut x q labels = Ok column -> length column = length x.
Proof.
  unfold qcut.
  match goal with |- context [if negb ?c then _ else _] => destruct c end;
    cbn; [|discriminate].
  intros E. inversion E. apply length_map.
Qed.

(** Lines 58-63 always yield a tier column, one tier for every row. *)
Lemma assign_price_tier_total (num_tiers : nat) (prices : list Q) :
  exists dt column w,
    PeerGroupChampions.assign_price_tier num_tiers prices = Ok (dt, column, w)
    /\ length column = length prices.
Proof.
  unfold PeerGroupChampions.assign_price_tier.
  destruct (qcut prices num_tiers (PeerGroupChampions.tier_labels num_tiers))
    as [column | e] eqn:E.
  - do 3 eexists. split; [reflexivity|].
    rewrite length_map. eapply qcut_length; eassumption.
  - apply qcut_raises in E. subst e.
    do 3 eexists. split; [reflexivity|]. apply length_map.
Qed.

(** The frame [daily_kpi] of the second script is always built; it has
    one row for every stay date with sales, in their order. *)
Lemma peer_daily_kpi_rows (num_tiers : nat) (df : list Sale) :
  exists frame,
    PeerGroupChampions.daily_kpi num_tiers df = Ok frame
    /\ map PeerGroupChampions.kpi (PeerGroupChampions.rows frame)
       = KpiAggregator.daily_kpi df
    /\ Forall (fun r =>
                 r = PeerGroupChampions.kpi_row
                       (PeerGroupChampions.kpi r,
                        PeerGroupChampions.median_adr (KpiAggregator.daily_kpi df)
                          (kpi_listing (PeerGroupChampions.kpi r)),
                        PeerGroupChampions.price_tier r,
                        sold_late (kpi_stay (PeerGroupChampions.kpi r)) df))
              (PeerGroupChampions.rows frame)
    /\ PeerGroupChampions.assign_price_tier num_tiers
         (map PeerGroupChampions.characteristic_price (PeerGroupChampions.rows frame))
       = Ok (PeerGroupChampions.dtype frame,
             map PeerGroupChampions.price_tier (PeerGroupChampions.rows frame),
             PeerGroupChampions.warned frame).
Proof.
  unfold PeerGroupChampions.daily_kpi.
  set (kpis := KpiAggregator.daily_kpi df).
  rewrite with_characteristic_price_total by apply daily_kpi_sold_nonzero.
  cbn [bind]. fold kpis.
  set (priced := map (fun k => (k, PeerGroupChampions.median_adr kpis (kpi_listing k))) kpis).
  destruct (assign_price_tier_total num_tiers (map snd priced))
    as (dt & column & w & E & Hlen).
  rewrite E. cbn [bind fst snd].
  rewrite join_last_30, map_map.
  eexists. split; [reflexivity|]. cbn [PeerGroupChampions.rows
    PeerGroupChampions.dtype PeerGroupChampions.warned].
  rewrite length_map in Hlen.
  assert (Hk : map (fun x : Kpi * Q * option PeerGroupChampions.tier => fst (fst x))
                   (combine priced column) = kpis).
  { rewrite <- (map_map fst fst), map_fst_combine by (now rewrite Hlen).
    unfold priced. rewrite map_map. cbn. apply map_id. }
  assert (Hp : map (fun x : Kpi * Q * option PeerGroupChampions.tier => snd (fst x))
                   (combine priced column) = map snd priced).
  { rewrite <- (map_map fst snd), map_fst_combine by (now rewrite Hlen). reflexivity. }
  assert (Ht : map (fun x : Kpi * Q * option PeerGroupChampions.tier => snd x)
                   (combine priced column) = column).
  { apply map_snd_combine. now rewrite Hlen. }
  split; [|split].
  - rewrite map_map. cbn. exact Hk.
  - apply Forall_forall. intros r Hr. apply in_map_iff in Hr.
    destruct Hr as ([[k p] t] & <- & Hx). cbn.
    apply in_combine_l in Hx. unfold priced in Hx. apply in_map_iff in Hx.
    destruct Hx as (k' & Ek & _). inversion Ek; subst. reflexivity.
  - rewrite !map_map. cbn. rewrite Hp, Ht. exact E.
Qed.

(* ================================================================== *)
(** * The quotients *)
(* ================================================================== *)

Lemma ratio_bounds (a b : Z) :
  0 <= a <= b -> 0 < b -> (0 <= inject_Z a / inject_Z b <= 1)%Q.
Proof.
  intros [Ha Hab] Hb.
  assert (Hq : (0 < inject_Z b)%Q) by (unfold Qlt, inject_Z; simpl; lia).
  split.
  - apply Qle_shift_div_l; [assumption|]. rewrite Qmult_0_l.
    unfold Qle, inject_Z; simpl; lia.
  - apply Qle_shift_div_r; [assumption|]. rewrite Qmult_1_l.
    unfold Qle, inject_Z; simpl; lia.
Qed.

Lemma ratio_one (b : Z) : 0 < b -> (inject_Z b / inject_Z b == 1)%Q.
Proof.
  intros Hb. apply Qmult_inv_r.
  intros E. unfold Qeq, inject_Z in E. simpl in E. lia.
Qed.

Lemma fdiv_nan (a b : Q) : fdiv a b = None <-> (a == 0)%Q /\ (b == 0)%Q.
Proof.
  unfold fdiv. destruct (Qeq_bool b 0) eqn:Eb.
  - apply Qeq_bool_eq in Eb.
    destruct (a ?= 0)%Q eqn:Ea.
    + apply Qeq_alt in Ea. tauto.
    + split; [discriminate|]. intros [E _]. apply Qeq_alt in E. congruence.
    + split; [discriminate|]. intros [E _]. apply Qeq_alt in E. congruence.
  - apply Qeq_bool_neq in Eb. split; [discriminate | tauto].
Qed.

Lemma fdiv_nonzero (a : Q) (b : Z) :
  b <> 0 -> fdiv a (inject_Z b) = Some (Fin (a / inject_Z b)%Q).
Proof.
  intros Hb. unfold fdiv.
  destruct (Qeq_bool (inject_Z b) 0) eqn:E; [|reflexivity].
  apply Qeq_bool_eq in E. unfold Qeq, inject_Z in E. simpl in E. lia.
Qed.

Lemma sumZ_filter_all {A : Type} (f : A -> Z) (p : A -> bool) (l : list A) :
  (forall a, In a l -> f a <> 0 -> p a = true) ->
  sumZ (map f (filter p l)) = sumZ (map f l).
Proof.
  induction l as [|a l IH]; intros Hp; simpl; [reflexivity|].
  assert (IH' : sumZ (map f (filter p l)) = sumZ (map f l))
    by (apply IH; intros; apply Hp; [now right | assumption]).
  destruct (p a) eqn:E; simpl; [lia|].
  destruct (Z.eq_dec (f a) 0) as [E0 | E0]; [lia|].
  rewrite (Hp a) in E; [discriminate | now left | assumption].
Qed.

(** The late-booking join of either script satisfies its specification. *)
Lemma late_booking_holds (df : list Sale) (k : Kpi) :
  In k (KpiAggregator.daily_kpi df) ->
  late_booking_spec df k (sold_late (kpi_stay k) df)
    (div_fillna0 (inject_Z (sold_late (kpi_stay k) df)) (inject_Z (total_sold k))).
Proof.
  intros Hk. destruct (daily_kpi_totals df k Hk) as (Et & _ & Hpos).
  unfold late_booking_spec. cbn zeta.
  repeat split; try assumption.
  - apply div_fillna0_nonzero. lia.
  - unfold sold_late, kpi_date. intros ->. reflexivity.
  - unfold sold_late, kpi_date. rewrite Et. now apply sumZ_filter_all.
  - assert (E : sold_late (kpi_stay k) df = total_sold k).
    { unfold sold_late. rewrite Et. now apply sumZ_filter_all. }
    rewrite E, div_fillna0_nonzero by lia.
    eexists. split; [reflexivity|].
    pose proof (ratio_one (total_sold k) Hpos) as H1.
    split; [assumption|].
    cbn. apply Qle_bool_iff. rewrite H1. discriminate.
Qed.

(** The scenario of C3 run through the first script: the 20 units of a
    stay date are all sold in its last 30 days; the ratio is 20/20 and the
    stay date is selected at the threshold one half. *)
Example late_booking_scenario :
  let at_day d := Stamp (d * 86400000000000) in
  let snap c s := mkRawRow (Some 1) (Some 1) (Some 1) (at_day 100) (at_day c)
                    (Some s) (Some 12000%Q) in
  let csv := [snap 75 30; snap 80 20; snap 95 10] in
  exists best,
    OptimalBookingCurves.analyze_and_plot_optimal_booking_curves
      argsort_stable csv (1 # 2) = Ok [best]
    /\ total_sold (OptimalBookingCurves.kpi best) = 20
    /\ OptimalBookingCurves.sold_last_30 best = 20
    /\ OptimalBookingCurves.last_30_days_booking_ratio best = Fin (20 # 20).
Proof.
  cbn zeta. eexists. split; [vm_compute; reflexivity|]. repeat split.
Qed.

(** The scenario of C2 run through the first stages: five snapshots of
    one stay date, given out of order. *)
Example sale_derivation_scenario :
  let snap c s := mkRow 1 1 1 100 c s 12000 in
  let df := [snap 5 10; snap 1 30; snap 3 20; snap 2 30; snap 4 20] in
  map (fun s => (created_at (snapshot s), stock (snapshot s), sold s)) (sales df)
  = [(1, 30, 0); (2, 30, 0); (3, 20, 10); (4, 20, 0); (5, 10, 10)]
  /\ map total_sold (KpiAggregator.daily_kpi (sales df)) = [20].
Proof. vm_compute. split; reflexivity. Qed.



Lemma defined_ratio_nonzero (a : Q) (b : Z) :
  b <> 0 -> defined_ratio a (inject_Z b) (div_fillna0 a (inject_Z b)).
Proof.
  intros Hb. split; [reflexivity|].
  now rewrite div_fillna0_nonzero, fdiv_nonzero.
Qed.

(** C9. Division-by-zero defaulting: a quotient is missing exactly when
    numerator and denominator are both zero, and every ratio column then
    holds zero, so that no ratio is ever missing; in both scripts the rows
    of [daily_kpi] have a capacity of 30 or more and at least one sale, so
    the quotients RevPAR, ADR, booking_rate_at_120_days and
    last_30_days_booking_ratio are numbers and the default is never used. *)
Theorem ratios_default_to_zero :
  (forall a b : Q, fdiv a b = None <-> (a == 0)%Q /\ (b == 0)%Q)
  /\ (forall a b : Q, fdiv a b = None -> div_fillna0 a b = Fin 0)
  /\ (forall df r, In r (OptimalBookingCurves.daily_kpi (sales df)) ->
        let k := OptimalBookingCurves.kpi r in
        30 <= kpi_max_stock k /\ 0 < total_sold k
        /\ defined_ratio (total_revenue k) (inject_Z (kpi_max_stock k))
             (OptimalBookingCurves.RevPAR r)
        /\ defined_ratio (inject_Z (OptimalBookingCurves.sold_before_120 r))
             (inject_Z (kpi_max_stock k))
             (OptimalBookingCurves.booking_rate_at_120_days r)
        /\ defined_ratio (inject_Z (OptimalBookingCurves.sold_last_30 r))
             (inject_Z (total_sold k))
             (OptimalBookingCurves.last_30_days_booking_ratio r))
  /\ (forall df num_tiers,
        exists frame,
          PeerGroupChampions.daily_kpi num_tiers (sales df) = Ok frame
          /\ forall r, In r (PeerGroupChampions.rows frame) ->
               let k := PeerGroupChampions.kpi r in
               30 <= kpi_max_stock k /\ 0 < total_sold k
               /\ defined_ratio (total_revenue k) (inject_Z (kpi_max_stock k))
                    (PeerGroupChampions.RevPAR r)
               /\ defined_ratio (total_revenue k) (inject_Z (total_sold k))
                    (PeerGroupChampions.ADR r)
               /\ defined_ratio (inject_Z (PeerGroupChampions.sold_last_30 r))
                    (inject_Z (total_sold k))
                    (PeerGroupChampions.last_30_days_booking_ratio r)).
Proof.
  split; [exact fdiv_nan|]. split.
  { intros a b E. unfold div_fillna0. now rewrite E. }
  split.
  - intros df r Hr. rewrite optimal_daily_kpi_rows in Hr.
    apply in_map_iff in Hr. destruct Hr as (k & <- & Hk). cbn.
    destruct (daily_kpi_max_stock df k Hk) as [_ H30].
    destruct (daily_kpi_totals _ k Hk) as (_ & _ & Hpos).
    repeat split; try assumption;
      try (apply div_fillna0_nonzero; lia);
      try (rewrite div_fillna0_nonzero, fdiv_nonzero by lia; reflexivity).
  - intros df num_tiers.
    destruct (peer_daily_kpi_rows num_tiers (sales df)) as (frame & E & Hk & Hr & _).
    exists frame. split; [assumption|]. intros r Hin.
    rewrite Forall_forall in Hr. rewrite (Hr r Hin). cbn.
    assert (Hin' : In (PeerGroupChampions.kpi r) (KpiAggregator.daily_kpi (sales df)))
      by (rewrite <- Hk; now apply in_map).
    destruct (daily_kpi_max_stock df _ Hin') as [_ H30].
    destruct (daily_kpi_totals _ _ Hin') as (_ & _ & Hpos).
    unfold PeerGroupChampions.revpar_of, PeerGroupChampions.adr_of.
    repeat split; try assumption;
      try (apply div_fillna0_nonzero; lia);
      try (rewrite div_fillna0_nonzero, fdiv_nonzero by lia; reflexivity).
Qed.

Lemma late_ratio_bounds (df : list Row) (k : Kpi) :
  In k (KpiAggregator.daily_kpi (sales df)) ->
  exists q, div_fillna0 (inject_Z (sold_late (kpi_stay k) (sales df)))
                        (inject_Z (total_sold k)) = Fin q
            /\ (0 <= q <= 1)%Q.
Proof.
  intros Hk. destruct (daily_kpi_totals _ k Hk) as (Et & _ & Hpos).
  rewrite div_fillna0_nonzero by lia. eexists. split; [reflexivity|].
  apply ratio_bounds; [|assumption].
  unfold sold_late. rewrite Et. apply sumZ_filter_le, events_sold_nonneg.
Qed.

(** C10. In both scripts, the last-30-days booking ratio of every row of
    [daily_kpi] lies between 0 and 1: the sold units are never negative,
    and those of the last 30 days are some of those summed in
    [total_sold], which is positive. *)
Theorem late_ratio_in_unit_interval (df : list Row) :
  (forall r, In r (OptimalBookingCurves.daily_kpi (sales df)) ->
     0 < total_sold (OptimalBookingCurves.kpi r)
     /\ exists q, OptimalBookingCurves.last_30_days_booking_ratio r = Fin q
                  /\ (0 <= q <= 1)%Q)
  /\ (forall num_tiers,
        exists frame,
          PeerGroupChampions.daily_kpi num_tiers (sales df) = Ok frame
          /\ forall r, In r (PeerGroupChampions.rows frame) ->
               0 < total_sold (PeerGroupChampions.kpi r)
               /\ exists q, PeerGroupChampions.last_30_days_booking_ratio r = Fin q
                            /\ (0 <= q <= 1)%Q).
Proof.
  split.
  - intros r Hr. rewrite optimal_daily_kpi_rows in Hr.
    apply in_map_iff in Hr. destruct Hr as (k & <- & Hk). cbn.
    split; [apply (daily_kpi_totals _ k Hk) | now apply late_ratio_bounds].
  - intros num_tiers.
    destruct (peer_daily_kpi_rows num_tiers (sales df)) as (frame & E & Hk & Hr & _).
    exists frame. split; [assumption|]. intros r Hin.
    rewrite Forall_forall in Hr. rewrite (Hr r Hin). cbn.
    assert (Hin' : In (PeerGroupChampions.kpi r) (KpiAggregator.daily_kpi (sales df)))
      by (rewrite <- Hk; now apply in_map).
    split; [apply (daily_kpi_totals _ _ Hin') | now apply late_ratio_bounds].
Qed.

(* ================================================================== *)
(** * Properties of the sort on one column *)
(* ================================================================== *)

Lemma all_pairs_sorted {A : Type} (R : A -> A -> bool) (l : list A) :
  all_pairs R l = true <-> StronglySorted (fun a b => R a b = true) l.
Proof.
  induction l as [|x l IH]; simpl.
  - split; [constructor | reflexivity].
  - rewrite andb_true_iff, forallb_forall, IH. split.
    + intros [Hx Hs]. constructor; [assumption | now apply Forall_forall].
    + intros Hs. inversion Hs; subst. split; [now apply Forall_forall | assumption].
Qed.

Lemma StronglySorted_app_iff {A : Type} (R : A -> A -> Prop) (l1 l2 : list A) :
  StronglySorted R (l1 ++ l2)
  <-> StronglySorted R l1 /\ StronglySorted R l2
      /\ (forall a b, In a l1 -> In b l2 -> R a b).
Proof.
  induction l1 as [|x l1 IH]; simpl.
  - split.
    + intros Hs. repeat split; [constructor | assumption | contradiction].
    + tauto.
  - split.
    + intros Hs. inversion Hs as [|? ? Hs' Hx]; subst.
      apply IH in Hs'. destruct Hs' as (H1 & H2 & H12).
      rewrite Forall_app in Hx. destruct Hx as [Hx1 Hx2].
      repeat split; [now constructor | assumption |].
      intros a b [-> | Ha] Hb; [|now apply H12].
      rewrite Forall_forall in Hx2. now apply Hx2.
    + intros (H1 & H2 & H12). inversion H1 as [|? ? Hs' Hx]; subst.
      constructor.
      * apply IH. repeat split; auto.
      * apply Forall_app. split; [assumption|].
        apply Forall_forall. intros b Hb. apply H12; auto.
Qed.

Lemma StronglySorted_rev {A : Type} (R : A -> A -> Prop) (l : list A) :
  StronglySorted R l -> StronglySorted (fun a b => R b a) (rev l).
Proof.
  induction 1 as [|x l Hs IH Hx]; simpl; [constructor|].
  apply StronglySorted_app_iff. repeat split; [assumption | repeat constructor |].
  intros a b Ha [<- | []]. rewrite Forall_forall in Hx. apply Hx.
  now apply in_rev.
Qed.

Lemma StronglySorted_map {A B : Type} (f : A -> B) (R : B -> B -> Prop) (l : list A) :
  StronglySorted (fun a b => R (f a) (f b)) l -> StronglySorted R (map f l).
Proof.
  induction 1 as [|x l Hs IH Hx]; simpl; constructor; [assumption|].
  now apply Forall_map.
Qed.

Lemma covers_perm (n : nat) (ix : list nat) :
  covers n ix = true -> Permutation (seq 0 n) ix.
Proof.
  unfold covers. rewrite andb_true_iff, Nat.eqb_eq, forallb_forall.
  intros [Hlen Hall]. apply NoDup_Permutation_bis.
  - apply seq_NoDup.
  - rewrite length_seq. lia.
  - intros i Hi. specialize (Hall i Hi). apply existsb_exists in Hall.
    destruct Hall as (j & Hj & E). apply Nat.eqb_eq in E. now subst.
Qed.

Lemma item_rev (items : list fnum) (j : nat) :
  (j < length items)%nat ->
  item (rev items) j = item items (length items - 1 - j).
Proof.
  intros Hj. unfold item. rewrite rev_nth by assumption. f_equal. lia.
Qed.

Lemma item_map {R : Type} (col : R -> fnum) (df : list R) (i : nat) (r : R) :
  nth_error df i = Some r -> item (map col df) i = col r.
Proof.
  intros E. unfold item.
  rewrite (nth_error_nth (map col df) i (Fin 0) (x := col r)); [reflexivity|].
  rewrite nth_error_map, E. reflexivity.
Qed.

Section Descending.

Variable argsort : list fnum -> list nat.
Variable items : list fnum.

Let n := length items.
Let indexer := nargsort_descending argsort items.

Lemma mirror_seq (m : nat) :
  Permutation (map (fun j => (m - 1 - j)%nat) (seq 0 m)) (seq 0 m).
Proof.
  apply NoDup_Permutation_bis.
  - apply Finite.Injective_map_NoDup_in; [|apply seq_NoDup].
    intros a b Ha Hb E. apply in_seq in Ha, Hb. lia.
  - rewrite length_map. lia.
  - intros i Hi. apply in_map_iff in Hi. destruct Hi as (j & <- & Hj).
    apply in_seq in Hj. apply in_seq. lia.
Qed.

Lemma nargsort_descending_perm :
  covers n (argsort (rev items)) = true -> Permutation (seq 0 n) indexer.
Proof.
  intros Hc. apply covers_perm in Hc.
  unfold indexer, nargsort_descending. fold n.
  rewrite <- Permutation_rev, <- Hc. symmetry. apply mirror_seq.
Qed.

Lemma nargsort_descending_sorted :
  is_argsort (rev items) (argsort (rev items)) = true ->
  StronglySorted (fun a b => fnum_leb (item items b) (item items a) = true) indexer.
Proof.
  unfold is_argsort. rewrite andb_true_iff, length_rev, all_pairs_sorted.
  fold n. intros [Hc Hs]. apply covers_perm in Hc.
  unfold indexer, nargsort_descending. fold n.
  apply (StronglySorted_rev
           (fun a b => fnum_leb (item items a) (item items b) = true)).
  apply StronglySorted_map.
  eapply (StronglySorted_weaken _ _ (fun j => (j < n)%nat)); [| |exact Hs].
  - intros a b Ha Hb. unfold n in *. now rewrite !item_rev by assumption.
  - apply Forall_forall. intros j Hj.
    apply (Permutation_in _ (Permutation_sym Hc)) in Hj. apply in_seq in Hj. lia.
Qed.

Lemma nargsort_descending_stable :
  is_stable_argsort (rev items) (argsort (rev items)) = true ->
  StronglySorted
    (fun a b => fnum_ltb (item items b) (item items a) = true
                \/ (fnum_eqb (item items b) (item items a) = true /\ (a < b)%nat))
    indexer.
Proof.
  unfold is_stable_argsort. rewrite andb_true_iff, length_rev, all_pairs_sorted.
  fold n. intros [Hc Hs]. apply covers_perm in Hc.
  unfold indexer, nargsort_descending. fold n.
  apply (StronglySorted_rev
           (fun a b => fnum_ltb (item items a) (item items b) = true
                       \/ (fnum_eqb (item items a) (item items b) = true
                           /\ (b < a)%nat))).
  apply StronglySorted_map.
  eapply (StronglySorted_weaken _ _ (fun j => (j < n)%nat)); [| |exact Hs].
  - intros a b Ha Hb. unfold n in *. rewrite !item_rev by assumption.
    rewrite orb_true_iff, andb_true_iff, Nat.ltb_lt.
    intros [Hlt | [Heq Hab]]; [now left | right]. split; [assumption | lia].
  - apply Forall_forall. intros j Hj.
    apply (Permutation_in _ (Permutation_sym Hc)) in Hj. apply in_seq in Hj. lia.
Qed.

End Descending.

Lemma fnum_leb_refl (x : fnum) : fnum_leb x x = true.
Proof.
  destruct x; cbn; try reflexivity. apply Qle_bool_iff, Qle_refl.
Qed.

Lemma take_In {R : Type} (df : list R) (ix : list nat) (r : R) :
  In r (take df ix) -> In r df.
Proof.
  induction ix as [|i ix IH]; simpl; [contradiction|].
  destruct (nth_error df i) as [x|] eqn:E; [|assumption].
  intros [<- | Hin]; [now apply nth_error_In in E | now apply IH].
Qed.

Lemma find_take {R : Type} (P : R -> bool) (df : list R) (ix : list nat) (best : R) :
  find P (take df ix) = Some best ->
  exists d1 i d2,
    ix = d1 ++ i :: d2 /\ nth_error df i = Some best /\ P best = true
    /\ forall j r, In j d1 -> nth_error df j = Some r -> P r = false.
Proof.
  induction ix as [|i ix IH]; simpl; [discriminate|].
  destruct (nth_error df i) as [x|] eqn:E.
  - simpl. destruct (P x) eqn:Px.
    + intros Eq. inversion Eq; subst x. exists [], i, ix.
      repeat split; auto. intros j r [].
    + intros Hf. destruct (IH Hf) as (d1 & i' & d2 & -> & Hn & Hp & Hd1).
      exists (i :: d1), i', d2. repeat split; auto.
      intros j r [<- | Hj] Hr; [congruence | eauto].
  - intros Hf. destruct (IH Hf) as (d1 & i' & d2 & -> & Hn & Hp & Hd1).
    exists (i :: d1), i', d2. repeat split; auto.
    intros j r [<- | Hj] Hr; [congruence | eauto].
Qed.

Lemma find_take_none {R : Type} (P : R -> bool) (df : list R) (ix : list nat) :
  find P (take df ix) = None ->
  forall j r, In j ix -> nth_error df j = Some r -> P r = false.
Proof.
  induction ix as [|i ix IH]; simpl; [contradiction|].
  destruct (nth_error df i) as [x|] eqn:E.
  - simpl. destruct (P x) eqn:Px; [discriminate|].
    intros Hf j r [<- | Hj] Hr; [congruence | eauto].
  - intros Hf j r [<- | Hj] Hr; [congruence | eauto].
Qed.

Section Selection.

Context {R : Type} (col : R -> fnum) (P : R -> bool) (df : list R).
Variable ix : list nat.
Hypothesis ix_perm : Permutation (seq 0 (length df)) ix.

Lemma position_in_indexer (j : nat) (r : R) : nth_error df j = Some r -> In j ix.
Proof.
  intros E. apply (Permutation_in _ ix_perm). apply in_seq.
  assert (nth_error df j <> None) by congruence.
  apply nth_error_Some in H. lia.
Qed.

Lemma selection_exists (r : R) :
  In r df -> P r = true -> exists best, find P (take df ix) = Some best.
Proof.
  intros Hr Pr. destruct (find P (take df ix)) as [b|] eqn:E; [eauto|].
  apply In_nth_error in Hr. destruct Hr as [j Hj].
  pose proof (find_take_none P df ix E j r (position_in_indexer j r Hj) Hj).
  congruence.
Qed.

Lemma selection_best (best : R) :
  StronglySorted (fun a b => fnum_leb (item (map col df) b) (item (map col df) a) = true) ix ->
  find P (take df ix) = Some best ->
  best_of col P df best.
Proof.
  intros Hs Hf. destruct (find_take P df ix best Hf) as (d1 & i & d2 & E & Hi & Pb & Hd1).
  split; [now apply nth_error_In in Hi|]. split; [assumption|].
  intros r Hr Pr. apply In_nth_error in Hr. destruct Hr as [j Hj].
  pose proof (position_in_indexer j r Hj) as Hin. rewrite E in Hin, Hs.
  apply StronglySorted_app_iff in Hs. destruct Hs as (_ & Hs2 & _).
  apply in_app_or in Hin. destruct Hin as [Hin | [<- | Hin]].
  - rewrite (Hd1 j r Hin Hj) in Pr. discriminate.
  - assert (r = best) by congruence. subst. apply fnum_leb_refl.
  - inversion Hs2 as [|? ? _ Hall]; subst. rewrite Forall_forall in Hall.
    specialize (Hall j Hin). cbn in Hall.
    now rewrite (item_map col df j r Hj), (item_map col df i best Hi) in Hall.
Qed.

Lemma selection_first (best : R) :
  StronglySorted
    (fun a b => fnum_ltb (item (map col df) b) (item (map col df) a) = true
                \/ (fnum_eqb (item (map col df) b) (item (map col df) a) = true
                    /\ (a < b)%nat)) ix ->
  find P (take df ix) = Some best ->
  first_of_ties col P df best.
Proof.
  intros Hs Hf. destruct (find_take P df ix best Hf) as (d1 & i & d2 & E & Hi & Pb & Hd1).
  exists i. split; [assumption|].
  intros j r Hj Pr Heq.
  pose proof (position_in_indexer j r Hj) as Hin. rewrite E in Hin, Hs.
  apply StronglySorted_app_iff in Hs. destruct Hs as (_ & Hs2 & _).
  apply in_app_or in Hin. destruct Hin as [Hin | [<- | Hin]].
  - rewrite (Hd1 j r Hin Hj) in Pr. discriminate.
  - lia.
  - inversion Hs2 as [|? ? _ Hall]; subst. rewrite Forall_forall in Hall.
    specialize (Hall j Hin). cbn in Hall.
    rewrite (item_map col df j r Hj), (item_map col df i best Hi) in Hall.
    destruct Hall as [Hlt | [_ Hij]]; [|lia].
    unfold fnum_ltb in Hlt. unfold fnum_eqb in Heq.
    apply andb_true_iff in Heq. destruct Heq as [_ Hle].
    rewrite Hle in Hlt. discriminate.
Qed.

End Selection.

Lemma find_filter {R : Type} (P : R -> bool) (l : list R) :
  find P l = match filter P l with [] => None | r :: _ => Some r end.
Proof.
  induction l as [|x l IH]; simpl; [reflexivity|]. now destruct (P x).
Qed.

Lemma groupby_first_In {R K : Type} `{OrdLaws K} (key : R -> K) (df : list R)
    (k : K) (r : R) :
  In (k, r) (groupby_first key df) <-> find (fun x => eqb (key x) k) df = Some r.
Proof.
  unfold groupby_first. rewrite in_flat_map, find_filter. split.
  - intros ([k' g] & Hg & Hin). apply groupby_In in Hg. destruct Hg as [_ ->].
    cbn [fst snd] in Hin. unfold group in Hin.
    destruct (filter (fun x => eqb (key x) k') df) as [|x rest] eqn:E; [contradiction|].
    destruct Hin as [Eq | []]. inversion Eq; subst. now rewrite E.
  - destruct (filter (fun x => eqb (key x) k) df) as [|x rest] eqn:E; [discriminate|].
    intros Eq. inversion Eq; subst x.
    exists (k, group key k df). split.
    + apply groupby_In. split; [|reflexivity].
      assert (Hr : In r (filter (fun x => eqb (key x) k) df)) by (rewrite E; now left).
      apply filter_In in Hr. destruct Hr as [Hr Ek]. apply eqb_eq in Ek.
      rewrite <- Ek. now apply in_map.
    + cbn [fst snd]. unfold group. rewrite E. now left.
Qed.

Lemma groupby_first_categorical_In {R L : Type} (eqL : L -> L -> bool)
    (observed : bool) (categories : list L) (col : R -> option L) (df : list R)
    (c : L) (o : option R) :
  In (c, o) (groupby_first_categorical eqL observed categories col df)
  <-> In c categories
      /\ find (fun r => match col r with Some l => eqL l c | None => false end) df = o
      /\ (o = None -> observed = false).
Proof.
  unfold groupby_first_categorical. rewrite in_flat_map. split.
  - intros (c' & Hc & Hin). rewrite find_filter.
    destruct (filter (fun r => match col r with Some l => eqL l c' | None => false end) df)
      as [|x rest] eqn:E.
    + destruct observed; [contradiction|]. destruct Hin as [Eq | []].
      inversion Eq; subst. rewrite E. auto.
    + destruct Hin as [Eq | []]. inversion Eq; subst. rewrite E.
      repeat split; auto. discriminate.
  - intros (Hc & Hf & Ho). exists c. split; [assumption|].
    rewrite find_filter in Hf.
    destruct (filter (fun r => match col r with Some l => eqL l c | None => false end) df)
      as [|x rest] eqn:E.
    + subst o. rewrite Ho by reflexivity. now left.
    + subst o. now left.
Qed.

(* ================================================================== *)
(** * The selection of the exemplars *)
(* ================================================================== *)

Lemma find_ext_in {R : Type} (P Q : R -> bool) (l : list R) :
  (forall r, In r l -> P r = Q r) -> find P l = find Q l.
Proof.
  induction l as [|x l IH]; intros Hext; simpl; [reflexivity|].
  rewrite (Hext x) by now left. destruct (Q x); [reflexivity|].
  apply IH. intros; apply Hext; now right.
Qed.

Section SortedCases.

Context {R : Type} (col : R -> fnum) (argsort : list fnum -> list nat)
        (cases : list R).

Let items := rev (map col cases).
Let sorted_cases := sort_values_descending argsort col cases.

Hypothesis argsort_sorts : is_argsort items (argsort items) = true.

Lemma sorted_cases_perm :
  Permutation (seq 0 (length cases))
              (nargsort_descending argsort (map col cases)).
Proof.
  rewrite <- (length_map col cases). apply nargsort_descending_perm.
  unfold is_argsort in argsort_sorts. apply andb_true_iff in argsort_sorts.
  destruct argsort_sorts as [Hc _]. unfold items in Hc.
  now rewrite length_rev in Hc.
Qed.

(** The first row of a group in the sorted frame is a best row of the
    group, there is one whenever the group has a candidate, and it is the
    first of the tied rows when the argsort is stable. *)
Lemma first_of_group_best (P : R -> bool) (best : R) :
  find P sorted_cases = Some best -> best_of col P cases best.
Proof.
  apply selection_best; [apply sorted_cases_perm|].
  now apply nargsort_descending_sorted.
Qed.

Lemma first_of_group_exists (P : R -> bool) (r : R) :
  In r cases -> P r = true -> exists best, find P sorted_cases = Some best.
Proof.
  apply selection_exists, sorted_cases_perm.
Qed.

Lemma first_of_group_stable (P : R -> bool) (best : R) :
  is_stable_argsort items (argsort items) = true ->
  find P sorted_cases = Some best -> first_of_ties col P cases best.
Proof.
  intros Hst. apply selection_first; [apply sorted_cases_perm|].
  now apply nargsort_descending_stable.
Qed.

End SortedCases.

Lemma tier_label_eqb_eq (a b : PeerGroupChampions.tier_label) :
  PeerGroupChampions.tier_label_eqb a b = true <-> a = b.
Proof. destruct a, b; cbn; split; congruence. Qed.

(** The groups of line 80, whatever the type of the tier column. *)
Lemma first_per_tier_In (observed : bool) (dt : PeerGroupChampions.tier_dtype)
    (df : list PeerGroupChampions.DailyKpi) (t : PeerGroupChampions.tier)
    (best : PeerGroupChampions.DailyKpi) :
  PeerGroupChampions.well_typed dt df ->
  In (t, Some best) (PeerGroupChampions.first_per_tier observed dt df) ->
  find (PeerGroupChampions.in_tier t) df = Some best.
Proof.
  intros Hwt Hin. destruct dt as [categories|]; cbn in Hin, Hwt.
  - apply in_map_iff in Hin. destruct Hin as ([c o] & E & Hin).
    inversion E; subst. apply groupby_first_categorical_In in Hin.
    destruct Hin as (_ & Hf & _). rewrite <- Hf. apply find_ext_in.
    intros r _. unfold PeerGroupChampions.in_tier, PeerGroupChampions.label_of.
    destruct (PeerGroupChampions.price_tier r) as [[l|]|]; reflexivity.
  - apply in_map_iff in Hin. destruct Hin as ([z r] & E & Hin).
    inversion E; subst. apply groupby_first_In in Hin.
    destruct (find_some _ _ Hin) as [_ Ez].
    rewrite <- Hin. apply find_ext_in. intros r Hr.
    rewrite Forall_forall in Hwt. unfold PeerGroupChampions.in_tier.
    rewrite (Hwt r Hr), Ez. reflexivity.
Qed.

Lemma first_per_tier_exists (observed : bool) (dt : PeerGroupChampions.tier_dtype)
    (df : list PeerGroupChampions.DailyKpi) (t : PeerGroupChampions.tier)
    (best : PeerGroupChampions.DailyKpi) :
  PeerGroupChampions.well_typed dt df ->
  find (PeerGroupChampions.in_tier t) df = Some best ->
  In (t, Some best) (PeerGroupChampions.first_per_tier observed dt df).
Proof.
  intros Hwt Hf. pose proof (find_some _ _ Hf) as [Hb Pb].
  unfold PeerGroupChampions.in_tier in Pb.
  destruct dt as [categories|]; cbn in Hwt |- *; rewrite Forall_forall in Hwt.
  - specialize (Hwt best Hb).
    destruct (PeerGroupChampions.price_tier best) as [[c|]|] eqn:Et;
      try contradiction; try discriminate.
    destruct t as [c'|]; [|discriminate]. cbn in Pb.
    apply tier_label_eqb_eq in Pb. subst c'.
    apply in_map_iff. exists (c, Some best). split; [reflexivity|].
    apply groupby_first_categorical_In. split; [assumption|].
    split; [|discriminate]. rewrite <- Hf. apply find_ext_in.
    intros r _. unfold PeerGroupChampions.in_tier, PeerGroupChampions.label_of.
    destruct (PeerGroupChampions.price_tier r) as [[l|]|]; reflexivity.
  - rewrite (Hwt best Hb) in Pb. destruct t; [discriminate|].
    apply in_map_iff. exists (0, best). split; [reflexivity|].
    apply groupby_first_In. rewrite <- Hf. apply find_ext_in. intros r Hr.
    unfold PeerGroupChampions.in_tier. rewrite (Hwt r Hr). reflexivity.
Qed.

Lemma well_typed_incl (dt : PeerGroupChampions.tier_dtype)
    (l l' : list PeerGroupChampions.DailyKpi) :
  (forall r, In r l' -> In r l) ->
  PeerGroupChampions.well_typed dt l -> PeerGroupChampions.well_typed dt l'.
Proof.
  intros Hincl. destruct dt; cbn; rewrite !Forall_forall;
    intros Hl r Hr; apply Hl, Hincl, Hr.
Qed.

Lemma optimal_best_dates_In (argsort : list fnum -> list nat) (threshold : Q)
    (daily_kpi : list OptimalBookingCurves.DailyKpi) (l : listing)
    (best : OptimalBookingCurves.DailyKpi) :
  In best (OptimalBookingCurves.best_dates argsort threshold daily_kpi)
  /\ eqb (kpi_listing (OptimalBookingCurves.kpi best)) l = true
  <-> find (fun k => eqb (kpi_listing (OptimalBookingCurves.kpi k)) l)
           (sort_values_descending argsort OptimalBookingCurves.RevPAR
              (OptimalBookingCurves.last_minute_success_cases threshold daily_kpi))
      = Some best.
Proof.
  unfold OptimalBookingCurves.best_dates. rewrite in_map_iff. split.
  - intros [([l' b] & E & Hin) El]. cbn in E. subst b.
    apply groupby_first_In in Hin. destruct (find_some _ _ Hin) as [_ El'].
    apply eqb_eq in El, El'. now subst.
  - intros Hf. destruct (find_some _ _ Hf) as [_ El]. split; [|assumption].
    exists (l, best). split; [reflexivity|]. now apply groupby_first_In.
Qed.

(** C1, as the code has it. In both scripts the exemplar of a group (a
    listing in the first script, a price tier in the second) is, among the
    rows of the group with last_30_days_booking_ratio >= the threshold, a
    row with the largest RevPAR; a group has an exemplar as soon as one of
    its rows meets the threshold, and never two.  [sort_values] is called
    with its default kind, of which only [is_argsort] is known: when
    several rows share the largest RevPAR, the exemplar is the first of
    them in the order before the sort provided the argsort is stable. *)
Theorem exemplar_selection (argsort : list fnum -> list nat) (last_minute_threshold : Q) :
  (forall (daily_kpi : list OptimalBookingCurves.DailyKpi) (l : listing),
     let cases :=
       OptimalBookingCurves.last_minute_success_cases last_minute_threshold daily_kpi in
     let items := rev (map OptimalBookingCurves.RevPAR cases) in
     let of_listing := fun k => eqb (kpi_listing (OptimalBookingCurves.kpi k)) l in
     let best_dates :=
       OptimalBookingCurves.best_dates argsort last_minute_threshold daily_kpi in
     is_argsort items (argsort items) = true ->
     (forall k, In k cases <->
                In k daily_kpi
                /\ fnum_leb (Fin last_minute_threshold)
                     (OptimalBookingCurves.last_30_days_booking_ratio k) = true)
     /\ ((exists k, In k cases /\ of_listing k = true) ->
         exists best, In best best_dates /\ of_listing best = true)
     /\ forall best, In best best_dates -> of_listing best = true ->
          best_of OptimalBookingCurves.RevPAR of_listing cases best
          /\ (forall other, In other best_dates -> of_listing other = true ->
                            other = best)
          /\ (is_stable_argsort items (argsort items) = true ->
              first_of_ties OptimalBookingCurves.RevPAR of_listing cases best))
  /\ (forall (observed : bool) (dt : PeerGroupChampions.tier_dtype)
             (daily_kpi : list PeerGroupChampions.DailyKpi)
             (t : PeerGroupChampions.tier),
        let cases :=
          PeerGroupChampions.last_minute_cases last_minute_threshold daily_kpi in
        let items := rev (map PeerGroupChampions.RevPAR cases) in
        let best_dates :=
          PeerGroupChampions.best_dates_with observed argsort last_minute_threshold
            dt daily_kpi in
        PeerGroupChampions.well_typed dt daily_kpi ->
        is_argsort items (argsort items) = true ->
        (forall k, In k cases <->
                   In k daily_kpi
                   /\ fnum_leb (Fin last_minute_threshold)
                        (PeerGroupChampions.last_30_days_booking_ratio k) = true)
        /\ ((exists k, In k cases /\ PeerGroupChampions.in_tier t k = true) ->
            exists best, In (t, Some best) best_dates)
        /\ forall best, In (t, Some best) best_dates ->
             best_of PeerGroupChampions.RevPAR (PeerGroupChampions.in_tier t) cases best
             /\ (forall other, In (t, Some other) best_dates -> other = best)
             /\ (is_stable_argsort items (argsort items) = true ->
                 first_of_ties PeerGroupChampions.RevPAR
                   (PeerGroupChampions.in_tier t) cases best)).
Proof.
  split.
  - intros daily_kpi l cases items of_listing best_dates Hsort.
    split; [intros k; apply filter_In|]. split.
    + intros (k & Hk & Pk).
      destruct (first_of_group_exists OptimalBookingCurves.RevPAR argsort cases
                  Hsort of_listing k Hk Pk) as [best Hf].
      exists best. now apply (optimal_best_dates_In argsort _ daily_kpi l best).
    + intros best Hb Pb.
      assert (Hf : find of_listing
                     (sort_values_descending argsort OptimalBookingCurves.RevPAR cases)
                   = Some best)
        by (apply (optimal_best_dates_In argsort _ daily_kpi l best); auto).
      split; [now apply (first_of_group_best _ argsort cases Hsort)|]. split.
      * intros other Ho Po.
        assert (Hf' : find of_listing
                        (sort_values_descending argsort OptimalBookingCurves.RevPAR cases)
                      = Some other)
          by (apply (optimal_best_dates_In argsort _ daily_kpi l other); auto).
        congruence.
      * intros Hst. now apply (first_of_group_stable _ argsort cases Hsort).
  - intros observed dt daily_kpi t cases items best_dates Hwt Hsort.
    set (sorted_cases :=
           sort_values_descending argsort PeerGroupChampions.RevPAR cases).
    assert (Hwt' : PeerGroupChampions.well_typed dt sorted_cases).
    { apply (well_typed_incl dt daily_kpi); [|assumption].
      intros r Hr. apply take_In in Hr. unfold cases in Hr.
      now apply filter_In in Hr. }
    split; [intros k; apply filter_In|]. split.
    + intros (k & Hk & Pk).
      destruct (first_of_group_exists PeerGroupChampions.RevPAR argsort cases
                  Hsort (PeerGroupChampions.in_tier t) k Hk Pk) as [best Hf].
      exists best. now apply first_per_tier_exists.
    + intros best Hb.
      assert (Hf : find (PeerGroupChampions.in_tier t) sorted_cases = Some best)
        by (eapply first_per_tier_In; eassumption).
      split; [now apply (first_of_group_best _ argsort cases Hsort)|]. split.
      * intros other Ho.
        assert (Hf' : find (PeerGroupChampions.in_tier t) sorted_cases = Some other)
          by (eapply first_per_tier_In; eassumption).
        congruence.
      * intros Hst. now apply (first_of_group_stable _ argsort cases Hsort).
Qed.

Lemma optimal_best_dates_incl (argsort : list fnum -> list nat) (threshold : Q)
    (daily_kpi : list OptimalBookingCurves.DailyKpi)
    (best : OptimalBookingCurves.DailyKpi) :
  In best (OptimalBookingCurves.best_dates argsort threshold daily_kpi) ->
  In best daily_kpi.
Proof.
  unfold OptimalBookingCurves.best_dates. rewrite in_map_iff.
  intros ([l b] & E & Hin). cbn in E. subst b.
  apply groupby_first_In in Hin. apply find_some in Hin. destruct Hin as [Hin _].
  apply take_In in Hin. unfold OptimalBookingCurves.last_minute_success_cases in Hin.
  now apply filter_In in Hin.
Qed.

Lemma peer_best_dates_incl (observed : bool) (argsort : list fnum -> list nat)
    (threshold : Q) (dt : PeerGroupChampions.tier_dtype)
    (daily_kpi : list PeerGroupChampions.DailyKpi) (t : PeerGroupChampions.tier)
    (best : PeerGroupChampions.DailyKpi) :
  In (t, Some best)
     (PeerGroupChampions.best_dates_with observed argsort threshold dt daily_kpi) ->
  In best daily_kpi
  /\ fnum_leb (Fin threshold) (PeerGroupChampions.last_30_days_booking_ratio best) = true.
Proof.
  unfold PeerGroupChampions.best_dates_with, PeerGroupChampions.first_per_tier.
  intros Hin.
  assert (Hs : In best (sort_values_descending argsort PeerGroupChampions.RevPAR
                          (PeerGroupChampions.last_minute_cases threshold daily_kpi))).
  { destruct dt as [categories|]; apply in_map_iff in Hin.
    - destruct Hin as ([c o] & E & Hin). inversion E; subst.
      apply groupby_first_categorical_In in Hin. destruct Hin as (_ & Hf & _).
      now apply find_some in Hf.
    - destruct Hin as ([z r] & E & Hin). inversion E; subst.
      apply groupby_first_In in Hin. now apply find_some in Hin. }
  apply take_In in Hs. unfold PeerGroupChampions.last_minute_cases in Hs.
  now apply filter_In in Hs.
Qed.

(** The boundary of C4 on two listings of one snapshot each. *)
Example listing_capacity_boundary :
  let df := [mkRow 1 1 1 100 1 29 5000; mkRow 2 1 1 100 1 30 5000] in
  map (fun s => (hotel_id (snapshot s), max_stock s)) (sales df) = [(2, 30)].
Proof. reflexivity. Qed.

(* ================================================================== *)
(** * Reading the table: empty and unparseable date cells *)
(* ================================================================== *)

Lemma to_datetime_ok (column : list date_cell) :
  ~ In Garbled column -> to_datetime column = Ok (map cell_value column).
Proof.
  intros Hn. unfold to_datetime. apply mapM_ok.
  intros c Hc. destruct c; try reflexivity. contradiction.
Qed.

Lemma to_datetime_raises (column : list date_cell) :
  In Garbled column -> to_datetime column = Raised DateParseError.
Proof.
  unfold to_datetime. induction column as [|c column IH]; [contradiction|].
  intros [-> | Hin]; [reflexivity|].
  cbn [mapM]. rewrite (IH Hin). now destruct c.
Qed.

Lemma normalize_raises (csv : list RawRow) :
  existsb unparseable_date csv = true -> normalize csv = Raised DateParseError.
Proof.
  intros Hex. apply existsb_exists in Hex. destruct Hex as (r & Hr & Hu).
  unfold normalize.
  destruct (in_dec (fun a b : date_cell => ltac:(decide equality; apply Z.eq_dec))
              Garbled (map raw_created_at csv)) as [Hc | Hc].
  - now rewrite to_datetime_raises.
  - rewrite to_datetime_ok by assumption. cbn [bind].
    rewrite to_datetime_raises; [reflexivity|].
    unfold unparseable_date in Hu.
    destruct (raw_date r) eqn:Ed.
    + destruct (raw_created_at r) eqn:Ec; try discriminate.
      exfalso. apply Hc. rewrite <- Ec. now apply in_map.
    + rewrite <- Ed. now apply in_map.
    + destruct (raw_created_at r) eqn:Ec; try discriminate.
      exfalso. apply Hc. rewrite <- Ec. now apply in_map.
Qed.

Lemma dropna_rows (csv : list RawRow) :
  dropna (combine csv (combine (map cell_value (map raw_date csv))
                               (map cell_value (map raw_created_at csv))))
  = flat_map clean_row csv.
Proof.
  unfold dropna. induction csv as [|r csv IH]; [reflexivity|].
  cbn [map combine flat_map fst snd]. now rewrite IH.
Qed.

Lemma normalize_ok (csv : list RawRow) :
  existsb unparseable_date csv = false ->
  normalize csv = Ok (flat_map clean_row csv).
Proof.
  intros Hex.
  assert (Hall : forall r, In r csv -> unparseable_date r = false).
  { intros r Hr. destruct (unparseable_date r) eqn:E; [|reflexivity].
    assert (existsb unparseable_date csv = true)
      by (apply existsb_exists; eauto).
    congruence. }
  unfold normalize.
  rewrite !to_datetime_ok.
  - cbn [bind]. f_equal. apply dropna_rows.
  - intros Hin. apply in_map_iff in Hin. destruct Hin as (r & E & Hr).
    specialize (Hall r Hr). unfold unparseable_date in Hall. rewrite E in Hall.
    discriminate.
  - intros Hin. apply in_map_iff in Hin. destruct Hin as (r & E & Hr).
    specialize (Hall r Hr). unfold unparseable_date in Hall. rewrite E in Hall.
    destruct (raw_date r); discriminate.
Qed.

Lemma flat_map_filter_nil {A B : Type} (f : A -> list B) (p : A -> bool) (l : list A) :
  (forall a, p a = false -> f a = []) ->
  flat_map f (filter p l) = flat_map f l.
Proof.
  intros Hp. induction l as [|a l IH]; simpl; [reflexivity|].
  destruct (p a) eqn:E; simpl; rewrite IH; [reflexivity|].
  now rewrite (Hp a E).
Qed.

Lemma clean_row_missing (r : RawRow) : negb (missing_date r) = false -> clean_row r = [].
Proof.
  rewrite negb_false_iff. unfold missing_date, clean_row, complete.
  destruct (raw_date r), (raw_created_at r); try discriminate; intros _; cbn;
    destruct (raw_hotel_id r), (raw_plan_id r), (raw_room_type_id r); reflexivity.
Qed.

Lemma existsb_filter_false {A : Type} (p q : A -> bool) (l : list A) :
  existsb p l = false -> existsb p (filter q l) = false.
Proof.
  induction l as [|a l IH]; simpl; [reflexivity|].
  rewrite orb_false_iff. intros [Ea El].
  destruct (q a); simpl; [rewrite Ea|]; now apply IH.
Qed.

(** C6, as the code has it. A row with an empty date or created_at cell
    is dropped without a message, and either script returns what it
    returns on the table without those rows -- provided no date cell holds
    text that is no date; a single such cell makes [pd.to_datetime] raise,
    and the run ends there. *)
Theorem malformed_rows (argsort : list fnum -> list nat) (csv : list RawRow)
    (last_minute_threshold : Q) (num_tiers : nat) :
  let kept := filter (fun r => negb (missing_date r)) csv in
  (existsb unparseable_date csv = false ->
     (exists df, normalize csv = Ok df)
     /\ normalize csv = normalize kept
     /\ OptimalBookingCurves.analyze_and_plot_optimal_booking_curves
          argsort csv last_minute_threshold
        = OptimalBookingCurves.analyze_and_plot_optimal_booking_curves
            argsort kept last_minute_threshold
     /\ PeerGroupChampions.analyze_and_plot_peer_group_champions
          argsort csv last_minute_threshold num_tiers
        = PeerGroupChampions.analyze_and_plot_peer_group_champions
            argsort kept last_minute_threshold num_tiers)
  /\ (existsb unparseable_date csv = true ->
        OptimalBookingCurves.analyze_and_plot_optimal_booking_curves
          argsort csv last_minute_threshold = Raised DateParseError
        /\ PeerGroupChampions.analyze_and_plot_peer_group_champions
             argsort csv last_minute_threshold num_tiers = Raised DateParseError).
Proof.
  cbn zeta. split.
  - intros Hex.
    assert (E : normalize csv
                = normalize (filter (fun r => negb (missing_date r)) csv)).
    { rewrite (normalize_ok csv Hex).
      rewrite normalize_ok by now apply existsb_filter_false.
      f_equal. symmetry. apply flat_map_filter_nil. exact clean_row_missing. }
    split; [rewrite (normalize_ok csv Hex); eauto|]. split; [exact E|].
    unfold OptimalBookingCurves.analyze_and_plot_optimal_booking_curves,
      PeerGroupChampions.analyze_and_plot_peer_group_champions.
    rewrite <- E. split; reflexivity.
  - intros Hex.
    unfold OptimalBookingCurves.analyze_and_plot_optimal_booking_curves,
      PeerGroupChampions.analyze_and_plot_peer_group_champions.
    rewrite (normalize_raises csv Hex). split; reflexivity.
Qed.

(** The claim of C6 fails on a table with one unparseable created_at
    cell: the run ends with the exception of [pd.to_datetime], while the
    table without that row yields an exemplar. *)
Lemma unparseable_date_aborts :
  let snap c s := mkRawRow (Some 1) (Some 1) (Some 1)
                    (Stamp (100 * 86400000000000)) c (Some s) (Some 12000%Q) in
  let at_day d := Stamp (d * 86400000000000) in
  let good := [snap (at_day 80) 30; snap (at_day 90) 20; snap (at_day 95) 10] in
  let csv := snap Garbled 25 :: good in
  filter (fun r => negb (unparseable_date r)) csv = good
  /\ OptimalBookingCurves.analyze_and_plot_optimal_booking_curves
       argsort_stable csv (1 # 2) = Raised DateParseError
  /\ PeerGroupChampions.analyze_and_plot_peer_group_champions
       argsort_stable csv (1 # 2) 3 = Raised DateParseError
  /\ exists best,
       OptimalBookingCurves.analyze_and_plot_optimal_booking_curves
         argsort_stable good (1 # 2) = Ok [best].
Proof.
  cbn zeta. split; [reflexivity|]. split; [reflexivity|]. split; [reflexivity|].
  eexists. vm_compute. reflexivity.
Qed.

(* ================================================================== *)
(** * Quantile binning of the characteristic prices *)
(* ================================================================== *)

Lemma Qle_bool_total (a b : Q) : Qle_bool a b = true \/ Qle_bool b a = true.
Proof.
  rewrite !Qle_bool_iff. destruct (Qlt_le_dec a b); [left; now apply Qlt_le_weak | now right].
Qed.

Lemma Qle_bool_trans (a b c : Q) :
  Qle_bool a b = true -> Qle_bool b c = true -> Qle_bool a c = true.
Proof. rewrite !Qle_bool_iff. apply Qle_trans. Qed.

Lemma eqb_Qeq (a b : Q) : eqb a b = true <-> (a == b)%Q.
Proof.
  unfold eqb, leb, Ord_Q. rewrite andb_true_iff, !Qle_bool_iff. split.
  - intros [H1 H2]. now apply Qle_antisym.
  - intros E. rewrite E. split; apply Qle_refl.
Qed.

Lemma sorted_nth {A : Type} (R : A -> A -> Prop) (l : list A) (d : A) :
  StronglySorted R l ->
  forall i j, (i < j < length l)%nat -> R (nth i l d) (nth j l d).
Proof.
  induction 1 as [|x l Hs IH Hx]; intros i j Hij; simpl in *; [lia|].
  destruct j as [|j]; [lia|]. destruct i as [|i].
  - rewrite Forall_forall in Hx. apply Hx, nth_In. lia.
  - apply IH. lia.
Qed.

Lemma filter_length_le {A : Type} (p : A -> bool) (l : list A) :
  (length (filter p l) <= length l)%nat.
Proof.
  induction l as [|x l IH]; simpl; [lia|]. destruct (p x); simpl; lia.
Qed.

Lemma unique_length_le {K : Type} `{Ord K} (l : list K) :
  (length (unique l) <= length l)%nat.
Proof.
  induction l as [|x l IH]; simpl; [lia|].
  pose proof (filter_length_le (fun k' => negb (eqb k' x)) (unique l)). lia.
Qed.

(** Four edges of which two neighbours at an end are equal. *)
Lemma four_edges_collide (e0 e1 e2 e3 : Q) :
  (e1 == e0)%Q \/ (e2 == e3)%Q -> (length (unique [e0; e1; e2; e3]) < 4)%nat.
Proof.
  intros [E | E].
  - cbn [unique filter]. apply eqb_Qeq in E. rewrite E. cbn [negb length].
    pose proof (filter_length_le (fun k' => negb (eqb k' e0))
                  (filter (fun k' => negb (eqb k' e1)) (unique [e2; e3]))).
    pose proof (filter_length_le (fun k' => negb (eqb k' e1)) (unique [e2; e3])).
    pose proof (unique_length_le [e2; e3]). simpl length in *. lia.
  - assert (E' : eqb e3 e2 = true) by (apply eqb_Qeq; now symmetry).
    change (unique [e0; e1; e2; e3])
      with (e0 :: filter (fun k' => negb (eqb k' e0))
                    (e1 :: filter (fun k' => negb (eqb k' e1))
                             (e2 :: filter (fun k' => negb (eqb k' e2)) [e3]))).
    cbn [filter]. rewrite E'. cbn [negb].
    pose proof (filter_length_le (fun k' => negb (eqb k' e0))
                  (e1 :: filter (fun k' => negb (eqb k' e1)) [e2])).
    pose proof (filter_length_le (fun k' => negb (eqb k' e1)) [e2]).
    simpl length in *. lia.
Qed.

Lemma quantile_value (s : list Q) (i q : nat) (v : Q) :
  (nth (i * (length s - 1) / q) s 0 == v)%Q ->
  (nth (Nat.min (i * (length s - 1) / q + 1) (length s - 1)) s 0 == v)%Q
  \/ ((i * (length s - 1)) mod q = 0)%nat ->
  (quantile s i q == v)%Q.
Proof.
  intros Ha Hb. unfold quantile. cbn zeta. rewrite Ha.
  destruct Hb as [Hb | Hr].
  - rewrite Hb. ring.
  - rewrite Hr. cbn [Z.of_nat].
    assert (E : (0 # Pos.of_nat q == 0)%Q) by reflexivity.
    rewrite E. ring.
Qed.

(** Sorted prices of two distinct values, on three rows or more: the
    quantiles at 1/3 and 2/3 cannot both lie strictly between the two
    values, so an inner edge meets an outer one. *)
Lemma two_values_edges_collide (s : list Q) (a b : Q) :
  StronglySorted Qle s ->
  (a < b)%Q ->
  Forall (fun x => x == a \/ x == b)%Q s ->
  Exists (fun x => x == a)%Q s ->
  Exists (fun x => x == b)%Q s ->
  (3 <= length s)%nat ->
  (quantile s 1 3 == quantile s 0 3)%Q \/ (quantile s 2 3 == quantile s 3 3)%Q.
Proof.
  intros Hs Hab Hv Ha Hb Hn.
  set (n := length s) in *.
  assert (Hmono : forall i j, (i <= j < n)%nat -> (nth i s 0 <= nth j s 0)%Q).
  { intros i j Hij. destruct (Nat.eq_dec i j) as [-> | Hne]; [apply Qle_refl|].
    apply (sorted_nth Qle s 0%Q Hs). fold n. lia. }
  assert (Hval : forall i, (i < n)%nat -> (nth i s 0 == a \/ nth i s 0 == b)%Q).
  { intros i Hi. rewrite Forall_forall in Hv. apply Hv, nth_In. exact Hi. }
  assert (Hup : forall i j, (i <= j < n)%nat -> (nth i s 0 == b)%Q -> (nth j s 0 == b)%Q).
  { intros i j Hij Ei. destruct (Hval j) as [Ej | Ej]; [lia| |assumption].
    pose proof (Hmono i j Hij) as Hle. rewrite Ei, Ej in Hle.
    exfalso. now apply (Qlt_not_le a b). }
  assert (Hdown : forall i j, (i <= j < n)%nat -> (nth j s 0 == a)%Q -> (nth i s 0 == a)%Q).
  { intros i j Hij Ej. destruct (Hval i) as [Ei | Ei]; [lia|assumption|].
    pose proof (Hmono i j Hij) as Hle. rewrite Ei, Ej in Hle.
    exfalso. now apply (Qlt_not_le a b). }
  assert (H0 : (nth 0 s 0 == a)%Q).
  { apply Exists_exists in Ha. destruct Ha as (x & Hx & Ex).
    destruct (In_nth s x 0%Q Hx) as (j & Hj & Ej).
    apply (Hdown 0%nat j); [fold n in Hj; lia | now rewrite Ej]. }
  assert (Hlast : (nth (n - 1) s 0 == b)%Q).
  { apply Exists_exists in Hb. destruct Hb as (x & Hx & Ex).
    destruct (In_nth s x 0%Q Hx) as (j & Hj & Ej).
    apply (Hup j (n - 1)%nat); [fold n in Hj; lia | now rewrite Ej]. }
  assert (E0 : (quantile s 0 3 == a)%Q).
  { apply quantile_value; fold n; rewrite Nat.mul_0_l.
    - exact H0.
    - right. reflexivity. }
  assert (E3 : (quantile s 3 3 == b)%Q).
  { apply quantile_value; fold n.
    - rewrite Nat.mul_comm, Nat.div_mul by lia. exact Hlast.
    - right. rewrite Nat.mul_comm. now apply Nat.Div0.mod_mul. }
  pose proof (Nat.div_mod_eq (1 * (n - 1)) 3) as D1.
  pose proof (Nat.mod_upper_bound (1 * (n - 1)) 3) as R1.
  pose proof (Nat.div_mod_eq (2 * (n - 1)) 3) as D2.
  pose proof (Nat.mod_upper_bound (2 * (n - 1)) 3) as R2.
  destruct (Hval (Nat.min (1 * (n - 1) / 3 + 1) (n - 1))) as [Ea | Eb]; [lia| |].
  - left. rewrite E0. apply quantile_value; fold n.
    + apply (Hdown _ (Nat.min (1 * (n - 1) / 3 + 1) (n - 1))); [lia | exact Ea].
    + left. exact Ea.
  - right. rewrite E3. apply quantile_value; fold n.
    + apply (Hup (Nat.min (1 * (n - 1) / 3 + 1) (n - 1))); [lia | exact Eb].
    + left. apply (Hup (Nat.min (1 * (n - 1) / 3 + 1) (n - 1))); [lia | exact Eb].
Qed.

Lemma quantile_edges_length (x : list Q) (q : nat) :
  length (quantile_edges x q) = (q + 1)%nat.
Proof.
  unfold quantile_edges. now rewrite length_map, length_seq.
Qed.

Lemma tier_labels_length (num_tiers : nat) :
  (num_tiers <= 3)%nat ->
  length (PeerGroupChampions.tier_labels num_tiers) = num_tiers.
Proof.
  intros Hn. unfold PeerGroupChampions.tier_labels.
  rewrite length_firstn. cbn. lia.
Qed.

(** Degenerate binning makes [qcut] raise: fewer bins than labels. *)
Lemma qcut_degenerate {L : Type} (x : list Q) (q : nat) (labels : list L) :
  (2 <= q)%nat -> length labels = q ->
  (length (unique (quantile_edges x q)) < q + 1)%nat ->
  qcut x q labels = Raised ValueError.
Proof.
  intros Hq Hl Hc. unfold qcut. rewrite quantile_edges_length.
  assert (E1 : (length (unique (quantile_edges x q)) <? q + 1)%nat = true)
    by now apply Nat.ltb_lt.
  assert (E2 : (q + 1 =? 2)%nat = false) by (apply Nat.eqb_neq; lia).
  rewrite E1, E2. cbn [andb negb].
  assert (E3 : (length labels =? length (unique (quantile_edges x q)) - 1)%nat = false)
    by (apply Nat.eqb_neq; lia).
  now rewrite E3.
Qed.

Lemma assign_price_tier_degenerate (num_tiers : nat) (prices : list Q) :
  (2 <= num_tiers <= 3)%nat ->
  PeerGroupChampions.edges_collide num_tiers prices ->
  PeerGroupChampions.assign_price_tier num_tiers prices
  = Ok (PeerGroupChampions.Object,
        map (fun _ => Some PeerGroupChampions.SingleGroup) prices, true).
Proof.
  intros Hn Hc. unfold PeerGroupChampions.assign_price_tier.
  rewrite qcut_degenerate; [reflexivity | lia | apply tier_labels_length; lia | exact Hc].
Qed.

Lemma two_distinct_prices_collide (prices : list Q) :
  PeerGroupChampions.two_distinct_prices prices ->
  (3 <= length prices)%nat ->
  PeerGroupChampions.edges_collide 3 prices.
Proof.
  intros (a & b & Hab & Hv & Ha & Hb) Hn.
  unfold PeerGroupChampions.edges_collide, quantile_edges.
  set (s := sort_by Qle_bool prices).
  pose proof (sort_by_perm Qle_bool prices) as Hp. fold s in Hp.
  apply Permutation_sym in Hp.
  assert (Hs : StronglySorted Qle s).
  { pose proof (sort_by_sorted Qle_bool Qle_bool_total Qle_bool_trans prices) as H.
    fold s in H. eapply (StronglySorted_weaken _ _ (fun _ => True)); [| |exact H].
    - intros x y _ _. apply Qle_bool_iff.
    - apply Forall_forall. auto. }
  assert (Hv' : Forall (fun x => x == a \/ x == b)%Q s)
    by (eapply Permutation_Forall; eassumption).
  assert (Ha' : Exists (fun x => x == a)%Q s).
  { apply Exists_exists in Ha. destruct Ha as (x & Hx & Ex).
    apply Exists_exists. exists x. split; [|assumption].
    eapply Permutation_in; eassumption. }
  assert (Hb' : Exists (fun x => x == b)%Q s).
  { apply Exists_exists in Hb. destruct Hb as (x & Hx & Ex).
    apply Exists_exists. exists x. split; [|assumption].
    eapply Permutation_in; eassumption. }
  assert (Hn' : (3 <= length s)%nat)
    by (rewrite <- (Permutation_length Hp); exact Hn).
  change (map (fun i => quantile s i 3) (seq 0 (3 + 1)))
    with [quantile s 0 3; quantile s 1 3; quantile s 2 3; quantile s 3 3].
  apply four_edges_collide.
  now apply (two_values_edges_collide s a b).
Qed.

(** C7, as the code has it. The frame of the second script is always
    built (the run continues).  With two or three tiers asked for,
    whenever the quantile edges of the characteristic prices are not all
    distinct, [qcut] raises ValueError, the warning is printed and every
    row gets the one tier of line 63; in particular with three tiers and
    only two distinct characteristic prices on three rows or more. *)
Theorem degenerate_segmentation (num_tiers : nat) (df : list Sale) :
  exists frame,
    PeerGroupChampions.daily_kpi num_tiers df = Ok frame
    /\ let prices :=
         map PeerGroupChampions.characteristic_price (PeerGroupChampions.rows frame) in
       let single_tier :=
         PeerGroupChampions.dtype frame = PeerGroupChampions.Object
         /\ PeerGroupChampions.warned frame = true
         /\ Forall (fun k => PeerGroupChampions.price_tier k
                             = Some PeerGroupChampions.SingleGroup)
                   (PeerGroupChampions.rows frame) in
       ((2 <= num_tiers <= 3)%nat ->
        PeerGroupChampions.edges_collide num_tiers prices -> single_tier)
       /\ (num_tiers = 3%nat ->
           PeerGroupChampions.two_distinct_prices prices ->
           (3 <= length (PeerGroupChampions.rows frame))%nat -> single_tier).
Proof.
  destruct (peer_daily_kpi_rows num_tiers df) as (frame & E & _ & _ & Ht).
  exists frame. split; [assumption|]. cbn zeta.
  assert (Hsingle : (2 <= num_tiers <= 3)%nat ->
            PeerGroupChampions.edges_collide num_tiers
              (map PeerGroupChampions.characteristic_price (PeerGroupChampions.rows frame)) ->
            PeerGroupChampions.dtype frame = PeerGroupChampions.Object
            /\ PeerGroupChampions.warned frame = true
            /\ Forall (fun k => PeerGroupChampions.price_tier k
                                = Some PeerGroupChampions.SingleGroup)
                      (PeerGroupChampions.rows frame)).
  { intros Hn Hc. rewrite (assign_price_tier_degenerate _ _ Hn Hc) in Ht.
    inversion Ht as [[Hd Hcol Hw]]. repeat split.
    apply Forall_forall. intros k Hk. rewrite map_map in Hcol. symmetry.
    exact (ext_in_map Hcol k Hk). }
  split; [exact Hsingle|].
  intros -> H2 H3. apply Hsingle; [lia|].
  apply two_distinct_prices_collide; [assumption | now rewrite length_map].
Qed.

(** The claim of C7 fails on two listings with one stay date each: the
    two characteristic prices are distinct, the quantiles at 1/3 and 2/3
    are interpolated between them, so the four edges are distinct, [qcut]
    succeeds, no warning is printed, and the two rows get two different
    tiers. *)
Lemma two_prices_two_tiers :
  let snap h c s p := mkRow h 1 1 (100 * 86400000000000) (c * 86400000000000) s p in
  let df := [snap 1 80 30 100%Q; snap 1 90 20 100%Q;
             snap 2 80 30 200%Q; snap 2 90 20 200%Q] in
  exists frame,
    PeerGroupChampions.daily_kpi 3 (sales df) = Ok frame
    /\ PeerGroupChampions.two_distinct_prices
         (map PeerGroupChampions.characteristic_price (PeerGroupChampions.rows frame))
    /\ map PeerGroupChampions.price_tier (PeerGroupChampions.rows frame)
       = [Some (PeerGroupChampions.Labelled PeerGroupChampions.Ume);
          Some (PeerGroupChampions.Labelled PeerGroupChampions.Matsu)]
    /\ PeerGroupChampions.warned frame = false.
Proof.
  cbn zeta. eexists. split; [vm_compute; reflexivity|].
  split; [|split; reflexivity].
  exists 100%Q, 200%Q. cbn [PeerGroupChampions.rows map
    PeerGroupChampions.characteristic_price].
  split; [reflexivity|]. split; [|split].
  - apply Forall_cons; [left; reflexivity|].
    apply Forall_cons; [right; reflexivity|]. apply Forall_nil.
  - apply Exists_cons_hd. reflexivity.
  - apply Exists_cons_tl, Exists_cons_hd. reflexivity.
Qed.

(** Beyond three tiers there are only three labels (line 59), and
    colliding edges need not end in the single tier: five tiers asked
    for, six edges of which four are distinct, three bins for three
    labels. *)
Lemma five_tiers_three_labels :
  let prices := [1; 1; 1; 2; 3; 4]%Q in
  PeerGroupChampions.edges_collide 5 prices
  /\ PeerGroupChampions.assign_price_tier 5 prices
     = Ok (PeerGroupChampions.Categorical
             [PeerGroupChampions.Ume; PeerGroupChampions.Take; PeerGroupChampions.Matsu],
           map (fun l => Some (PeerGroupChampions.Labelled l))
               [PeerGroupChampions.Ume; PeerGroupChampions.Ume; PeerGroupChampions.Ume;
                PeerGroupChampions.Ume; PeerGroupChampions.Take;
                PeerGroupChampions.Matsu],
           false).
Proof.
  split; [unfold PeerGroupChampions.edges_collide; vm_compute; lia | reflexivity].
Qed.

(** The scenario of C7 on three rows: two stay dates of one listing and
    one of another. *)
Example degenerate_segmentation_scenario :
  let snap h d c s p := mkRow h 1 1 (d * 86400000000000) (c * 86400000000000) s p in
  let df := [snap 1 100 80 30 100%Q; snap 1 100 90 20 100%Q;
             snap 1 101 80 30 100%Q; snap 1 101 90 20 100%Q;
             snap 2 100 80 30 200%Q; snap 2 100 90 20 200%Q] in
  exists frame,
    PeerGroupChampions.daily_kpi 3 (sales df) = Ok frame
    /\ PeerGroupChampions.warned frame = true
    /\ map PeerGroupChampions.price_tier (PeerGroupChampions.rows frame)
       = [Some PeerGroupChampions.SingleGroup; Some PeerGroupChampions.SingleGroup;
          Some PeerGroupChampions.SingleGroup].
Proof.
  cbn zeta. eexists. split; [vm_compute; reflexivity|]. split; reflexivity.
Qed.

(* ================================================================== *)
(** * Price tiers without a last-minute case *)
(* ================================================================== *)

(** With [observed=False] every category has a row in the result of line
    80, whether or not a case of the tier is left. *)
Lemma categorical_groups_all {R L : Type} (eqL : L -> L -> bool)
    (categories : list L) (col : R -> option L) (df : list R) :
  map fst (groupby_first_categorical eqL false categories col df) = categories.
Proof.
  unfold groupby_first_categorical.
  induction categories as [|c categories IH]; [reflexivity|].
  cbn [flat_map]. rewrite map_app, IH.
  now destruct (filter _ df).
Qed.

(** With [observed=True] only the tiers with a case have one. *)
Lemma observed_groups_present (dt : PeerGroupChampions.tier_dtype)
    (df : list PeerGroupChampions.DailyKpi) (t : PeerGroupChampions.tier)
    (o : option PeerGroupChampions.DailyKpi) :
  In (t, o) (PeerGroupChampions.first_per_tier true dt df) ->
  exists best, o = Some best /\ In best df.
Proof.
  destruct dt as [categories|]; cbn; rewrite in_map_iff.
  - intros ([c o'] & E & Hin). inversion E; subst.
    apply groupby_first_categorical_In in Hin. destruct Hin as (_ & Hf & Ho).
    destruct o as [best|]; [|now specialize (Ho eq_refl)].
    exists best. split; [reflexivity|]. now apply find_some in Hf.
  - intros ([z r] & E & Hin). inversion E; subst.
    exists r. split; [reflexivity|].
    apply groupby_first_In in Hin. now apply find_some in Hin.
Qed.

Lemma unique_constant {A : Type} (k : Z) (l : list A) :
  unique (map (fun _ => k) l) = match l with [] => [] | _ => [k] end.
Proof.
  induction l as [|a l IH]; [reflexivity|].
  cbn [map unique]. rewrite IH. destruct l; [reflexivity|].
  cbn [filter]. now rewrite eqb_refl.
Qed.

Lemma groupby_first_constant {A : Type} (k : Z) (l : list A) :
  (length (groupby_first (fun _ => k) l) <= 1)%nat.
Proof.
  unfold groupby_first, groupby, group_keys. rewrite unique_constant.
  destruct l as [|a l]; [cbn; lia|].
  cbn [sort_by insert_by map flat_map snd]. rewrite app_nil_r.
  destruct (group _ k (a :: l)); cbn; lia.
Qed.

(** The number of rows of [best_dates] never exceeds the number of tiers
    asked for. *)
Lemma best_dates_length (argsort : list fnum -> list nat) (df : list Row)
    (threshold : Q) (num_tiers : nat)
    (selected : bool * list (PeerGroupChampions.tier * option PeerGroupChampions.DailyKpi)) :
  (1 <= num_tiers)%nat ->
  PeerGroupChampions.select argsort df threshold num_tiers = Ok selected ->
  (length (snd selected) <= num_tiers)%nat.
Proof.
  intros Hn Hsel. unfold PeerGroupChampions.select in Hsel.
  destruct (peer_daily_kpi_rows num_tiers (sales df)) as (frame & E & _ & _ & Ht).
  rewrite E in Hsel. cbn in Hsel. inversion Hsel; subst selected. cbn [snd].
  unfold PeerGroupChampions.best_dates, PeerGroupChampions.best_dates_with,
    PeerGroupChampions.first_per_tier.
  unfold PeerGroupChampions.assign_price_tier in Ht.
  destruct (qcut _ num_tiers (PeerGroupChampions.tier_labels num_tiers))
    as [column | e] eqn:Eq.
  - inversion Ht as [[Hd Hc Hw]]. rewrite length_map.
    rewrite <- (length_map fst), categorical_groups_all.
    unfold PeerGroupChampions.tier_labels. rewrite length_firstn. lia.
  - apply qcut_raises in Eq. subst e. inversion Ht as [[Hd Hc Hw]].
    rewrite length_map.
    pose proof (groupby_first_constant 0
                  (sort_values_descending argsort PeerGroupChampions.RevPAR
                     (PeerGroupChampions.last_minute_cases threshold
                        (PeerGroupChampions.rows frame)))).
    lia.
Qed.

Lemma qcut_labels {L : Type} (x : list Q) (q : nat) (labels : list L)
    (column : list (option L)) :
  qcut x q labels = Ok column ->
  Forall (fun o => match o with Some l => In l labels | None => True end) column.
Proof.
  unfold qcut.
  match goal with |- context [if negb ?c then _ else _] => destruct c end;
    cbn [negb]; [|discriminate].
  intros E. inversion E. apply Forall_forall. intros o Ho.
  apply in_map_iff in Ho. destruct Ho as (v & <- & _).
  match goal with |- context [if ?c then _ else _] => destruct c end; [exact I|].
  match goal with |- match ?n with _ => _ end =>
    destruct n as [l|] eqn:En; [|exact I] end.
  now apply nth_error_In in En.
Qed.

(** The tier column of the frame holds what its type allows. *)
Lemma frame_well_typed (num_tiers : nat) (df : list Sale) (frame : PeerGroupChampions.Frame) :
  PeerGroupChampions.daily_kpi num_tiers df = Ok frame ->
  PeerGroupChampions.well_typed (PeerGroupChampions.dtype frame)
    (PeerGroupChampions.rows frame).
Proof.
  intros E. destruct (peer_daily_kpi_rows num_tiers df) as (frame' & E' & _ & _ & Ht).
  assert (frame' = frame) by congruence. subst frame'.
  unfold PeerGroupChampions.assign_price_tier in Ht.
  destruct (qcut _ num_tiers (PeerGroupChampions.tier_labels num_tiers))
    as [column | e] eqn:Eq.
  - inversion Ht as [[Hd Hc Hw]]. cbn. apply qcut_labels in Eq.
    rewrite Forall_forall in Eq. apply Forall_forall. intros k Hk.
    apply (in_map PeerGroupChampions.price_tier) in Hk. rewrite <- Hc in Hk.
    apply in_map_iff in Hk. destruct Hk as (o & Eo & Ho). rewrite <- Eo.
    specialize (Eq o Ho). destruct o; cbn; [exact Eq | exact I].
  - apply qcut_raises in Eq. subst e. inversion Ht as [[Hd Hc Hw]]. cbn.
    apply Forall_forall. intros k Hk. rewrite map_map in Hc. symmetry.
    exact (ext_in_map Hc k Hk).
Qed.

Lemma find_all_false {R : Type} (P : R -> bool) (l : list R) :
  (forall r, In r l -> P r = false) -> find P l = None.
Proof.
  intros Hall. destruct (find P l) as [r|] eqn:E; [|reflexivity].
  apply find_some in E. destruct E as [Hr Pr]. rewrite (Hall r Hr) in Pr.
  discriminate.
Qed.

(** A category none of whose rows meets the threshold gets a row of
    missing values in [best_dates], whatever the sort. *)
Lemma missing_row_for_empty_tier (argsort : list fnum -> list nat) (threshold : Q)
    (categories : list PeerGroupChampions.tier_label)
    (daily_kpi : list PeerGroupChampions.DailyKpi) (c : PeerGroupChampions.tier_label) :
  In c categories ->
  (forall k, In k (PeerGroupChampions.last_minute_cases threshold daily_kpi) ->
             PeerGroupChampions.label_of k <> Some c) ->
  In (PeerGroupChampions.Labelled c, None)
     (PeerGroupChampions.best_dates argsort threshold
        (PeerGroupChampions.Categorical categories) daily_kpi).
Proof.
  intros Hc Hnone.
  unfold PeerGroupChampions.best_dates, PeerGroupChampions.best_dates_with,
    PeerGroupChampions.first_per_tier.
  apply in_map_iff. exists (c, None). split; [reflexivity|].
  apply groupby_first_categorical_In. split; [assumption|]. split; [|reflexivity].
  apply find_all_false. intros k Hk. apply take_In in Hk.
  specialize (Hnone k Hk).
  destruct (PeerGroupChampions.label_of k) as [l|]; [|reflexivity].
  destruct (PeerGroupChampions.tier_label_eqb l c) eqn:E; [|reflexivity].
  apply tier_label_eqb_eq in E. congruence.
Qed.

(** The chart loop stops with ValueError at a row of missing values. *)
Lemma chart_loop_raises
    (best_dates : list (PeerGroupChampions.tier * option PeerGroupChampions.DailyKpi))
    (t : PeerGroupChampions.tier) :
  In (t, None) best_dates ->
  mapM PeerGroupChampions.chart best_dates = Raised ValueError.
Proof.
  induction best_dates as [|[t' o] l IH]; [contradiction|].
  intros [E | Hin].
  - inversion E; subst. reflexivity.
  - cbn [mapM]. rewrite (IH Hin). now destruct o.
Qed.

(** C8 fails on the code. Three listings with one stay date each and
    characteristic prices 100, 200 and 300 fall into the three tiers; the
    sales of the dearest were all made 80 days ahead, so no row of its
    tier meets the threshold 0.5.  Line 80 still returns a row for that
    tier, made of missing values ([groupby] on the categorical column,
    [observed] left at its default), and the chart loop raises ValueError
    on it.  Had [observed=True] been passed, the tier would be absent. *)
Theorem empty_tier_missing_row :
  let at_day d := Stamp (d * 86400000000000) in
  let snap h c s p := mkRawRow (Some h) (Some 1) (Some 1) (at_day 100) (at_day c)
                        (Some s) (Some p) in
  let csv := [snap 1 80 30 100%Q; snap 1 90 20 100%Q;
              snap 2 80 30 200%Q; snap 2 90 20 200%Q;
              snap 3 10 30 300%Q; snap 3 20 20 300%Q] in
  exists df frame low mid,
    normalize csv = Ok df
    /\ PeerGroupChampions.daily_kpi 3 (sales df) = Ok frame
    /\ map PeerGroupChampions.price_tier (PeerGroupChampions.rows frame)
       = [Some (PeerGroupChampions.Labelled PeerGroupChampions.Ume);
          Some (PeerGroupChampions.Labelled PeerGroupChampions.Take);
          Some (PeerGroupChampions.Labelled PeerGroupChampions.Matsu)]
    /\ PeerGroupChampions.select argsort_stable df (1 # 2) 3
       = Ok (false, [(PeerGroupChampions.Labelled PeerGroupChampions.Ume, Some low);
                     (PeerGroupChampions.Labelled PeerGroupChampions.Take, Some mid);
                     (PeerGroupChampions.Labelled PeerGroupChampions.Matsu, None)])
    /\ PeerGroupChampions.analyze_and_plot_peer_group_champions
         argsort_stable csv (1 # 2) 3 = Raised ValueError
    /\ PeerGroupChampions.best_dates_with true argsort_stable (1 # 2)
         (PeerGroupChampions.dtype frame) (PeerGroupChampions.rows frame)
       = [(PeerGroupChampions.Labelled PeerGroupChampions.Ume, Some low);
          (PeerGroupChampions.Labelled PeerGroupChampions.Take, Some mid)].
Proof.
  cbn zeta. do 4 eexists.
  split; [vm_compute; reflexivity|].
  split; [vm_compute; reflexivity|].
  split; [reflexivity|].
  split; [vm_compute; reflexivity|].
  split; vm_compute; reflexivity.
Qed.

(* ================================================================== *)
(** * The two argsorts *)
(* ================================================================== *)

Lemma fnum_leb_total (a b : fnum) : fnum_leb a b = true \/ fnum_leb b a = true.
Proof.
  destruct a, b; cbn; auto. apply Qle_bool_total.
Qed.

Lemma fnum_leb_trans (a b c : fnum) :
  fnum_leb a b = true -> fnum_leb b c = true -> fnum_leb a c = true.
Proof.
  destruct a, b, c; cbn; try congruence. apply Qle_bool_trans.
Qed.

Lemma fnum_ltb_leb (a b : fnum) : fnum_ltb a b = true -> fnum_leb a b = true.
Proof.
  unfold fnum_ltb. rewrite negb_true_iff. intros E.
  destruct (fnum_leb_total a b); congruence.
Qed.

Lemma enumerate_In {A : Type} (l : list A) (d : A) (i : nat) (v : A) :
  In (i, v) (enumerate l) -> (i < length l)%nat /\ v = nth i l d.
Proof.
  unfold enumerate. intros Hin.
  destruct (In_nth _ _ (0%nat, d) Hin) as (k & Hk & Ek).
  rewrite length_combine, length_seq, Nat.min_id in Hk.
  rewrite combine_nth in Ek by now rewrite length_seq.
  rewrite seq_nth in Ek by assumption. inversion Ek; subst. auto.
Qed.

Lemma enumerate_fst {A : Type} (l : list A) : map fst (enumerate l) = seq 0 (length l).
Proof.
  unfold enumerate. apply map_fst_combine. now rewrite length_seq.
Qed.

Lemma enumerate_increasing {A : Type} (l : list A) :
  StronglySorted (fun a b : nat * A => (fst a < fst b)%nat) (enumerate l).
Proof.
  apply StronglySorted_map_inv. rewrite enumerate_fst.
  generalize 0%nat. induction (length l) as [|n IH]; intros s; simpl; constructor.
  - apply IH.
  - apply Forall_forall. intros j Hj. apply in_seq in Hj. lia.
Qed.

Lemma perm_covers (n : nat) (ix : list nat) :
  Permutation ix (seq 0 n) -> covers n ix = true.
Proof.
  intros Hp. unfold covers. apply andb_true_iff. split.
  - apply Nat.eqb_eq. rewrite (Permutation_length Hp). apply length_seq.
  - apply forallb_forall. intros i Hi. apply existsb_exists. exists i.
    split; [|apply Nat.eqb_refl].
    eapply Permutation_in; [symmetry; eassumption | assumption].
Qed.

Section Argsorts.

Variable items : list fnum.

(** The order a stable ascending sort leaves the enumerated items in. *)
Let stable_order (a b : nat * fnum) : Prop :=
  fnum_ltb (snd a) (snd b) = true
  \/ (fnum_eqb (snd a) (snd b) = true /\ (fst a < fst b)%nat).

Let by_value (a b : nat * fnum) : bool := fnum_leb (snd a) (snd b).

Lemma stable_order_intro (a b : nat * fnum) :
  fnum_leb (snd a) (snd b) = true -> (fst a < fst b)%nat -> stable_order a b.
Proof.
  intros Hle Hlt. unfold stable_order, fnum_ltb, fnum_eqb. rewrite Hle.
  destruct (fnum_leb (snd b) (snd a)); [right | left]; auto.
Qed.

Lemma stable_order_leb (a b : nat * fnum) :
  stable_order a b -> fnum_leb (snd a) (snd b) = true.
Proof.
  intros [Hlt | [Heq _]]; [now apply fnum_ltb_leb|].
  unfold fnum_eqb in Heq. now apply andb_true_iff in Heq.
Qed.

Lemma insert_stable (x : nat * fnum) (s : list (nat * fnum)) :
  StronglySorted stable_order s ->
  Forall (fun y => (fst x < fst y)%nat) s ->
  StronglySorted stable_order (insert_by by_value x s).
Proof.
  induction 1 as [|y s Hs IH Hy]; intros Hx; simpl.
  - repeat constructor.
  - inversion Hx as [|? ? Hxy Hxs]; subst.
    destruct (by_value x y) eqn:E.
    + constructor; [now constructor|].
      constructor; [now apply stable_order_intro|].
      rewrite Forall_forall in *. intros z Hz.
      apply stable_order_intro; [|now apply Hxs].
      apply (fnum_leb_trans _ (snd y)); [exact E|].
      now apply stable_order_leb, Hy.
    + constructor; [now apply IH|].
      apply (Permutation_Forall (Permutation_sym (insert_by_perm by_value x s))).
      constructor; [|assumption].
      left. unfold fnum_ltb. unfold by_value in E. now rewrite E.
Qed.

Lemma sort_stable (l : list (nat * fnum)) :
  StronglySorted (fun a b => (fst a < fst b)%nat) l ->
  StronglySorted stable_order (sort_by by_value l).
Proof.
  induction 1 as [|x l Hs IH Hx]; simpl; [constructor|].
  apply insert_stable; [assumption|].
  apply (Permutation_Forall (Permutation_sym (sort_by_perm by_value l))).
  exact Hx.
Qed.

Lemma sorted_enumerate_covers (le : nat * fnum -> nat * fnum -> bool) :
  covers (length items) (map fst (sort_by le (enumerate items))) = true.
Proof.
  apply perm_covers. rewrite <- enumerate_fst.
  apply Permutation_map, sort_by_perm.
Qed.

Lemma sorted_enumerate_items (le : nat * fnum -> nat * fnum -> bool) :
  Forall (fun a => snd a = item items (fst a)) (sort_by le (enumerate items)).
Proof.
  apply Forall_forall. intros [i v] Hin. apply sort_by_In in Hin.
  now apply (enumerate_In items (Fin 0)) in Hin.
Qed.

(** [argsort_stable] is a stable argsort of every column. *)
Lemma argsort_stable_spec : is_stable_argsort items (argsort_stable items) = true.
Proof.
  unfold is_stable_argsort, argsort_stable. apply andb_true_iff. split.
  - apply sorted_enumerate_covers.
  - apply all_pairs_sorted, StronglySorted_map.
    eapply (StronglySorted_weaken _ _ (fun a => snd a = item items (fst a)));
      [| apply sorted_enumerate_items | apply sort_stable, enumerate_increasing].
    intros a b Ea Eb. rewrite <- Ea, <- Eb.
    rewrite orb_true_iff, andb_true_iff, Nat.ltb_lt. exact (fun H => H).
Qed.

End Argsorts.

Lemma stable_is_argsort (items : list fnum) (ix : list nat) :
  is_stable_argsort items ix = true -> is_argsort items ix = true.
Proof.
  unfold is_stable_argsort, is_argsort. rewrite !andb_true_iff, !all_pairs_sorted.
  intros [Hc Hs]. split; [assumption|].
  eapply (StronglySorted_weaken _ _ (fun _ => True)); [| |exact Hs].
  - intros a b _ _. rewrite orb_true_iff, andb_true_iff.
    intros [Hlt | [Heq _]]; [now apply fnum_ltb_leb|].
    unfold fnum_eqb in Heq. now apply andb_true_iff in Heq.
  - apply Forall_forall. auto.
Qed.

(* ================================================================== *)
(** * Ties in RevPAR *)
(* ================================================================== *)

(** The quicksort on the 18 items of the table below (the RevPAR column
    reversed: 18, 17, ..., 4, 99, 99, 1).  The median of the items at 0, 8
    and 17 is 10; putting it aside at position 16 moves the 99 of position
    16 to position 8, in front of the 99 of position 15; the partition
    leaves the pivot at position 7, and the insertion sort of the
    positions 8 to 17 keeps the two ties in that order.  On the first 17
    items there is no partition and ties keep their order. *)
Example aquicksort_trace :
  let items :=
    rev (map (fun z => Fin (inject_Z z))
             [1; 99; 99; 4; 5; 6; 7; 8; 9; 10; 11; 12; 13; 14; 15; 16; 17; 18]) in
  let sorted := [17; 14; 13; 12; 11; 10; 9; 8; 7; 6; 5; 4; 3; 2; 1; 0; 16; 15]%nat in
  partition items (seq 0 18) 0 17
  = ([17; 14; 13; 12; 11; 10; 9; 8; 16; 6; 5; 4; 3; 2; 1; 15; 7; 0]%nat, 7%nat)
  /\ aquicksort items = Some sorted
  /\ is_argsort items sorted = true
  /\ is_stable_argsort items sorted = false
  /\ exists ix, aquicksort (firstn 17 items) = Some ix
                /\ is_stable_argsort (firstn 17 items) ix = true.
Proof.
  cbn zeta. split; [vm_compute; reflexivity|].
  split; [vm_compute; reflexivity|].
  split; [vm_compute; reflexivity|].
  split; [vm_compute; reflexivity|].
  eexists. split; vm_compute; reflexivity.
Qed.

(** The claim of C1 fails under numpy's quicksort as soon as the sorted
    frame has more than 17 rows.  One listing has 18 stay dates, all sold
    in their last 30 days; the second and the third have the largest
    RevPAR, 99, the others 1, 4, 5, ..., 18.  [nargsort] reverses the
    column, so the two ties sit at positions 15 and 16 of the 18 items;
    the partition puts its pivot aside with a swap of the middle position
    and position 16, which carries the tie at 16 in front of the tie at
    15, and the insertion sort of the upper range leaves them so.  The
    script then selects the third stay date, not the second, which comes
    first in the order before the sort; a stable sort selects the
    second. *)
Lemma exemplar_tie_not_first :
  let at_day d := Stamp (d * 86400000000000) in
  let stay (x : Z * Z) :=
    [mkRawRow (Some 1) (Some 1) (Some 1) (at_day (fst x)) (at_day (fst x - 20))
       (Some 30) (Some (inject_Z (3 * snd x)));
     mkRawRow (Some 1) (Some 1) (Some 1) (at_day (fst x)) (at_day (fst x - 10))
       (Some 20) (Some (inject_Z (3 * snd x)))] in
  let csv :=
    flat_map stay
      [(100, 1); (101, 99); (102, 99); (103, 4); (104, 5); (105, 6); (106, 7);
       (107, 8); (108, 9); (109, 10); (110, 11); (111, 12); (112, 13); (113, 14);
       (114, 15); (115, 16); (116, 17); (117, 18)] in
  exists df before first second rest ix,
    normalize csv = Ok df
    /\ OptimalBookingCurves.daily_kpi (sales df) = before :: first :: second :: rest
    /\ OptimalBookingCurves.last_minute_success_cases (1 # 2)
         (before :: first :: second :: rest)
       = before :: first :: second :: rest
    /\ length rest = 15%nat
    /\ OptimalBookingCurves.RevPAR first = OptimalBookingCurves.RevPAR second
    /\ Forall (fun k => fnum_ltb (OptimalBookingCurves.RevPAR k)
                                 (OptimalBookingCurves.RevPAR first) = true)
              (before :: rest)
    /\ aquicksort (rev (map OptimalBookingCurves.RevPAR
                          (before :: first :: second :: rest))) = Some ix
    /\ is_argsort (rev (map OptimalBookingCurves.RevPAR
                          (before :: first :: second :: rest))) ix = true
    /\ OptimalBookingCurves.analyze_and_plot_optimal_booking_curves
         argsort_quicksort csv (1 # 2) = Ok [second]
    /\ OptimalBookingCurves.analyze_and_plot_optimal_booking_curves
         argsort_stable csv (1 # 2) = Ok [first]
    /\ ~ first_of_ties OptimalBookingCurves.RevPAR
           (fun k => eqb (kpi_listing (OptimalBookingCurves.kpi k)) (1, 1, 1))
           (before :: first :: second :: rest) second.
Proof.
  cbn zeta. do 6 eexists.
  split; [vm_compute; reflexivity|].
  split; [vm_compute; reflexivity|].
  split; [vm_compute; reflexivity|].
  split; [reflexivity|].
  split; [vm_compute; reflexivity|].
  split; [repeat constructor|].
  split; [vm_compute; reflexivity|].
  split; [vm_compute; reflexivity|].
  split; [vm_compute; reflexivity|].
  split; [vm_compute; reflexivity|].
  intros (i & Hi & Hfirst).
  specialize (Hfirst 1%nat _ eq_refl eq_refl eq_refl).
  destruct i as [|[|i]]; [discriminate Hi | discriminate Hi | lia].
Qed.

(** The same table under a stable argsort: the first of the two tied
    stay dates is selected, as [exemplar_selection] says. *)
Lemma exemplar_selection_witness :
  let kpi_at d := mkKpi (1, 1, 1, d) 120000 10 30 in
  let row d := OptimalBookingCurves.mkDailyKpi (kpi_at d) (Fin 4000) 0 (Fin 0) 10 (Fin 1) in
  let daily_kpi := [row 100; row 200] in
  OptimalBookingCurves.best_dates argsort_stable (1 # 2) daily_kpi = [row 100]
  /\ first_of_ties OptimalBookingCurves.RevPAR
       (fun k => eqb (kpi_listing (OptimalBookingCurves.kpi k)) (1, 1, 1))
       (OptimalBookingCurves.last_minute_success_cases (1 # 2) daily_kpi) (row 100).
Proof.
  cbn zeta. split; [reflexivity|].
  refine (proj2 (proj2 (proj2 (proj2
    (proj1 (exemplar_selection argsort_stable (1 # 2))
       [OptimalBookingCurves.mkDailyKpi (mkKpi (1, 1, 1, 100) 120000 10 30)
          (Fin 4000) 0 (Fin 0) 10 (Fin 1);
        OptimalBookingCurves.mkDailyKpi (mkKpi (1, 1, 1, 200) 120000 10 30)
          (Fin 4000) 0 (Fin 0) 10 (Fin 1)]
       (1, 1, 1) eq_refl)) _ _ _)) eq_refl).
  - left. reflexivity.
  - reflexivity.
Defined.

(* ================================================================== *)
(** * Sums over the groups of a frame *)
(* ================================================================== *)

Lemma sumZ_app (l l' : list Z) : sumZ (l ++ l') = sumZ l + sumZ l'.
Proof.
  induction l as [|x l IH]; simpl; [reflexivity|]. rewrite IH. lia.
Qed.

Lemma sumZ_perm (l l' : list Z) : Permutation l l' -> sumZ l = sumZ l'.
Proof.
  induction 1; simpl; lia.
Qed.

Lemma sumZ_indicator {K : Type} `{OrdLaws K} (a : K) (v : Z) (keys : list K) :
  NoDup keys -> In a keys ->
  sumZ (map (fun k => if eqb a k then v else 0) keys) = v.
Proof.
  induction 1 as [|k keys Hk Hnd IH]; [contradiction|].
  intros [-> | Hin]; simpl.
  - rewrite eqb_refl.
    assert (E : sumZ (map (fun k => if eqb a k then v else 0) keys) = 0).
    { clear IH Hnd. induction keys as [|k keys IH]; [reflexivity|]. simpl.
      destruct (eqb a k) eqn:E.
      - apply eqb_eq in E. subst k. exfalso. apply Hk. now left.
      - rewrite IH; [reflexivity|]. intros Hin. apply Hk. now right. }
    lia.
  - destruct (eqb a k) eqn:E.
    + apply eqb_eq in E. subst k. contradiction.
    + now rewrite IH.
Qed.

(** The sums of the groups add up to the sum of the frame. *)
Lemma sum_over_groups {R K : Type} `{OrdLaws K} (key : R -> K) (f : R -> Z)
    (keys : list K) (l : list R) :
  NoDup keys -> (forall r, In r l -> In (key r) keys) ->
  sumZ (map (fun k => sumZ (map f (group key k l))) keys) = sumZ (map f l).
Proof.
  intros Hnd. induction l as [|x l IH]; intros Hin.
  - simpl. clear Hnd Hin. induction keys as [|k keys IHk]; [reflexivity|].
    simpl. exact IHk.
  - assert (E : forall k, sumZ (map f (group key k (x :: l)))
                          = (if eqb (key x) k then f x else 0)
                            + sumZ (map f (group key k l))).
    { intros k. unfold group. simpl. destruct (eqb (key x) k); reflexivity. }
    rewrite (map_ext _ _ E).
    assert (Hsplit : forall (u v : K -> Z) ks,
              sumZ (map (fun k => u k + v k) ks) = sumZ (map u ks) + sumZ (map v ks)).
    { intros u v ks. induction ks as [|k ks IHk]; simpl; lia. }
    rewrite Hsplit, IH by (intros; apply Hin; now right).
    rewrite sumZ_indicator; [reflexivity | assumption | apply Hin; now left].
Qed.

Lemma groupby_sums_total {R K : Type} `{OrdLaws K} (key : R -> K) (f : R -> Z)
    (l : list R) :
  sumZ (map snd (map (fun g => (fst g, sumZ (map f (snd g)))) (groupby key l)))
  = sumZ (map f l).
Proof.
  rewrite (groupby_agg_keyed key (fun g => sumZ (map f g)) l), map_map. cbn [snd].
  apply sum_over_groups; [apply group_keys_NoDup|].
  intros r Hr. apply group_keys_In. now apply in_map.
Qed.

Lemma sumZ_partition {A : Type} (f : A -> Z) (p : A -> bool) (l : list A) :
  sumZ (map f (filter p l)) + sumZ (map f (filter (fun a => negb (p a)) l))
  = sumZ (map f l).
Proof.
  induction l as [|a l IH]; simpl; [reflexivity|].
  destruct (p a); simpl; lia.
Qed.

(* ================================================================== *)
(** * Running sums *)
(* ================================================================== *)

Lemma cumsum_from_length (a : Z) (l : list Z) :
  length (BookingCurve.cumsum_from a l) = length l.
Proof.
  revert a. induction l as [|x l IH]; intros a; simpl; auto.
Qed.

Lemma cumsum_from_shift (b a : Z) (l : list Z) :
  map (Z.add b) (BookingCurve.cumsum_from a l) = BookingCurve.cumsum_from (b + a) l.
Proof.
  revert a. induction l as [|x l IH]; intros a; simpl; [reflexivity|].
  rewrite IH. now rewrite Z.add_assoc.
Qed.

Lemma cumsum_from_last (a : Z) (l : list Z) (d : Z) :
  l <> [] -> last (BookingCurve.cumsum_from a l) d = a + sumZ l.
Proof.
  revert a. induction l as [|x l IH]; intros a Hne; [congruence|].
  destruct l as [|y l]; [simpl; lia|].
  change (last (BookingCurve.cumsum_from a (x :: y :: l)) d)
    with (last (BookingCurve.cumsum_from (a + x) (y :: l)) d).
  rewrite IH by discriminate. simpl. lia.
Qed.

Lemma cumsum_from_increasing (a : Z) (l : list Z) :
  Forall (fun x => 0 <= x) l ->
  StronglySorted Z.le (BookingCurve.cumsum_from a l)
  /\ Forall (fun v => a <= v) (BookingCurve.cumsum_from a l).
Proof.
  intros Hl. revert a. induction Hl as [|x l Hx Hl IH]; intros a; simpl.
  - split; constructor.
  - destruct (IH (a + x)) as [Hs Hge]. split.
    + constructor; [assumption|]. exact Hge.
    + constructor; [lia|]. eapply Forall_impl; [|exact Hge]. simpl. intros; lia.
Qed.

(* ================================================================== *)
(** * The booking curve *)
(* ================================================================== *)

Lemma sort_by_map {A B : Type} (key : A -> B) (le : B -> B -> bool) (l : list A) :
  map key (sort_by (fun a b => le (key a) (key b)) l) = sort_by le (map key l).
Proof.
  induction l as [|x l IH]; simpl; [reflexivity|]. rewrite <- IH.
  generalize (sort_by (fun a b => le (key a) (key b)) l) as s.
  induction s as [|y s IHs]; simpl; [reflexivity|].
  destruct (le (key x) (key y)); simpl; [reflexivity|]. now rewrite IHs.
Qed.

Lemma sort_by_sorted_id {A : Type} (le : A -> A -> bool) (l : list A) :
  StronglySorted (fun a b => le a b = true) l -> sort_by le l = l.
Proof.
  induction 1 as [|x l Hs IH Hx]; simpl; [reflexivity|]. rewrite IH.
  destruct l as [|y l]; [reflexivity|]. simpl.
  inversion Hx as [|? ? Hy _]; subst. now rewrite Hy.
Qed.

Lemma group_keys_sorted {R K : Type} `{OrdLaws K} (key : R -> K) (df : list R) :
  StronglySorted (fun a b => leb a b = true) (group_keys key df).
Proof.
  unfold group_keys. apply sort_by_sorted; [apply leb_total | apply leb_trans].
Qed.

Lemma sorted_nodup_strict (l : list Z) :
  StronglySorted (fun a b => leb a b = true) l -> NoDup l -> StronglySorted Z.lt l.
Proof.
  induction 1 as [|x l Hs IH Hx]; intros Hnd; [constructor|].
  inversion Hnd as [|? ? Hnin Hnd']; subst. constructor; [now apply IH|].
  rewrite Forall_forall in *. intros y Hy. specialize (Hx y Hy).
  unfold leb, Ord_Z in Hx. apply Z.leb_le in Hx.
  assert (x <> y) by (intros ->; contradiction). lia.
Qed.

Section Curve.

Variable df : list Sale.
Variable g : stay.
Variable g_max_stock : Z.

Let c := BookingCurve.curve df g g_max_stock.
Let by_day := groupby BookingCurve.observed_day (BookingCurve.window df g).
Let sums :=
  sort_values fst (map (fun d => (fst d, sumZ (map sold (snd d)))) by_day).

Lemma curve_sums_days :
  map fst sums = group_keys BookingCurve.observed_day (BookingCurve.window df g).
Proof.
  unfold sums, sort_values.
  rewrite (sort_by_map fst leb). unfold by_day, groupby. rewrite !map_map. cbn [fst].
  rewrite map_id. apply sort_by_sorted_id, group_keys_sorted.
Qed.

Lemma curve_sums_total :
  sumZ (map snd sums) = sumZ (map sold (BookingCurve.window df g)).
Proof.
  unfold sums, sort_values.
  rewrite (sumZ_perm _ _ (Permutation_map snd (sort_by_perm _ _))).
  apply groupby_sums_total.
Qed.

Lemma curve_daily_sold :
  map fst (BookingCurve.daily_sold c)
  = group_keys BookingCurve.observed_day (BookingCurve.window df g)
  /\ map snd (BookingCurve.daily_sold c)
     = BookingCurve.cumsum_from (BookingCurve.sold_before c) (map snd sums).
Proof.
  unfold c, BookingCurve.curve. cbn [BookingCurve.daily_sold BookingCurve.sold_before].
  fold by_day. fold sums. split.
  - rewrite map_fst_combine; [apply curve_sums_days|].
    unfold BookingCurve.cumsum. now rewrite !length_map, cumsum_from_length, length_map.
  - rewrite map_snd_combine.
    + unfold BookingCurve.cumsum. rewrite cumsum_from_shift. now rewrite Z.add_0_r.
    + unfold BookingCurve.cumsum. now rewrite !length_map, cumsum_from_length, length_map.
Qed.

Lemma curve_daily_price_days :
  map fst (BookingCurve.daily_price c) = map fst (BookingCurve.daily_sold c).
Proof.
  rewrite (proj1 curve_daily_sold).
  unfold c, BookingCurve.curve. cbn [BookingCurve.daily_price].
  unfold groupby. rewrite !map_map. cbn [fst]. apply map_id.
Qed.

(** The units sold before the window and those inside it are all the units
    of the stay date. *)
Lemma curve_before_and_window :
  BookingCurve.sold_before c + sumZ (map sold (BookingCurve.window df g))
  = sumZ (map sold (events_of g df)).
Proof.
  unfold c, BookingCurve.curve, BookingCurve.window. cbn [BookingCurve.sold_before].
  rewrite <- (sumZ_partition sold
                (fun s => created_at (snapshot s) <? snd g - Timedelta 120)
                (events_of g df)).
  f_equal. f_equal. f_equal. apply filter_ext. intros s. apply Z.leb_antisym.
Qed.

Lemma curve_last :
  BookingCurve.window df g <> [] ->
  BookingCurve.daily_sold c <> []
  /\ last (map snd (BookingCurve.daily_sold c)) 0 = sumZ (map sold (events_of g df)).
Proof.
  intros Hne.
  assert (Hk : group_keys BookingCurve.observed_day (BookingCurve.window df g) <> []).
  { destruct (BookingCurve.window df g) as [|s w] eqn:E; [congruence|].
    intros Hnil.
    assert (Hin : In (BookingCurve.observed_day s)
                     (group_keys BookingCurve.observed_day (s :: w)))
      by (apply group_keys_In; now left).
    rewrite Hnil in Hin. destruct Hin. }
  destruct curve_daily_sold as [Hd Hs]. split.
  - intros E. rewrite E in Hd. simpl in Hd. now rewrite <- Hd in Hk.
  - rewrite Hs, cumsum_from_last.
    + rewrite curve_sums_total. apply curve_before_and_window.
    + intros E. rewrite <- curve_sums_days in Hk.
      destruct sums; [now apply Hk | discriminate].
Qed.

End Curve.

Lemma cumsum_from_upper (a : Z) (l : list Z) :
  Forall (fun x => 0 <= x) l ->
  Forall (fun v => v <= a + sumZ l) (BookingCurve.cumsum_from a l).
Proof.
  intros Hl. revert a. induction Hl as [|x l Hx Hl IH]; intros a; simpl; constructor.
  - pose proof (sumZ_nonneg l Hl). lia.
  - eapply Forall_impl; [|apply (IH (a + x))]. simpl. intros; lia.
Qed.

Lemma normalize_day_midnight (t : Z) :
  BookingCurve.normalize_day t mod BookingCurve.nanoseconds_per_day = 0
  /\ BookingCurve.normalize_day t <= t
       < BookingCurve.normalize_day t + BookingCurve.nanoseconds_per_day.
Proof.
  unfold BookingCurve.normalize_day.
  assert (Hd : 0 < BookingCurve.nanoseconds_per_day) by reflexivity.
  pose proof (Z.mod_pos_bound t _ Hd) as Hb. split; [|lia].
  rewrite Zminus_mod_idemp_r, Z.sub_diag. reflexivity.
Qed.

(** X1. The booking curve of a stay date, as the chart loop computes it from
    the frame of the sale derivation: the days are distinct midnights in
    ascending order, each the day of a snapshot of the window; the
    cumulative units never decrease, start at the units sold before the
    window or above and never pass the units sold in all; the price series
    has the same days. *)
Theorem booking_curve_shape (df : list Row) (g : stay) (g_max_stock : Z) :
  let c := BookingCurve.curve (sales df) g g_max_stock in
  let total := sumZ (map sold (events_of g (sales df))) in
  0 <= BookingCurve.sold_before c
  /\ StronglySorted Z.lt (map fst (BookingCurve.daily_sold c))
  /\ Forall (fun d => d mod BookingCurve.nanoseconds_per_day = 0
                      /\ exists s, In s (BookingCurve.window (sales df) g)
                                   /\ BookingCurve.observed_day s = d)
            (map fst (BookingCurve.daily_sold c))
  /\ StronglySorted Z.le (map snd (BookingCurve.daily_sold c))
  /\ Forall (fun v => BookingCurve.sold_before c <= v <= total)
            (map snd (BookingCurve.daily_sold c))
  /\ map fst (BookingCurve.daily_price c) = map fst (BookingCurve.daily_sold c)
  /\ (length (BookingCurve.daily_sold c)
      <= length (BookingCurve.window (sales df) g))%nat.
Proof.
  cbn zeta.
  destruct (curve_daily_sold (sales df) g g_max_stock) as [Hd Hs].
  pose proof (events_sold_nonneg g df) as Hnn.
  assert (Hb : 0 <= BookingCurve.sold_before
                      (BookingCurve.curve (sales df) g g_max_stock)).
  { unfold BookingCurve.curve. cbn [BookingCurve.sold_before].
    apply (sumZ_filter_le sold _ _ Hnn). }
  assert (Hw : Forall (fun s => 0 <= sold s) (BookingCurve.window (sales df) g)).
  { unfold BookingCurve.window. apply Forall_forall. intros s Hin.
    apply filter_In in Hin. rewrite Forall_forall in Hnn. now apply Hnn. }
  set (sums := sort_values fst
                 (map (fun d => (fst d, sumZ (map sold (snd d))))
                      (groupby BookingCurve.observed_day
                         (BookingCurve.window (sales df) g)))) in *.
  assert (Hsums : Forall (fun x => 0 <= x) (map snd sums)).
  { apply Forall_forall. intros x Hx. apply in_map_iff in Hx.
    destruct Hx as ([d v] & <- & Hin). unfold sums, sort_values in Hin.
    apply sort_by_In in Hin. apply in_map_iff in Hin.
    destruct Hin as ([d' rows] & E & Hg). inversion E; subst. cbn.
    apply groupby_In in Hg. destruct Hg as [_ ->].
    apply sumZ_nonneg. apply Forall_forall. intros x Hx. apply in_map_iff in Hx.
    destruct Hx as (s & <- & Hin). apply group_In in Hin.
    rewrite Forall_forall in Hw. now apply Hw. }
  split; [assumption|]. split.
  { rewrite Hd. apply sorted_nodup_strict;
      [apply group_keys_sorted | apply group_keys_NoDup]. }
  split.
  { rewrite Hd. apply Forall_forall. intros d Hin. apply group_keys_In in Hin.
    apply in_map_iff in Hin. destruct Hin as (s & <- & Hin).
    split; [apply normalize_day_midnight | eauto]. }
  split; [rewrite Hs; now apply cumsum_from_increasing|]. split.
  { rewrite Hs. pose proof (cumsum_from_increasing
      (BookingCurve.sold_before (BookingCurve.curve (sales df) g g_max_stock))
      _ Hsums) as [_ Hlo].
    pose proof (cumsum_from_upper
      (BookingCurve.sold_before (BookingCurve.curve (sales df) g g_max_stock))
      _ Hsums) as Hhi.
    unfold sums in Hhi. rewrite curve_sums_total, curve_before_and_window in Hhi.
    rewrite Forall_forall in *. intros v Hv. split; [now apply Hlo | now apply Hhi]. }
  split; [apply curve_daily_price_days|].
  rewrite <- (length_map fst), Hd. unfold group_keys.
  rewrite sort_by_length.
  rewrite <- (length_map BookingCurve.observed_day (BookingCurve.window (sales df) g)).
  apply unique_length_le.
Qed.

Lemma optimal_best_dates_case (argsort : list fnum -> list nat) (threshold : Q)
    (daily_kpi : list OptimalBookingCurves.DailyKpi)
    (best : OptimalBookingCurves.DailyKpi) :
  In best (OptimalBookingCurves.best_dates argsort threshold daily_kpi) ->
  In best daily_kpi
  /\ fnum_leb (Fin threshold) (OptimalBookingCurves.last_30_days_booking_ratio best)
     = true.
Proof.
  unfold OptimalBookingCurves.best_dates. rewrite in_map_iff.
  intros ([l b] & E & Hin). cbn in E. subst b.
  apply groupby_first_In in Hin. apply find_some in Hin. destruct Hin as [Hin _].
  apply take_In in Hin. unfold OptimalBookingCurves.last_minute_success_cases in Hin.
  now apply filter_In in Hin.
Qed.

(** A positive ratio needs a sale in the last 30 days. *)
Lemma positive_ratio_late_sale (df : list Sale) (k : Kpi) (threshold : Q) :
  In k (KpiAggregator.daily_kpi df) ->
  (0 < threshold)%Q ->
  fnum_leb (Fin threshold)
    (div_fillna0 (inject_Z (sold_late (kpi_stay k) df)) (inject_Z (total_sold k)))
  = true ->
  0 < sold_late (kpi_stay k) df.
Proof.
  intros Hk Hthr Hle. destruct (daily_kpi_totals df k Hk) as (_ & _ & Hpos).
  rewrite div_fillna0_nonzero in Hle by lia. cbn in Hle.
  apply Qle_bool_iff in Hle.
  destruct (Z_lt_le_dec 0 (sold_late (kpi_stay k) df)) as [Hl | Hl]; [assumption|].
  exfalso. apply (Qlt_not_le _ _ Hthr). eapply Qle_trans; [exact Hle|].
  apply Qle_shift_div_r; [unfold Qlt, inject_Z; simpl; lia|].
  rewrite Qmult_0_l. unfold Qle, inject_Z; simpl; lia.
Qed.

Lemma late_sale_in_window (df : list Sale) (g : stay) :
  0 < sold_late g df -> BookingCurve.window df g <> [].
Proof.
  unfold sold_late. intros Hpos.
  destruct (filter (observed_from (snd g - Timedelta 30)) (events_of g df))
    as [|s rest] eqn:E; [simpl in Hpos; lia|].
  assert (Hs : In s (filter (observed_from (snd g - Timedelta 30)) (events_of g df)))
    by (rewrite E; now left).
  apply filter_In in Hs. destruct Hs as [Hs Hl].
  unfold observed_from in Hl. apply Z.leb_le in Hl.
  intros Hw.
  assert (Hin : In s (BookingCurve.window df g)).
  { unfold BookingCurve.window. apply filter_In. split; [assumption|].
    apply Z.leb_le. unfold Timedelta in *. lia. }
  rewrite Hw in Hin. destruct Hin.
Qed.

Lemma mapM_In {A B : Type} (f : A -> result B) (l : list A) (bs : list B) (b : B) :
  mapM f l = Ok bs -> In b bs -> exists a, In a l /\ f a = Ok b.
Proof.
  revert bs. induction l as [|a l IH]; intros bs; simpl.
  - intros E. inversion E; subst. contradiction.
  - destruct (f a) as [b'|e] eqn:Ea; [|discriminate]. cbn [bind].
    destruct (mapM f l) as [bs'|e] eqn:El; [|discriminate]. cbn [bind].
    intros E. inversion E; subst. intros [<- | Hin].
    + exists a. auto.
    + destruct (IH bs' eq_refl Hin) as (a' & Ha' & Ea'). exists a'. auto.
Qed.

(** The curve of a row of [daily_kpi] whose last-30-days ratio meets a
    positive threshold has a point, and its last point is the row's
    [total_sold]. *)
Lemma curve_of_late_booking (df : list Sale) (k : Kpi) (threshold : Q) (m : Z) :
  In k (KpiAggregator.daily_kpi df) ->
  (0 < threshold)%Q ->
  fnum_leb (Fin threshold)
    (div_fillna0 (inject_Z (sold_late (kpi_stay k) df)) (inject_Z (total_sold k)))
  = true ->
  BookingCurve.daily_sold (BookingCurve.curve df (kpi_stay k) m) <> []
  /\ last (map snd (BookingCurve.daily_sold (BookingCurve.curve df (kpi_stay k) m))) 0
     = total_sold k.
Proof.
  intros Hk Hthr Hle.
  pose proof (positive_ratio_late_sale df k threshold Hk Hthr Hle) as Hlate.
  apply late_sale_in_window in Hlate.
  destruct (curve_last df (kpi_stay k) m Hlate) as [Hne Hlast].
  split; [assumption|]. rewrite Hlast.
  now destruct (daily_kpi_totals df k Hk) as (-> & _).
Qed.

Lemma chart_loop_In (df : list Sale)
    (best_dates : list (PeerGroupChampions.tier * option PeerGroupChampions.DailyKpi))
    (t : PeerGroupChampions.tier) (g : PeerGroupChampions.DailyKpi)
    (c : BookingCurve.Curve) :
  In (t, g, c) (fst (BookingCurve.chart_loop df best_dates)) ->
  In (t, Some g) best_dates
  /\ c = BookingCurve.curve df (kpi_stay (PeerGroupChampions.kpi g))
                            (kpi_max_stock (PeerGroupChampions.kpi g)).
Proof.
  induction best_dates as [|[t' o] rest IH]; [intros []|].
  cbn [BookingCurve.chart_loop]. unfold PeerGroupChampions.chart. cbn [fst snd].
  destruct o as [g'|]; [|intros []].
  cbn [fst snd]. intros [E | Hin].
  - injection E as -> -> <-. split; [now left | reflexivity].
  - destruct (IH Hin) as [Hb Hc]. split; [now right | assumption].
Qed.

(** X2. The charts of both scripts, for a positive threshold: the cumulative
    line of every chart that is drawn has a point and ends at the
    [total_sold] of the exemplar it is drawn for; the horizontal line is
    at the exemplar's [max_stock]; in the first script the line starts
    from the exemplar's [sold_before_120].  In the second script this
    holds of every chart drawn, also of those drawn before a row of
    missing values ends the loop. *)
Theorem booking_curve_reaches_total (argsort : list fnum -> list nat)
    (csv : list RawRow) (last_minute_threshold : Q) (num_tiers : nat) :
  (0 < last_minute_threshold)%Q ->
  (forall curves g c,
      BookingCurve.plot_optimal_booking_curves argsort csv last_minute_threshold
      = Ok curves ->
      In (g, c) curves ->
      BookingCurve.sold_before c = OptimalBookingCurves.sold_before_120 g
      /\ BookingCurve.full_line c = kpi_max_stock (OptimalBookingCurves.kpi g)
      /\ BookingCurve.daily_sold c <> []
      /\ last (map snd (BookingCurve.daily_sold c)) 0
         = total_sold (OptimalBookingCurves.kpi g))
  /\ (forall warned drawn outcome t g c,
         BookingCurve.plot_peer_group_champions argsort csv last_minute_threshold
           num_tiers = Ok (warned, (drawn, outcome)) ->
         In (t, g, c) drawn ->
         BookingCurve.full_line c = kpi_max_stock (PeerGroupChampions.kpi g)
         /\ BookingCurve.daily_sold c <> []
         /\ last (map snd (BookingCurve.daily_sold c)) 0
            = total_sold (PeerGroupChampions.kpi g)).
Proof.
  intros Hthr. split.
  - intros curves g c E Hin. unfold BookingCurve.plot_optimal_booking_curves in E.
    destruct (normalize csv) as [df|e]; [|discriminate]. cbn [bind] in E.
    inversion E; subst curves; clear E.
    apply in_map_iff in Hin. destruct Hin as (g' & E & Hin).
    injection E as Eg Ec. subst g' c.
    apply optimal_best_dates_case in Hin. destruct Hin as [Hin Hle].
    rewrite optimal_daily_kpi_rows in Hin. apply in_map_iff in Hin.
    destruct Hin as (k & <- & Hk).
    split; [reflexivity|]. split; [reflexivity|].
    exact (curve_of_late_booking (sales df) k last_minute_threshold
             (kpi_max_stock k) Hk Hthr Hle).
  - intros warned drawn outcome t g c E Hin.
    unfold BookingCurve.plot_peer_group_champions in E.
    destruct (normalize csv) as [df|e]; [|discriminate]. cbn [bind] in E.
    unfold PeerGroupChampions.select in E.
    destruct (peer_daily_kpi_rows num_tiers (sales df))
      as (frame & Ef & Hks & Hrows & _).
    rewrite Ef in E. cbn [bind fst snd] in E.
    injection E as _ Ec.
    assert (Hd : In (t, g, c)
                   (fst (BookingCurve.chart_loop (sales df)
                           (PeerGroupChampions.best_dates argsort last_minute_threshold
                              (PeerGroupChampions.dtype frame)
                              (PeerGroupChampions.rows frame)))))
      by (rewrite Ec; exact Hin).
    apply chart_loop_In in Hd. destruct Hd as [Ho ->].
    apply peer_best_dates_incl in Ho. destruct Ho as [Hg Hle].
    assert (Hk : In (PeerGroupChampions.kpi g) (KpiAggregator.daily_kpi (sales df)))
      by (rewrite <- Hks; now apply in_map).
    rewrite Forall_forall in Hrows. rewrite (Hrows g Hg) in Hle.
    split; [reflexivity|].
    exact (curve_of_late_booking (sales df) (PeerGroupChampions.kpi g)
             last_minute_threshold (kpi_max_stock (PeerGroupChampions.kpi g))
             Hk Hthr Hle).
Qed.

(** The first script on one stay date (day 200) of a listing of 30 rooms:
    5 rooms go before the window of 120 days, 5 on day 100 and 20 in the
    last 30 days; the line starts at 5 and ends at the 30 rooms sold in
    all.  The second script on three listings in three tiers, the dearest
    of which sold its rooms 80 days ahead: the charts of the two cheaper
    tiers are drawn, each ending at the 10 rooms sold, before the row of
    the third tier raises. *)
Lemma booking_curve_reaches_total_witness :
  let at_day d := Stamp (d * 86400000000000) in
  let snap h d c s p := mkRawRow (Some h) (Some 1) (Some 1) (at_day d) (at_day c)
                          (Some s) (Some p) in
  let one := [snap 1 200 60 30 100%Q; snap 1 200 70 25 100%Q; snap 1 200 100 20 100%Q;
              snap 1 200 180 10 100%Q; snap 1 200 190 0 100%Q] in
  let three := [snap 1 100 80 30 100%Q; snap 1 100 90 20 100%Q;
                snap 2 100 80 30 200%Q; snap 2 100 90 20 200%Q;
                snap 3 100 10 30 300%Q; snap 3 100 20 20 300%Q] in
  (exists g c,
     BookingCurve.plot_optimal_booking_curves argsort_stable one (1 # 2) = Ok [(g, c)]
     /\ map snd (BookingCurve.daily_sold c) = [10; 20; 30]
     /\ BookingCurve.sold_before c = OptimalBookingCurves.sold_before_120 g
     /\ BookingCurve.full_line c = kpi_max_stock (OptimalBookingCurves.kpi g)
     /\ BookingCurve.daily_sold c <> []
     /\ last (map snd (BookingCurve.daily_sold c)) 0
        = total_sold (OptimalBookingCurves.kpi g))
  /\ (exists low c1 middle c2,
        BookingCurve.plot_peer_group_champions argsort_stable three (1 # 2) 3
        = Ok (false,
              ([(PeerGroupChampions.Labelled PeerGroupChampions.Ume, low, c1);
                (PeerGroupChampions.Labelled PeerGroupChampions.Take, middle, c2)],
               Some ValueError))
        /\ map snd (BookingCurve.daily_sold c2) = [0; 10]
        /\ BookingCurve.full_line c2 = kpi_max_stock (PeerGroupChampions.kpi middle)
        /\ BookingCurve.daily_sold c2 <> []
        /\ last (map snd (BookingCurve.daily_sold c2)) 0
           = total_sold (PeerGroupChampions.kpi middle)).
Proof.
  cbn zeta. split.
  - match goal with
    | |- context [BookingCurve.plot_optimal_booking_curves _ ?rows _] =>
        set (csv := rows)
    end.
    do 2 eexists. split; [vm_compute; reflexivity|].
    split; [vm_compute; reflexivity|].
    match goal with |- _ ?c = _ ?g /\ _ =>
      refine (proj1 (booking_curve_reaches_total argsort_stable csv (1 # 2) 3 eq_refl)
                _ g c _ _)
    end.
    + vm_compute. reflexivity.
    + left. reflexivity.
  - match goal with
    | |- context [BookingCurve.plot_peer_group_champions _ ?rows _ _] =>
        set (csv := rows)
    end.
    do 4 eexists. split; [vm_compute; reflexivity|].
    split; [vm_compute; reflexivity|].
    match goal with |- _ ?c = kpi_max_stock (_ ?g) /\ _ =>
      refine (proj2 (booking_curve_reaches_total argsort_stable csv (1 # 2) 3 eq_refl)
                _ _ _ (PeerGroupChampions.Labelled PeerGroupChampions.Take) g c _ _)
    end.
    + vm_compute. reflexivity.
    + right. left. reflexivity.
Defined.

(* ================================================================== *)
(** * Sales and stock levels *)
(* ================================================================== *)

Lemma last_cons_default {A : Type} (x d : A) (l : list A) :
  last (x :: l) d = last l x.
Proof.
  revert x d. induction l as [|y l IH]; intros x d; [reflexivity|].
  change (last (x :: y :: l) d) with (last (y :: l) d).
  now rewrite !(IH y).
Qed.

(** The units sold over a run of stock levels are at least the drop from
    the first level to the last, and exactly that drop when the stock
    never rises. *)
Lemma sold_after_telescope (p : Z) (stocks : list Z) :
  p - last stocks p <= sumZ (sold_after p stocks)
  /\ (StronglySorted Z.ge (p :: stocks) ->
      sumZ (sold_after p stocks) = p - last stocks p).
Proof.
  revert p. induction stocks as [|s t IH]; intros p.
  - simpl. split; [lia|]. intros _. lia.
  - destruct (IH s) as [Hle Heq]. rewrite last_cons_default.
    cbn [sold_after sumZ].
    assert (E : forall a l, sumZ (a :: l) = a + sumZ l) by reflexivity.
    rewrite E. split; [lia|].
    intros Hs. inversion Hs as [|? ? Ht Hp]; subst.
    inversion Hp as [|? ? Hps _]; subst. rewrite (Heq Ht). lia.
Qed.

Lemma sold_sequence_telescope (stocks : list Z) :
  hd 0 stocks - last stocks 0 <= sumZ (sold_sequence stocks)
  /\ (StronglySorted Z.ge stocks ->
      sumZ (sold_sequence stocks) = hd 0 stocks - last stocks 0).
Proof.
  destruct stocks as [|s t]; [simpl; split; [lia | reflexivity]|].
  rewrite last_cons_default. cbn [sold_sequence hd].
  destruct (sold_after_telescope s t) as [Hle Heq].
  assert (E0 : forall l, sumZ (0 :: l) = sumZ l) by reflexivity.
  rewrite E0. split; [assumption|]. exact Heq.
Qed.

Lemma sold_after_no_restock (p : Z) (stocks : list Z) :
  sumZ (sold_after p stocks) = p - last stocks p ->
  StronglySorted Z.ge (p :: stocks).
Proof.
  revert p. induction stocks as [|s t IH]; intros p.
  - intros _. repeat constructor.
  - rewrite last_cons_default. cbn [sold_after].
    change (sumZ (Z.max (p - s) 0 :: sold_after s t))
      with (Z.max (p - s) 0 + sumZ (sold_after s t)).
    destruct (sold_after_telescope s t) as [Hle _]. intros E.
    assert (Hps : p >= s) by lia.
    assert (Hs : StronglySorted Z.ge (s :: t)) by (apply IH; lia).
    constructor; [assumption|]. constructor; [assumption|].
    inversion Hs as [|? ? _ Hall]; subst.
    eapply Forall_impl; [|exact Hall]. simpl. intros; lia.
Qed.

(** X3. The units sold for a stay date against its stock levels, for every row
    of [daily_kpi] of either script: [total_sold] is at least the drop of
    the stock from the first snapshot of the stay date to its last, and is
    that drop exactly when the stock never rises from one snapshot to the
    next; then, with a last stock that is not negative, [total_sold] is at
    most [max_stock].  The first stock is never above [max_stock]. *)
Theorem total_sold_and_stock_drop (df : list Row) (k : Kpi) :
  In k (KpiAggregator.daily_kpi (sales df)) ->
  let stocks := map (fun s => stock (snapshot s)) (events_of (kpi_stay k) (sales df)) in
  hd 0 stocks - last stocks 0 <= total_sold k
  /\ hd 0 stocks <= kpi_max_stock k
  /\ (total_sold k = hd 0 stocks - last stocks 0 <-> StronglySorted Z.ge stocks)
  /\ (StronglySorted Z.ge stocks -> 0 <= last stocks 0 ->
      total_sold k <= kpi_max_stock k).
Proof.
  intros Hk stocks.
  destruct (daily_kpi_totals _ k Hk) as (Et & _ & Hpos).
  rewrite events_sold in Et. fold stocks in Et.
  destruct (sold_sequence_telescope stocks) as [Hle Heq].
  assert (Hhd : hd 0 stocks <= kpi_max_stock k).
  { destruct (daily_kpi_max_stock df k Hk) as [Em H30].
    unfold stocks.
    destruct (events_of (kpi_stay k) (sales df)) as [|s rest] eqn:Ev;
      [cbn; lia|].
    assert (Hs : In s (events_of (kpi_stay k) (sales df))) by (rewrite Ev; now left).
    unfold events_of in Hs. apply filter_In in Hs. destruct Hs as [Hs Es].
    apply eqb_eq in Es.
    destruct (proj1 (sales_rows df (snapshot s) (max_stock s))) as (Hr & _ & _);
      [exists s; auto|].
    destruct (listing_max_stock_spec df (snapshot s) Hr) as [_ Hup].
    cbn [map hd]. rewrite Em. unfold kpi_listing. rewrite <- Es.
    now apply Hup. }
  split; [lia|]. split; [assumption|]. split.
  - split; [|intros Hs; rewrite Et; now apply Heq].
    intros E. rewrite Et in E. destruct stocks as [|s t]; [constructor|].
    rewrite last_cons_default in E. cbn [sold_sequence hd] in E.
    change (sumZ (0 :: sold_after s t)) with (sumZ (sold_after s t)) in E.
    now apply sold_after_no_restock.
  - intros Hs Hl. rewrite Et, (Heq Hs). lia.
Qed.

(** A stay date whose stock goes 30, 20, 10: the 20 rooms sold are the
    drop of the stock, below the capacity of 30. *)
Lemma total_sold_and_stock_drop_witness :
  let snap c s := mkRow 1 1 1 (200 * 86400000000000) (c * 86400000000000) s 100 in
  let df := [snap 10 30; snap 20 20; snap 30 10] in
  exists k,
    In k (KpiAggregator.daily_kpi (sales df))
    /\ total_sold k = 20
    /\ total_sold k <= kpi_max_stock k.
Proof.
  cbn zeta. eexists. split; [left; reflexivity|]. split; [reflexivity|].
  match goal with |- total_sold ?k <= _ =>
    refine (proj2 (proj2 (proj2 (total_sold_and_stock_drop
              [mkRow 1 1 1 (200 * 86400000000000) (10 * 86400000000000) 30 100;
               mkRow 1 1 1 (200 * 86400000000000) (20 * 86400000000000) 20 100;
               mkRow 1 1 1 (200 * 86400000000000) (30 * 86400000000000) 10 100]
              k _))) _ _)
  end.
  - left. reflexivity.
  - vm_compute. repeat constructor; discriminate.
  - vm_compute. discriminate.
Defined.

(* ================================================================== *)
(** * The order of the rows of the CSV file *)
(* ================================================================== *)

Lemma filter_perm {A : Type} (p : A -> bool) (l l' : list A) :
  Permutation l l' -> Permutation (filter p l) (filter p l').
Proof.
  induction 1 as [|x l l' _ IH|x y l|l l' l'' _ IH1 _ IH2]; simpl.
  - constructor.
  - destruct (p x); [now constructor | assumption].
  - destruct (p x), (p y); try reflexivity. apply perm_swap.
  - now transitivity (filter p l').
Qed.

Lemma maximum_perm (l l' : list Z) : Permutation l l' -> maximum l = maximum l'.
Proof.
  intros Hp. destruct l as [|x l].
  - apply Permutation_nil in Hp. now subst.
  - assert (Hne : x :: l <> []) by discriminate.
    assert (Hne' : l' <> []).
    { intros ->. apply Permutation_sym, Permutation_nil in Hp. discriminate. }
    pose proof (maximum_In _ Hne) as H1. pose proof (maximum_In _ Hne') as H2.
    pose proof (maximum_upper (x :: l)) as U1. pose proof (maximum_upper l') as U2.
    rewrite Forall_forall in U1, U2.
    apply (Permutation_in _ Hp) in H1.
    apply (Permutation_in _ (Permutation_sym Hp)) in H2.
    specialize (U1 _ H2). specialize (U2 _ H1). lia.
Qed.

Lemma NoDup_map_inj_in {A B : Type} (f : A -> B) (l : list A) (x y : A) :
  NoDup (map f l) -> In x l -> In y l -> f x = f y -> x = y.
Proof.
  induction l as [|a l IH]; simpl; [contradiction|].
  intros Hnd Hx Hy E. inversion Hnd as [|? ? Hna Hnd']; subst.
  destruct Hx as [<- | Hx], Hy as [<- | Hy]; auto.
  - exfalso. apply Hna. rewrite E. now apply in_map.
  - exfalso. apply Hna. rewrite <- E. now apply in_map.
Qed.

(** Two sorted frames with the same rows, no two of which share the sort
    key, are the same frame. *)
Lemma sorted_perm_unique {A K : Type} `{OrdLaws K} (key : A -> K) (l l' : list A) :
  StronglySorted (fun a b => leb (key a) (key b) = true) l ->
  StronglySorted (fun a b => leb (key a) (key b) = true) l' ->
  Permutation l l' ->
  NoDup (map key l) ->
  l = l'.
Proof.
  intros Hs. revert l'. induction Hs as [|x l Hs IH Hx]; intros l' Hs' Hp Hnd.
  - apply Permutation_nil in Hp. now subst.
  - destruct l' as [|y l'];
      [apply Permutation_sym, Permutation_nil in Hp; discriminate|].
    inversion Hs' as [|? ? Hs'' Hy]; subst.
    rewrite Forall_forall in Hx, Hy.
    assert (E : x = y).
    { assert (Hxin : In x (y :: l')) by (apply (Permutation_in _ Hp); now left).
      assert (Hyin : In y (x :: l))
        by (apply (Permutation_in _ (Permutation_sym Hp)); now left).
      destruct Hxin as [E | Hxin]; [now symmetry|].
      destruct Hyin as [E | Hyin]; [assumption|].
      apply (NoDup_map_inj_in key (x :: l)); auto; [now left | now right|].
      apply leb_antisym; [now apply Hx | now apply Hy]. }
    subst y. f_equal. apply IH; [assumption| |].
    + now apply Permutation_cons_inv in Hp.
    + now inversion Hnd.
Qed.

Lemma sort_values_perm {A K : Type} `{OrdLaws K} (key : A -> K) (l l' : list A) :
  Permutation l l' ->
  NoDup (map key l) ->
  sort_values key l = sort_values key l'.
Proof.
  intros Hp Hnd. unfold sort_values.
  apply (sorted_perm_unique key).
  - apply sort_by_sorted; [intros a b; apply leb_total | intros a b c; apply leb_trans].
  - apply sort_by_sorted; [intros a b; apply leb_total | intros a b c; apply leb_trans].
  - rewrite !sort_by_perm. assumption.
  - apply (Permutation_NoDup (l := map key l)); [|assumption].
    apply Permutation_map, Permutation_sym, sort_by_perm.
Qed.

Lemma listing_max_stock_perm (df df' : list Row) (l : listing) :
  Permutation df df' -> listing_max_stock df l = listing_max_stock df' l.
Proof.
  intros Hp. unfold listing_max_stock, group.
  apply maximum_perm, Permutation_map, filter_perm, Hp.
Qed.

Lemma NoDup_map_filter {R K : Type} (key : R -> K) (keep : R -> bool) (df : list R) :
  NoDup (map key df) -> NoDup (map key (filter keep df)).
Proof.
  intros Hnd. induction df as [|r df IH]; [exact Hnd|].
  cbn [map filter] in *. apply NoDup_cons_iff in Hnd. destruct Hnd as [Hr Hnd].
  destruct (keep r); [|now apply IH].
  cbn [map]. apply NoDup_cons; [|now apply IH].
  rewrite in_map_iff. intros (r' & Ek & Hin). apply filter_In in Hin.
  apply Hr. rewrite <- Ek. apply in_map. tauto.
Qed.

(** The frame of the sale derivation does not depend on the order of the
    snapshots, as long as no stay date has two snapshots taken at the same
    time. *)
Lemma sales_perm (df df' : list Row) :
  Permutation df df' ->
  NoDup (map (fun r => (stay_of r, created_at r)) df) ->
  sales df = sales df'.
Proof.
  intros Hp Hnd. unfold sales. f_equal. unfold sorted.
  apply sort_values_perm.
  - unfold capacity_filter. apply filter_perm. rewrite !with_max_stock_eq.
    rewrite (map_ext _ (fun r => (r, listing_max_stock df' (listing_of r))))
      by (intros r; now rewrite (listing_max_stock_perm df df' _ Hp)).
    now apply Permutation_map.
  - unfold capacity_filter. rewrite with_max_stock_eq.
    apply (NoDup_map_filter (fun x : Row * Z => (stay_of (fst x), created_at (fst x)))).
    now rewrite map_map.
Qed.

Lemma existsb_perm {A : Type} (p : A -> bool) (l l' : list A) :
  Permutation l l' -> existsb p l = existsb p l'.
Proof.
  intros Hp. destruct (existsb p l') eqn:E.
  - apply existsb_exists in E. destruct E as (x & Hx & Px).
    apply existsb_exists. exists x. split; [|assumption].
    now apply (Permutation_in _ (Permutation_sym Hp)).
  - destruct (existsb p l) eqn:E'; [|reflexivity].
    apply existsb_exists in E'. destruct E' as (x & Hx & Px).
    assert (existsb p l' = true)
      by (apply existsb_exists; exists x; split;
          [now apply (Permutation_in _ Hp) | assumption]).
    congruence.
Qed.

(** X4. Both scripts, charts included, give the same result whatever the order
    of the lines of the CSV file, provided that no two complete lines are
    snapshots of the same stay date of the same listing taken at the same
    time: the sort of line 31 then puts the snapshots in one order only. *)
Theorem row_order_independent (argsort : list fnum -> list nat)
    (csv csv' : list RawRow) (last_minute_threshold : Q) (num_tiers : nat) :
  Permutation csv csv' ->
  NoDup (map (fun r => (stay_of r, created_at r)) (flat_map clean_row csv)) ->
  BookingCurve.plot_optimal_booking_curves argsort csv last_minute_threshold
  = BookingCurve.plot_optimal_booking_curves argsort csv' last_minute_threshold
  /\ BookingCurve.plot_peer_group_champions argsort csv last_minute_threshold num_tiers
     = BookingCurve.plot_peer_group_champions argsort csv' last_minute_threshold
         num_tiers.
Proof.
  intros Hp Hnd.
  unfold BookingCurve.plot_optimal_booking_curves,
    BookingCurve.plot_peer_group_champions.
  pose proof (existsb_perm unparseable_date csv csv' Hp) as Hex.
  destruct (existsb unparseable_date csv) eqn:E.
  - rewrite (normalize_raises csv E), (normalize_raises csv') by congruence.
    split; reflexivity.
  - rewrite (normalize_ok csv E), (normalize_ok csv') by congruence.
    cbn [bind]. unfold PeerGroupChampions.select.
    rewrite (sales_perm (flat_map clean_row csv) (flat_map clean_row csv'));
      [split; reflexivity| |assumption].
    now apply Permutation_flat_map.
Qed.

(** Two snapshots of one stay date, read in either order. *)
Lemma row_order_independent_witness :
  let at_day d := Stamp (d * 86400000000000) in
  let snap c s := mkRawRow (Some 1) (Some 1) (Some 1) (at_day 100) (at_day c)
                    (Some s) (Some 100%Q) in
  BookingCurve.plot_optimal_booking_curves argsort_stable
    [snap 80 30; snap 90 10] (1 # 2)
  = BookingCurve.plot_optimal_booking_curves argsort_stable
      [snap 90 10; snap 80 30] (1 # 2).
Proof.
  cbn zeta.
  refine (proj1 (row_order_independent argsort_stable _ _ (1 # 2) 3 _ _)).
  - apply perm_swap.
  - cbn. constructor.
    + intros [E | []]. discriminate E.
    + constructor; [intros []|constructor].
Defined.

(* ================================================================== *)
(** * Early and late sales; the threshold *)
(* ================================================================== *)

Lemma early_late_disjoint (df : list Row) (g : stay) :
  0 <= sold_early g (sales df)
  /\ 0 <= sold_late g (sales df)
  /\ sold_early g (sales df) + sold_late g (sales df)
     <= sumZ (map sold (events_of g (sales df))).
Proof.
  pose proof (events_sold_nonneg g df) as Hnn.
  unfold sold_early, sold_late.
  set (events := events_of g (sales df)) in *.
  set (early := observed_before (snd g - Timedelta 120)).
  set (late := observed_from (snd g - Timedelta 30)).
  split; [apply (sumZ_filter_le sold early events Hnn)|].
  split; [apply (sumZ_filter_le sold late events Hnn)|].
  rewrite <- (sumZ_partition sold early events).
  assert (E : filter late events
              = filter late (filter (fun a => negb (early a)) events)).
  { clear Hnn. induction events as [|s l IH]; [reflexivity|]. simpl.
    destruct (late s) eqn:El.
    - assert (Ee : early s = false).
      { unfold early, late, observed_before, observed_from, Timedelta in *.
        apply Z.leb_le in El. apply Z.ltb_ge. lia. }
      rewrite Ee. simpl. rewrite El. now rewrite IH.
    - destruct (early s); simpl; [exact IH|]. now rewrite El. }
  rewrite E.
  assert (Hnn' : Forall (fun s => 0 <= sold s) (filter (fun a => negb (early a)) events)).
  { apply Forall_forall. intros s Hs. apply filter_In in Hs.
    rewrite Forall_forall in Hnn. now apply Hnn. }
  pose proof (sumZ_filter_le sold late _ Hnn'). lia.
Qed.

(** X5. In every row of [daily_kpi] of the first script the units sold more
    than 120 days ahead and the units sold in the last 30 days are counted
    apart: neither is negative, and together they are at most
    [total_sold]. *)
Theorem early_and_late_sales_apart (df : list Row) :
  Forall (fun r =>
            0 <= OptimalBookingCurves.sold_before_120 r
            /\ 0 <= OptimalBookingCurves.sold_last_30 r
            /\ OptimalBookingCurves.sold_before_120 r
               + OptimalBookingCurves.sold_last_30 r
               <= total_sold (OptimalBookingCurves.kpi r))
         (OptimalBookingCurves.daily_kpi (sales df)).
Proof.
  rewrite optimal_daily_kpi_rows. apply Forall_forall. intros r Hr.
  apply in_map_iff in Hr. destruct Hr as (k & <- & Hk). cbn.
  destruct (daily_kpi_totals _ k Hk) as (-> & _).
  apply early_late_disjoint.
Qed.

Lemma ratio_above_one (df : list Row) (k : Kpi) (threshold : Q) :
  In k (KpiAggregator.daily_kpi (sales df)) ->
  (1 < threshold)%Q ->
  fnum_leb (Fin threshold)
    (div_fillna0 (inject_Z (sold_late (kpi_stay k) (sales df)))
                 (inject_Z (total_sold k))) = false.
Proof.
  intros Hk Hthr. destruct (late_ratio_bounds df k Hk) as (q & -> & _ & Hq).
  cbn. destruct (Qle_bool threshold q) eqn:E; [|reflexivity].
  apply Qle_bool_iff in E. exfalso. apply (Qlt_not_le _ _ Hthr).
  now apply (Qle_trans _ q).
Qed.

(** X6. With a threshold above 1 neither script draws a chart: no stay date
    has a last-30-days ratio above 1. *)
Theorem no_chart_above_one (argsort : list fnum -> list nat) (csv : list RawRow)
    (last_minute_threshold : Q) (num_tiers : nat) :
  (1 < last_minute_threshold)%Q ->
  (forall best_dates,
      OptimalBookingCurves.analyze_and_plot_optimal_booking_curves argsort csv
        last_minute_threshold = Ok best_dates ->
      best_dates = [])
  /\ (forall warned charts,
         PeerGroupChampions.analyze_and_plot_peer_group_champions argsort csv
           last_minute_threshold num_tiers = Ok (warned, charts) ->
         charts = []).
Proof.
  intros Hthr. split.
  - intros best_dates E.
    unfold OptimalBookingCurves.analyze_and_plot_optimal_booking_curves in E.
    destruct (normalize csv) as [df|e]; [|discriminate]. cbn [bind] in E.
    injection E as <-.
    match goal with |- ?l = [] => destruct l as [|g rest] eqn:El end; [reflexivity|].
    exfalso.
    assert (Hin : In g (OptimalBookingCurves.best_dates argsort last_minute_threshold
                          (OptimalBookingCurves.daily_kpi (sales df))))
      by (rewrite El; now left).
    apply optimal_best_dates_case in Hin. destruct Hin as [Hin Hle].
    rewrite optimal_daily_kpi_rows in Hin. apply in_map_iff in Hin.
    destruct Hin as (k & <- & Hk).
    exact (eq_true_false_abs _ Hle (ratio_above_one df k _ Hk Hthr)).
  - intros warned charts E.
    unfold PeerGroupChampions.analyze_and_plot_peer_group_champions in E.
    destruct (normalize csv) as [df|e]; [|discriminate]. cbn [bind] in E.
    unfold PeerGroupChampions.select in E.
    destruct (peer_daily_kpi_rows num_tiers (sales df))
      as (frame & Ef & Hks & Hrows & _).
    rewrite Ef in E. cbn [bind fst snd] in E.
    match type of E with
    | context [mapM ?f ?l] => destruct (mapM f l) as [cs|e] eqn:Ec
    end; [|discriminate].
    cbn [bind] in E. injection E as _ <-.
    destruct cs as [|[t g] rest]; [reflexivity|]. exfalso.
    destruct (mapM_In _ _ _ (t, g) Ec (or_introl eq_refl)) as ([t' o] & Ho & Ech).
    unfold PeerGroupChampions.chart in Ech. cbn [snd fst] in Ech.
    destruct o as [g'|]; [|discriminate]. injection Ech as -> ->.
    apply peer_best_dates_incl in Ho. destruct Ho as [Hg Hle].
    assert (Hk : In (PeerGroupChampions.kpi g) (KpiAggregator.daily_kpi (sales df)))
      by (rewrite <- Hks; now apply in_map).
    rewrite Forall_forall in Hrows. rewrite (Hrows g Hg) in Hle.
    exact (eq_true_false_abs _ Hle (ratio_above_one df _ _ Hk Hthr)).
Qed.

(** The stay date of the late-booking scenario, whose ratio is 1, asked
    for a ratio of 3/2. *)
Lemma no_chart_above_one_witness :
  let at_day d := Stamp (d * 86400000000000) in
  let snap c s := mkRawRow (Some 1) (Some 1) (Some 1) (at_day 100) (at_day c)
                    (Some s) (Some 12000%Q) in
  let csv := [snap 75 30; snap 80 20; snap 95 10] in
  OptimalBookingCurves.analyze_and_plot_optimal_booking_curves argsort_stable csv (3 # 2)
  = Ok []
  /\ OptimalBookingCurves.analyze_and_plot_optimal_booking_curves argsort_stable csv 1
     <> Ok [].
Proof.
  cbn zeta. split; [|vm_compute; discriminate].
  match goal with |- ?run = Ok [] => destruct run as [best_dates|e] eqn:E end.
  - f_equal.
    refine (proj1 (no_chart_above_one argsort_stable _ (3 # 2) 3 eq_refl)
              best_dates E).
  - vm_compute in E. discriminate E.
Defined.

(* ================================================================== *)
(** * When the chart loop of the second script stops *)
(* ================================================================== *)

Lemma chart_loop_result
    (best_dates : list (PeerGroupChampions.tier * option PeerGroupChampions.DailyKpi)) :
  (exists t, In (t, None) best_dates
             /\ mapM PeerGroupChampions.chart best_dates = Raised ValueError)
  \/ (exists charts, mapM PeerGroupChampions.chart best_dates = Ok charts
                     /\ forall t, ~ In (t, None) best_dates).
Proof.
  induction best_dates as [|[t o] l IH].
  - right. exists []. split; [reflexivity|]. intros t [].
  - destruct o as [k|].
    + destruct IH as [(t' & Hin & E) | (charts & E & Hno)].
      * left. exists t'. split; [now right|].
        cbn [mapM]. rewrite E. reflexivity.
      * right. exists ((t, k) :: charts). split.
        -- cbn [mapM]. rewrite E. reflexivity.
        -- intros t' [Eq | Hin]; [discriminate | now apply (Hno t')].
    + left. exists t. split; [now left | reflexivity].
Qed.

(** X7. The second script under pandas before 3.0 ([observed] left at False),
    for any correct sort of the RevPAR column: when the tiers were cut by
    [qcut], the run stops with ValueError in the chart loop exactly when
    some tier has no stay date that meets the threshold; when the single
    group was used it never stops there.  A run that does not stop draws
    its charts. *)
Theorem chart_loop_failure (argsort : list fnum -> list nat) (csv : list RawRow)
    (last_minute_threshold : Q) (num_tiers : nat) (df : list Row)
    (frame : PeerGroupChampions.Frame) :
  (forall items, is_argsort items (argsort items) = true) ->
  normalize csv = Ok df ->
  PeerGroupChampions.daily_kpi num_tiers (sales df) = Ok frame ->
  let cases := PeerGroupChampions.last_minute_cases last_minute_threshold
                 (PeerGroupChampions.rows frame) in
  let run := PeerGroupChampions.analyze_and_plot_peer_group_champions argsort csv
               last_minute_threshold num_tiers in
  (run = Raised ValueError
   <-> exists categories c,
         PeerGroupChampions.dtype frame = PeerGroupChampions.Categorical categories
         /\ In c categories
         /\ forall k, In k cases -> PeerGroupChampions.label_of k <> Some c)
  /\ (run = Raised ValueError
      \/ exists charts, run = Ok (PeerGroupChampions.warned frame, charts)).
Proof.
  intros Hsort Hnorm Hframe cases run.
  assert (Erun : run = (charts <- mapM PeerGroupChampions.chart
                                    (PeerGroupChampions.best_dates argsort
                                       last_minute_threshold
                                       (PeerGroupChampions.dtype frame)
                                       (PeerGroupChampions.rows frame)) ;;
                        Ok (PeerGroupChampions.warned frame, charts))).
  { unfold run, PeerGroupChampions.analyze_and_plot_peer_group_champions.
    rewrite Hnorm. cbn [bind]. unfold PeerGroupChampions.select.
    rewrite Hframe. reflexivity. }
  rewrite Erun. clear Erun run.
  destruct (chart_loop_result
              (PeerGroupChampions.best_dates argsort last_minute_threshold
                 (PeerGroupChampions.dtype frame) (PeerGroupChampions.rows frame)))
    as [(t & Hin & E) | (charts & E & Hno)]; rewrite E; cbn [bind].
  - split; [|now left]. split; [intros _|reflexivity].
    unfold PeerGroupChampions.best_dates, PeerGroupChampions.best_dates_with,
      PeerGroupChampions.first_per_tier in Hin.
    destruct (PeerGroupChampions.dtype frame) as [categories|].
    + exists categories. apply in_map_iff in Hin.
      destruct Hin as ([c o] & Eq & Hin). cbn [fst snd] in Eq.
      injection Eq as _ ->. exists c.
      apply groupby_first_categorical_In in Hin. destruct Hin as (Hc & Hf & _).
      split; [reflexivity|]. split; [assumption|].
      intros k Hk El.
      destruct (first_of_group_exists PeerGroupChampions.RevPAR argsort cases
                  (Hsort _)
                  (fun r => match PeerGroupChampions.label_of r with
                            | Some l => PeerGroupChampions.tier_label_eqb l c
                            | None => false
                            end) k Hk) as (best & Hbest).
      * rewrite El. now apply tier_label_eqb_eq.
      * fold cases in Hf. congruence.
    + apply in_map_iff in Hin. destruct Hin as (x & Eq & _). discriminate Eq.
  - split; [|right; now exists charts]. split; [discriminate|].
    intros (categories & c & Ed & Hc & Hnone). exfalso.
    apply (Hno (PeerGroupChampions.Labelled c)). rewrite Ed.
    now apply missing_row_for_empty_tier.
Qed.

(** Three listings in three tiers; the cheapest sold its rooms 80 days
    ahead, so its tier has no stay date at the threshold one half. *)
Lemma chart_loop_failure_witness :
  let at_day d := Stamp (d * 86400000000000) in
  let snap h c s p := mkRawRow (Some h) (Some 1) (Some 1) (at_day 100) (at_day c)
                        (Some s) (Some p) in
  let csv := [snap 1 10 30 100%Q; snap 1 20 20 100%Q;
              snap 2 80 30 200%Q; snap 2 90 20 200%Q;
              snap 3 80 30 300%Q; snap 3 90 20 300%Q] in
  PeerGroupChampions.analyze_and_plot_peer_group_champions argsort_stable csv (1 # 2) 3
  = Raised ValueError.
Proof.
  cbn zeta.
  eapply (fun df frame Hn Hf =>
            proj2 (proj1 (chart_loop_failure argsort_stable _ (1 # 2) 3 df frame
                            (fun items => stable_is_argsort items _
                                            (argsort_stable_spec items))
                            Hn Hf))).
  - vm_compute. reflexivity.
  - vm_compute. reflexivity.
  - exists [PeerGroupChampions.Ume; PeerGroupChampions.Take; PeerGroupChampions.Matsu],
      PeerGroupChampions.Ume.
    split; [reflexivity|]. split; [now left|].
    intros k Hk. vm_compute in Hk.
    destruct Hk as [<- | [<- | []]]; discriminate.
Defined.

(* ================================================================== *)
(** * The rows of [daily_kpi] *)
(* ================================================================== *)

Lemma sumZ_pos_exists (l : list Z) :
  Forall (fun x => 0 <= x) l -> (0 < sumZ l <-> exists x, In x l /\ 0 < x).
Proof.
  induction 1 as [|a l Ha Hl IH]; simpl.
  - split; [lia | intros (x & [] & _)].
  - pose proof (sumZ_nonneg l Hl) as Hs. split.
    + intros Hpos. destruct (Z_lt_le_dec 0 a) as [Hlt | Hle].
      * exists a. auto.
      * destruct (proj1 IH) as (x & Hx & Hp); [lia|]. exists x. auto.
    + intros (x & [<- | Hx] & Hp); [lia|].
      assert (0 < sumZ l) by (apply IH; eauto). lia.
Qed.

Lemma daily_kpi_keys (df : list Sale) :
  map kpi_stay (KpiAggregator.daily_kpi df)
  = filter (fun g => 0 <? sumZ (map sold (events_of g df))) (group_keys sale_stay df).
Proof.
  unfold KpiAggregator.daily_kpi, groupby. rewrite map_map.
  induction (group_keys sale_stay df) as [|g keys IH]; [reflexivity|].
  cbn [map filter fst snd agg total_sold].
  change (group sale_stay g df) with (events_of g df).
  destruct (0 <? sumZ (map sold (events_of g df))); cbn [map]; now rewrite IH.
Qed.

(** X8. The frame [daily_kpi] of either script has one row for every stay
    date on which a snapshot records a sale, and no other row; the rows
    are in ascending order of listing and date, and neither the left joins
    of the first script nor the merge with the characteristic prices of
    the second adds, drops or repeats a row. *)
Theorem one_row_per_stay_date (num_tiers : nat) (df : list Row) :
  let keys := map kpi_stay (KpiAggregator.daily_kpi (sales df)) in
  NoDup keys
  /\ StronglySorted (fun a b => leb a b = true) keys
  /\ (forall g, In g keys
                <-> exists s, In s (sales df) /\ sale_stay s = g /\ 0 < sold s)
  /\ map (fun r => kpi_stay (OptimalBookingCurves.kpi r))
         (OptimalBookingCurves.daily_kpi (sales df)) = keys
  /\ exists frame,
       PeerGroupChampions.daily_kpi num_tiers (sales df) = Ok frame
       /\ map (fun r => kpi_stay (PeerGroupChampions.kpi r))
              (PeerGroupChampions.rows frame) = keys.
Proof.
  cbn zeta. rewrite daily_kpi_keys. split; [|split; [|split; [|split]]].
  - apply NoDup_filter, group_keys_NoDup.
  - apply StronglySorted_filter, group_keys_sorted.
  - intros g. rewrite filter_In, Z.ltb_lt, group_keys_In.
    rewrite (sumZ_pos_exists (map sold (events_of g (sales df)))).
    + split.
      * intros (_ & x & Hx & Hp). apply in_map_iff in Hx.
        destruct Hx as (s & <- & Hs). unfold events_of in Hs.
        apply filter_In in Hs. destruct Hs as [Hs Es]. apply eqb_eq in Es.
        exists s. auto.
      * intros (s & Hs & Es & Hp). split; [rewrite <- Es; now apply in_map|].
        exists (sold s). split; [|assumption]. apply in_map.
        unfold events_of. apply filter_In. split; [assumption|].
        now apply eqb_eq.
    + apply Forall_forall. intros x Hx. apply in_map_iff in Hx.
      destruct Hx as (s & <- & Hs).
      pose proof (events_sold_nonneg g df) as Hn. rewrite Forall_forall in Hn.
      now apply Hn.
  - rewrite optimal_daily_kpi_rows, map_map. cbn [OptimalBookingCurves.kpi
      OptimalBookingCurves.kpi_row fst snd]. apply daily_kpi_keys.
  - destruct (peer_daily_kpi_rows num_tiers (sales df)) as (frame & E & Hk & _).
    exists frame. split; [assumption|].
    rewrite <- (map_map PeerGroupChampions.kpi kpi_stay), Hk. apply daily_kpi_keys.
Qed.

Lemma map_eq_In {A B : Type} (f g : A -> B) (l : list A) (a : A) :
  map f l = map g l -> In a l -> f a = g a.
Proof.
  induction l as [|x l IH]; simpl; [contradiction|].
  intros E [<- | Hin]; inversion E; auto.
Qed.

(** X9. In the frame of the second script the stay dates of one listing carry
    the same characteristic price and the same price tier: a listing is in
    one peer group only. *)
Theorem listing_in_one_tier (num_tiers : nat) (df : list Sale)
    (frame : PeerGroupChampions.Frame) (r1 r2 : PeerGroupChampions.DailyKpi) :
  PeerGroupChampions.daily_kpi num_tiers df = Ok frame ->
  In r1 (PeerGroupChampions.rows frame) ->
  In r2 (PeerGroupChampions.rows frame) ->
  kpi_listing (PeerGroupChampions.kpi r1) = kpi_listing (PeerGroupChampions.kpi r2) ->
  PeerGroupChampions.characteristic_price r1 = PeerGroupChampions.characteristic_price r2
  /\ PeerGroupChampions.price_tier r1 = PeerGroupChampions.price_tier r2.
Proof.
  intros E H1 H2 El.
  destruct (peer_daily_kpi_rows num_tiers df) as (frame' & E' & _ & Hrows & Ht).
  assert (frame' = frame) by congruence. subst frame'.
  rewrite Forall_forall in Hrows.
  assert (Ep : PeerGroupChampions.characteristic_price r1
               = PeerGroupChampions.characteristic_price r2).
  { rewrite (Hrows r1 H1), (Hrows r2 H2). cbn. now rewrite El. }
  split; [assumption|].
  assert (Hf : exists f, map PeerGroupChampions.price_tier (PeerGroupChampions.rows frame)
                         = map (fun r => f (PeerGroupChampions.characteristic_price r))
                               (PeerGroupChampions.rows frame)).
  { unfold PeerGroupChampions.assign_price_tier, qcut in Ht.
    match type of Ht with
    | context [if negb ?c then _ else _] => destruct c
    end; cbn [negb] in Ht.
    - injection Ht as _ Hc _.
      match type of Hc with
      | map _ (map ?g _) = _ =>
          exists (fun v => option_map PeerGroupChampions.Labelled (g v))
      end.
      now rewrite <- Hc, !map_map.
    - injection Ht as _ Hc _. rewrite <- Hc, map_map.
      exists (fun _ => Some PeerGroupChampions.SingleGroup). reflexivity. }
  destruct Hf as (f & Hf).
  rewrite (map_eq_In _ _ _ r1 Hf H1), (map_eq_In _ _ _ r2 Hf H2). now rewrite Ep.
Qed.

(** Four listings at 100, 200, 300 and 400; the two stay dates of the
    cheapest are both in the lowest tier. *)
Lemma listing_in_one_tier_witness :
  let snap h d c s p := mkRow h 1 1 (d * 86400000000000) (c * 86400000000000) s p in
  let df := [snap 1 100 80 30 100%Q; snap 1 100 90 20 100%Q;
             snap 1 101 80 30 100%Q; snap 1 101 90 20 100%Q;
             snap 2 100 80 30 200%Q; snap 2 100 90 20 200%Q;
             snap 3 100 80 30 300%Q; snap 3 100 90 20 300%Q;
             snap 4 100 80 30 400%Q; snap 4 100 90 20 400%Q] in
  exists frame r1 r2 rest,
    PeerGroupChampions.daily_kpi 3 (sales df) = Ok frame
    /\ PeerGroupChampions.rows frame = r1 :: r2 :: rest
    /\ PeerGroupChampions.price_tier r1
       = Some (PeerGroupChampions.Labelled PeerGroupChampions.Ume)
    /\ PeerGroupChampions.price_tier r1 = PeerGroupChampions.price_tier r2.
Proof.
  cbn zeta.
  match goal with |- context [sales ?d] => set (df := d) end.
  do 4 eexists.
  split; [vm_compute; reflexivity|].
  split; [reflexivity|].
  split; [reflexivity|].
  match goal with |- _ ?r1 = _ ?r2 =>
    refine (proj2 (listing_in_one_tier 3 (sales df) _ r1 r2 _ _ _ _))
  end.
  - vm_compute. reflexivity.
  - left. reflexivity.
  - right. left. reflexivity.
  - reflexivity.
Defined.

(* ================================================================== *)
(** * Raising the threshold *)
(* ================================================================== *)

(** X10. The first script run at two thresholds, for any correct sort of the
    RevPAR column: every listing that has an exemplar at the higher
    threshold has one at the lower threshold, whose RevPAR is at least as
    large.  Raising the threshold never adds a chart and never improves an
    exemplar. *)
Theorem raising_the_threshold (argsort : list fnum -> list nat) (csv : list RawRow)
    (low high : Q) (at_low at_high : list OptimalBookingCurves.DailyKpi) :
  (forall items, is_argsort items (argsort items) = true) ->
  (low <= high)%Q ->
  OptimalBookingCurves.analyze_and_plot_optimal_booking_curves argsort csv low
  = Ok at_low ->
  OptimalBookingCurves.analyze_and_plot_optimal_booking_curves argsort csv high
  = Ok at_high ->
  forall best', In best' at_high ->
    exists best,
      In best at_low
      /\ kpi_listing (OptimalBookingCurves.kpi best)
         = kpi_listing (OptimalBookingCurves.kpi best')
      /\ fnum_leb (OptimalBookingCurves.RevPAR best') (OptimalBookingCurves.RevPAR best)
         = true.
Proof.
  intros Hsort Hle El Eh best' Hin.
  unfold OptimalBookingCurves.analyze_and_plot_optimal_booking_curves in El, Eh.
  destruct (normalize csv) as [df|e]; [|discriminate]. cbn [bind] in El, Eh.
  injection El as <-. injection Eh as <-.
  set (daily_kpi := OptimalBookingCurves.daily_kpi (sales df)) in *.
  apply optimal_best_dates_case in Hin. destruct Hin as [Hin Hr].
  set (cases := OptimalBookingCurves.last_minute_success_cases low daily_kpi).
  set (of_listing := fun k : OptimalBookingCurves.DailyKpi =>
                       eqb (kpi_listing (OptimalBookingCurves.kpi k))
                           (kpi_listing (OptimalBookingCurves.kpi best'))).
  assert (Hc : In best' cases).
  { unfold cases, OptimalBookingCurves.last_minute_success_cases.
    apply filter_In. split; [assumption|].
    apply (fnum_leb_trans _ (Fin high)); [|assumption].
    cbn. now apply Qle_bool_iff. }
  assert (Hl : of_listing best' = true) by apply eqb_refl.
  destruct (first_of_group_exists OptimalBookingCurves.RevPAR argsort cases
              (Hsort _) of_listing best' Hc Hl) as (best & Hbest).
  exists best.
  destruct (proj2 (optimal_best_dates_In argsort low daily_kpi
                     (kpi_listing (OptimalBookingCurves.kpi best')) best) Hbest)
    as [Hb Eb].
  split; [assumption|]. split; [now apply eqb_eq in Eb|].
  destruct (first_of_group_best OptimalBookingCurves.RevPAR argsort cases
              (Hsort _) of_listing best Hbest) as (_ & _ & Hmax).
  now apply Hmax.
Qed.

(** A listing with two stay dates: all rooms of day 100 go in the last 30
    days at 100 a room; half of those of day 101, at 300 a room.  At the
    threshold 1 the exemplar is day 100; at one half a stay date of the
    listing is still chosen, with a RevPAR that is not smaller. *)
Lemma raising_the_threshold_witness :
  let at_day d := Stamp (d * 86400000000000) in
  let snap d c s p := mkRawRow (Some 1) (Some 1) (Some 1) (at_day d) (at_day c)
                        (Some s) (Some p) in
  let csv := [snap 100 80 30 100%Q; snap 100 90 20 100%Q;
              snap 101 50 30 300%Q; snap 101 60 20 300%Q; snap 101 90 10 300%Q] in
  exists best' best,
    OptimalBookingCurves.analyze_and_plot_optimal_booking_curves argsort_stable csv 1
    = Ok [best']
    /\ OptimalBookingCurves.analyze_and_plot_optimal_booking_curves argsort_stable csv
         (1 # 2) = Ok [best]
    /\ fnum_leb (OptimalBookingCurves.RevPAR best') (OptimalBookingCurves.RevPAR best)
       = true.
Proof.
  cbn zeta.
  match goal with |- context [OptimalBookingCurves.analyze_and_plot_optimal_booking_curves
                                _ ?c _] => set (csv := c) end.
  destruct (OptimalBookingCurves.analyze_and_plot_optimal_booking_curves
              argsort_stable csv (1 # 2)) as [at_low|e] eqn:El;
    [|vm_compute in El; discriminate El].
  destruct (OptimalBookingCurves.analyze_and_plot_optimal_booking_curves
              argsort_stable csv 1) as [at_high|e] eqn:Eh;
    [|vm_compute in Eh; discriminate Eh].
  pose proof (raising_the_threshold argsort_stable csv (1 # 2) 1 at_low at_high
                (fun items => stable_is_argsort items _ (argsort_stable_spec items))
                ltac:(discriminate) El Eh) as H.
  vm_compute in El, Eh. injection El as <-. injection Eh as <-.
  match type of H with
  | forall b, In b [?b'] -> _ =>
      destruct (H b' (or_introl eq_refl)) as (best & [<- | []] & _ & Hr)
  end.
  do 2 eexists. split; [reflexivity|]. split; [reflexivity | exact Hr].
Defined.

(* ================================================================== *)
(** * Price tiers follow the characteristic prices *)
(* ================================================================== *)

Lemma filter_length_mono {A : Type} (p q : A -> bool) (l : list A) :
  (forall a, p a = true -> q a = true) ->
  (length (filter p l) <= length (filter q l))%nat.
Proof.
  intros Hpq. induction l as [|x l IH]; simpl; [lia|].
  destruct (p x) eqn:Ep.
  - rewrite (Hpq x Ep). simpl. lia.
  - destruct (q x); simpl; lia.
Qed.

Lemma searchsorted_left_mono (bins : list Q) (v1 v2 : Q) :
  (v1 <= v2)%Q -> (searchsorted_left bins v1 <= searchsorted_left bins v2)%nat.
Proof.
  intros Hv. unfold searchsorted_left. apply filter_length_mono.
  intros e. rewrite !negb_true_iff. intros E.
  destruct (Qle_bool v2 e) eqn:E2; [|reflexivity].
  apply Qle_bool_iff in E2.
  assert (Qle_bool v1 e = true) by (apply Qle_bool_iff; now apply (Qle_trans _ v2)).
  congruence.
Qed.

(** The lowest bin edge of [qcut] is the smallest value of the column. *)
Lemma lowest_edge (x : list Q) (q : nat) (v : Q) :
  In v x -> (hd 0%Q (quantile_edges x q) <= v)%Q.
Proof.
  intros Hv. unfold quantile_edges. rewrite Nat.add_1_r. cbn [seq map hd].
  set (s := sort_by Qle_bool x).
  rewrite (quantile_value s 0 q (nth 0 s 0%Q)).
  - assert (Hs : StronglySorted (fun a b => Qle_bool a b = true) s)
      by (apply sort_by_sorted; [apply Qle_bool_total | apply Qle_bool_trans]).
    assert (Hin : In v s) by now apply (sort_by_In Qle_bool).
    destruct s as [|a s']; [contradiction|]. cbn [nth].
    destruct Hin as [<- | Hin]; [apply Qle_refl|].
    inversion Hs as [|? ? _ Ha]; subst. rewrite Forall_forall in Ha.
    now apply Qle_bool_iff, Ha.
  - now rewrite Nat.mul_0_l, Nat.Div0.div_0_l.
  - right. now rewrite Nat.mul_0_l, Nat.Div0.mod_0_l.
Qed.

Lemma hd_unique {K : Type} `{Ord K} (d : K) (l : list K) : hd d (unique l) = hd d l.
Proof. destruct l; reflexivity. Qed.

Lemma position_some (ids n i : nat) :
  (if (ids =? n)%nat || (ids =? 0)%nat then None else Some (ids - 1)%nat) = Some i ->
  (ids <> 0 /\ i = ids - 1)%nat.
Proof.
  destruct (ids =? n)%nat; [discriminate|].
  destruct (ids =? 0)%nat eqn:E0; [discriminate|].
  intros H. injection H as <-. apply Nat.eqb_neq in E0. auto.
Qed.

(** [qcut] gives a value the label at a position of the label list, and
    the position never goes down when the value goes up. *)
Lemma qcut_positions {L : Type} (x : list Q) (q : nat) (labels : list L)
    (column : list (option L)) :
  qcut x q labels = Ok column ->
  exists pos : Q -> option nat,
    column = map (fun v => match pos v with
                           | Some i => nth_error labels i
                           | None => None
                           end) x
    /\ forall v1 v2 i1 i2,
         In v1 x -> (v1 <= v2)%Q -> pos v1 = Some i1 -> pos v2 = Some i2 ->
         (i1 <= i2)%nat.
Proof.
  unfold qcut.
  set (bins0 := quantile_edges x q).
  set (bins := if (length (unique bins0) <? length bins0)%nat
                  && negb (length bins0 =? 2)%nat
               then unique bins0 else bins0).
  assert (Hhd : hd 0%Q bins = hd 0%Q bins0).
  { unfold bins. destruct (_ && _); [apply hd_unique | reflexivity]. }
  destruct (negb (length labels =? length bins - 1)%nat); [discriminate|].
  intros E. injection E as <-.
  exists (fun v =>
            let ids := if eqb v (hd 0%Q bins) then 1%nat
                       else searchsorted_left bins v in
            if (ids =? length bins)%nat || (ids =? 0)%nat then None
            else Some (ids - 1)%nat).
  split.
  - apply map_ext. intros v. cbn zeta.
    now destruct ((_ =? length bins)%nat || _).
  - intros v1 v2 i1 i2 Hin Hle. cbn zeta.
    pose proof (lowest_edge x q v1 Hin) as Hlow. fold bins0 in Hlow.
    rewrite <- Hhd in Hlow.
    destruct (eqb v1 (hd 0%Q bins)) eqn:E1, (eqb v2 (hd 0%Q bins)) eqn:E2;
      intros P1 P2; apply position_some in P1, P2.
    + lia.
    + lia.
    + exfalso. apply eqb_Qeq in E2.
      assert (E : eqb v1 (hd 0%Q bins) = true).
      { apply eqb_Qeq. apply Qle_antisym; [|assumption]. now rewrite <- E2. }
      congruence.
    + pose proof (searchsorted_left_mono bins v1 v2 Hle) as Hm. lia.
Qed.

(** X13. The second script: of two stay dates with a label, the one whose
    characteristic price is not higher has a label that stands no later in
    the label list of line 59 (low, middle, high): a dearer listing is
    never put in a cheaper tier. *)
Theorem tiers_follow_prices (num_tiers : nat) (df : list Sale)
    (frame : PeerGroupChampions.Frame) (r1 r2 : PeerGroupChampions.DailyKpi)
    (l1 l2 : PeerGroupChampions.tier_label) :
  PeerGroupChampions.daily_kpi num_tiers df = Ok frame ->
  In r1 (PeerGroupChampions.rows frame) ->
  In r2 (PeerGroupChampions.rows frame) ->
  (PeerGroupChampions.characteristic_price r1
   <= PeerGroupChampions.characteristic_price r2)%Q ->
  PeerGroupChampions.price_tier r1 = Some (PeerGroupChampions.Labelled l1) ->
  PeerGroupChampions.price_tier r2 = Some (PeerGroupChampions.Labelled l2) ->
  exists i1 i2,
    nth_error (PeerGroupChampions.tier_labels num_tiers) i1 = Some l1
    /\ nth_error (PeerGroupChampions.tier_labels num_tiers) i2 = Some l2
    /\ (i1 <= i2)%nat.
Proof.
  intros E H1 H2 Hle T1 T2.
  destruct (peer_daily_kpi_rows num_tiers df) as (frame' & E' & _ & _ & Ht).
  assert (frame' = frame) by congruence. subst frame'.
  unfold PeerGroupChampions.assign_price_tier in Ht.
  destruct (qcut (map PeerGroupChampions.characteristic_price
                    (PeerGroupChampions.rows frame))
                 num_tiers (PeerGroupChampions.tier_labels num_tiers))
    as [column | e] eqn:Eq.
  - injection Ht as _ Hc _.
    destruct (qcut_positions _ _ _ _ Eq) as (pos & -> & Hmono).
    rewrite !map_map in Hc.
    pose proof (map_eq_In _ _ _ r1 Hc H1) as P1.
    pose proof (map_eq_In _ _ _ r2 Hc H2) as P2.
    cbn beta in P1, P2. rewrite T1 in P1. rewrite T2 in P2.
    destruct (pos (PeerGroupChampions.characteristic_price r1)) as [i1|] eqn:Ep1;
      [|discriminate].
    destruct (pos (PeerGroupChampions.characteristic_price r2)) as [i2|] eqn:Ep2;
      [|discriminate].
    exists i1, i2.
    destruct (nth_error (PeerGroupChampions.tier_labels num_tiers) i1) as [a|];
      [|discriminate].
    destruct (nth_error (PeerGroupChampions.tier_labels num_tiers) i2) as [b|];
      [|discriminate].
    injection P1 as ->. injection P2 as ->.
    split; [reflexivity|]. split; [reflexivity|].
    apply (Hmono _ _ _ _ (in_map _ _ _ H1) Hle Ep1 Ep2).
  - assert (Hs : map PeerGroupChampions.price_tier (PeerGroupChampions.rows frame)
                 = map (fun _ => Some PeerGroupChampions.SingleGroup)
                       (PeerGroupChampions.rows frame)).
    { destruct e; try discriminate. injection Ht as _ Hc _.
      now rewrite <- Hc, map_map. }
    pose proof (map_eq_In _ _ _ r1 Hs H1) as P1. cbn beta in P1. congruence.
Qed.

(** Four listings at 100, 200, 300 and 400: the cheapest is in the first
    tier of the list, the dearest in the last. *)
Lemma tiers_follow_prices_witness :
  let snap h d c s p := mkRow h 1 1 (d * 86400000000000) (c * 86400000000000) s p in
  let df := [snap 1 100 80 30 100%Q; snap 1 100 90 20 100%Q;
             snap 1 101 80 30 100%Q; snap 1 101 90 20 100%Q;
             snap 2 100 80 30 200%Q; snap 2 100 90 20 200%Q;
             snap 3 100 80 30 300%Q; snap 3 100 90 20 300%Q;
             snap 4 100 80 30 400%Q; snap 4 100 90 20 400%Q] in
  exists frame r1 a b c r2,
    PeerGroupChampions.daily_kpi 3 (sales df) = Ok frame
    /\ PeerGroupChampions.rows frame = [r1; a; b; c; r2]
    /\ exists i1 i2,
         nth_error (PeerGroupChampions.tier_labels 3) i1 = Some PeerGroupChampions.Ume
         /\ nth_error (PeerGroupChampions.tier_labels 3) i2
            = Some PeerGroupChampions.Matsu
         /\ (i1 <= i2)%nat.
Proof.
  cbn zeta.
  match goal with |- context [sales ?d] => set (df := d) end.
  do 6 eexists.
  split; [vm_compute; reflexivity|].
  split; [reflexivity|].
  refine (tiers_follow_prices 3 (sales df) _ _ _
            PeerGroupChampions.Ume PeerGroupChampions.Matsu _ _ _ _ _ _).
  - vm_compute. reflexivity.
  - left. reflexivity.
  - do 4 right. left. reflexivity.
  - vm_compute. discriminate.
  - reflexivity.
  - reflexivity.
Defined.

(** X14. The selection of the second script run at two thresholds, for any
    correct sort of the RevPAR column: the tiers and the warning do not
    depend on the threshold, and every tier that has an exemplar at the
    higher threshold has one at the lower threshold, whose RevPAR is at
    least as large. *)
Theorem raising_the_threshold_tiers (argsort : list fnum -> list nat) (df : list Row)
    (low high : Q) (num_tiers : nat) (warned_low warned_high : bool)
    (at_low at_high : list (PeerGroupChampions.tier * option PeerGroupChampions.DailyKpi)) :
  (forall items, is_argsort items (argsort items) = true) ->
  (low <= high)%Q ->
  PeerGroupChampions.select argsort df low num_tiers = Ok (warned_low, at_low) ->
  PeerGroupChampions.select argsort df high num_tiers = Ok (warned_high, at_high) ->
  warned_low = warned_high
  /\ forall t best', In (t, Some best') at_high ->
       exists best,
         In (t, Some best) at_low
         /\ fnum_leb (PeerGroupChampions.RevPAR best') (PeerGroupChampions.RevPAR best)
            = true.
Proof.
  intros Hsort Hle El Eh. unfold PeerGroupChampions.select in El, Eh.
  destruct (PeerGroupChampions.daily_kpi num_tiers (sales df)) as [frame|e] eqn:Ef;
    [|discriminate].
  cbn [bind] in El, Eh. injection El as <- <-. injection Eh as <- <-.
  split; [reflexivity|]. intros t best' Hin.
  pose proof (frame_well_typed num_tiers (sales df) frame Ef) as Hwt.
  set (dt := PeerGroupChampions.dtype frame) in *.
  set (daily_kpi := PeerGroupChampions.rows frame) in *.
  set (cases := PeerGroupChampions.last_minute_cases low daily_kpi).
  assert (Hwt' : forall threshold,
             PeerGroupChampions.well_typed dt
               (sort_values_descending argsort PeerGroupChampions.RevPAR
                  (PeerGroupChampions.last_minute_cases threshold daily_kpi))).
  { intros threshold. apply (well_typed_incl dt daily_kpi); [|assumption].
    intros r Hr. apply take_In in Hr. now apply filter_In in Hr. }
  destruct (peer_best_dates_incl _ argsort high dt daily_kpi t best' Hin) as [Hd Hr].
  apply (first_per_tier_In _ dt _ t best' (Hwt' high)) in Hin.
  apply find_some in Hin. destruct Hin as [_ Ht].
  assert (Hc : In best' cases).
  { unfold cases, PeerGroupChampions.last_minute_cases.
    apply filter_In. split; [assumption|].
    apply (fnum_leb_trans _ (Fin high)); [|assumption].
    cbn. now apply Qle_bool_iff. }
  destruct (first_of_group_exists PeerGroupChampions.RevPAR argsort cases
              (Hsort _) (PeerGroupChampions.in_tier t) best' Hc Ht) as (best & Hbest).
  exists best. split.
  - apply first_per_tier_exists; [apply Hwt' | exact Hbest].
  - destruct (first_of_group_best PeerGroupChampions.RevPAR argsort cases
                (Hsort _) (PeerGroupChampions.in_tier t) best Hbest) as (_ & _ & Hmax).
    now apply Hmax.
Qed.

(** Four listings in three tiers; the cheapest sells all its rooms of day
    100 late and half of those of day 101, at a higher price.  At the
    threshold 1 its tier is led by day 100, at one half by a stay date
    whose RevPAR is not smaller. *)
Lemma raising_the_threshold_tiers_witness :
  let snap h d c s p := mkRow h 1 1 (d * 86400000000000) (c * 86400000000000) s p in
  let df := [snap 1 100 80 30 100%Q; snap 1 100 90 20 100%Q;
             snap 1 101 50 30 120%Q; snap 1 101 60 20 120%Q; snap 1 101 90 10 120%Q;
             snap 2 100 80 30 200%Q; snap 2 100 90 20 200%Q;
             snap 3 100 80 30 300%Q; snap 3 100 90 20 300%Q;
             snap 4 100 80 30 400%Q; snap 4 100 90 20 400%Q] in
  exists best' middle high_tier best,
    PeerGroupChampions.select argsort_stable df 1 3
    = Ok (false, [(PeerGroupChampions.Labelled PeerGroupChampions.Ume, Some best');
                  middle; high_tier])
    /\ In (PeerGroupChampions.Labelled PeerGroupChampions.Ume, Some best)
          (match PeerGroupChampions.select argsort_stable df (1 # 2) 3 with
           | Ok selected => snd selected
           | Raised _ => []
           end)
    /\ fnum_leb (PeerGroupChampions.RevPAR best') (PeerGroupChampions.RevPAR best)
       = true.
Proof.
  cbn zeta.
  match goal with |- context [PeerGroupChampions.select _ ?d _ _] => set (df := d) end.
  destruct (PeerGroupChampions.select argsort_stable df (1 # 2) 3)
    as [[warned_low at_low]|e] eqn:El; [|vm_compute in El; discriminate El].
  destruct (PeerGroupChampions.select argsort_stable df 1 3)
    as [[warned_high at_high]|e] eqn:Eh; [|vm_compute in Eh; discriminate Eh].
  destruct (raising_the_threshold_tiers argsort_stable df (1 # 2) 1 3
              warned_low warned_high at_low at_high
              (fun items => stable_is_argsort items _ (argsort_stable_spec items))
              ltac:(discriminate) El Eh) as [_ H].
  vm_compute in Eh. injection Eh as <- <-.
  match type of H with
  | forall t b, In (t, Some b) [(?t', Some ?b'); _; _] -> _ =>
      destruct (H t' b' (or_introl eq_refl)) as (best & Hb & Hr)
  end.
  do 3 eexists. exists best.
  split; [reflexivity|]. split; [exact Hb | exact Hr].
Defined.

(* ================================================================== *)
(** * Capacity, sales and the late-booking join against the table read *)
(* ================================================================== *)

Lemma is_max_stock_listing (df : list Row) (r : Row) :
  In r df -> is_max_stock df (listing_of r) (listing_max_stock df (listing_of r)).
Proof.
  intros Hr. destruct (listing_max_stock_spec df r Hr) as [Hex Hup].
  split; [exact Hex | exact Hup].
Qed.

Lemma is_max_stock_unique (df : list Row) (l : listing) (m m' : Z) :
  is_max_stock df l m -> is_max_stock df l m' -> m = m'.
Proof.
  intros [(r & Hr & El & Es) Hup] [(r' & Hr' & El' & Es') Hup'].
  specialize (Hup r' Hr' El'). specialize (Hup' r Hr El). lia.
Qed.

Lemma retained_listing (df : list Row) (r : Row) :
  In r df ->
  (retained df (listing_of r) <-> 30 <= listing_max_stock df (listing_of r)).
Proof.
  intros Hr. pose proof (is_max_stock_listing df r Hr) as Hm. split.
  - intros (m & Hm' & H30). now rewrite (is_max_stock_unique _ _ _ _ Hm Hm').
  - intros H30. now exists (listing_max_stock df (listing_of r)).
Qed.

(** The frame of the sale derivation holds exactly the snapshots of the
    retained listings. *)
Lemma sales_snapshots (df : list Row) (r : Row) :
  (exists s, In s (sales df) /\ snapshot s = r)
  <-> In r df /\ retained df (listing_of r).
Proof.
  split.
  - intros (s & Hs & <-).
    destruct (proj1 (sales_rows df (snapshot s) (max_stock s))) as (Hr & Em & H30);
      [exists s; auto|].
    split; [assumption|]. apply retained_listing; [assumption | lia].
  - intros [Hr Hret]. apply retained_listing in Hret; [|assumption].
    destruct (proj2 (sales_rows df r (listing_max_stock df (listing_of r))))
      as (s & Hs & Es & _); eauto.
Qed.

Lemma filter_all {A : Type} (keep : A -> bool) (rows : list A) :
  (forall a, In a rows -> keep a = true) -> filter keep rows = rows.
Proof.
  induction rows as [|a rows IH]; intros Hall; [reflexivity|].
  cbn [filter]. rewrite (Hall a (or_introl eq_refl)).
  now rewrite IH by (intros a' Ha'; apply Hall; now right).
Qed.

Lemma retained_rows_kept (df : list Row) (g : stay) :
  retained df (fst g) ->
  map fst (filter (fun x : Row * Z => eqb (stay_of (fst x)) g)
             (capacity_filter
                (map (fun r => (r, listing_max_stock df (listing_of r))) df)))
  = filter (fun r => eqb (stay_of r) g) df.
Proof.
  intros Hret. unfold capacity_filter.
  rewrite !filter_map_swap, map_map. cbn [fst snd]. rewrite map_id.
  rewrite filter_comm. apply filter_all.
  intros r Hr. apply filter_In in Hr. destruct Hr as [Hr Eg].
  apply eqb_eq in Eg. apply Z.leb_le. apply retained_listing; [assumption|].
  now replace (listing_of r) with (fst g) by (rewrite <- Eg; reflexivity).
Qed.

(** The events of a stay date of a retained listing are its snapshots in
    the table, each once. *)
Lemma events_snapshots (df : list Row) (g : stay) :
  retained df (fst g) ->
  Permutation (map snapshot (events_of g (sales df)))
              (filter (fun r => eqb (stay_of r) g) df).
Proof.
  intros Hret.
  assert (E : map snapshot (events_of g (sales df))
              = map fst (filter (fun x : Row * Z => eqb (stay_of (fst x)) g)
                           (sorted (capacity_filter (with_max_stock df))))).
  { unfold sales. rewrite <- events_rows, map_map. reflexivity. }
  rewrite E. rewrite <- (retained_rows_kept df g Hret).
  apply Permutation_map, filter_perm. unfold sorted, sort_values.
  rewrite sort_by_perm. now rewrite with_max_stock_eq.
Qed.

Lemma events_of_dropped (df : list Row) (g : stay) :
  ~ retained df (fst g) -> events_of g (sales df) = [].
Proof.
  intros Hn. destruct (events_of g (sales df)) as [|s rest] eqn:Ev; [reflexivity|].
  exfalso. apply Hn.
  assert (Hs : In s (events_of g (sales df))) by (rewrite Ev; now left).
  unfold events_of in Hs. apply filter_In in Hs. destruct Hs as [Hs Eg].
  apply eqb_eq in Eg.
  destruct (proj1 (sales_snapshots df (snapshot s))) as [_ Hret]; [eauto|].
  now rewrite <- Eg.
Qed.

(** C4. Listing capacity and filter: the column [max_stock] of the frame
    is the largest stock over all snapshots of the listing; a snapshot of
    the table is in the frame that every later stage reads if and only if
    its listing is retained (some snapshot of the listing has a stock of
    30 or more), so every KPI row and every exemplar of either script
    belongs to a retained listing with that capacity; a listing whose
    largest stock is 29 has no row left, one whose largest stock is 30
    keeps all its rows. *)
Theorem listing_capacity_filter (df : list Row) :
  (forall s, In s (sales df) -> is_max_stock df (sale_listing s) (max_stock s))
  /\ (forall r, (exists s, In s (sales df) /\ snapshot s = r)
                <-> In r df /\ retained df (listing_of r))
  /\ (forall k, In k (KpiAggregator.daily_kpi (sales df)) ->
        is_max_stock df (kpi_listing k) (kpi_max_stock k) /\ 30 <= kpi_max_stock k)
  /\ (forall argsort threshold best,
        In best (OptimalBookingCurves.best_dates argsort threshold
                   (OptimalBookingCurves.daily_kpi (sales df))) ->
        retained df (kpi_listing (OptimalBookingCurves.kpi best)))
  /\ (forall argsort threshold num_tiers selected t best,
        PeerGroupChampions.select argsort df threshold num_tiers = Ok selected ->
        In (t, Some best) (snd selected) ->
        retained df (kpi_listing (PeerGroupChampions.kpi best)))
  /\ (forall l, is_max_stock df l 29 ->
        forall s, In s (sales df) -> sale_listing s <> l)
  /\ (forall l, is_max_stock df l 30 ->
        forall r, In r df -> listing_of r = l ->
                  exists s, In s (sales df) /\ snapshot s = r).
Proof.
  assert (Hcol : forall s, In s (sales df) ->
            is_max_stock df (sale_listing s) (max_stock s) /\ 30 <= max_stock s).
  { intros s Hs.
    destruct (proj1 (sales_rows df (snapshot s) (max_stock s))) as (Hr & Em & H30);
      [exists s; auto|].
    split; [|assumption]. rewrite Em. now apply is_max_stock_listing. }
  assert (Hkpi : forall k, In k (KpiAggregator.daily_kpi (sales df)) ->
            is_max_stock df (kpi_listing k) (kpi_max_stock k) /\ 30 <= kpi_max_stock k).
  { intros k Hk. destruct (daily_kpi_max_stock df k Hk) as [Em H30].
    split; [|assumption].
    apply daily_kpi_In in Hk. destruct Hk as (Hg & _ & _).
    apply in_map_iff in Hg. destruct Hg as (s & Es & Hs).
    destruct (proj1 (sales_snapshots df (snapshot s))) as [Hr _]; [eauto|].
    rewrite Em. replace (kpi_listing k) with (listing_of (snapshot s))
      by (unfold kpi_listing; rewrite <- Es; reflexivity).
    now apply is_max_stock_listing. }
  split; [intros s Hs; now apply Hcol|].
  split; [apply sales_snapshots|].
  split; [exact Hkpi|]. split; [|split; [|split]].
  - intros argsort threshold best Hb. apply optimal_best_dates_incl in Hb.
    rewrite optimal_daily_kpi_rows in Hb. apply in_map_iff in Hb.
    destruct Hb as (k & <- & Hk). cbn [OptimalBookingCurves.kpi
      OptimalBookingCurves.kpi_row fst snd].
    exists (kpi_max_stock k). now apply Hkpi.
  - intros argsort threshold num_tiers selected t best Hsel Hb.
    unfold PeerGroupChampions.select in Hsel.
    destruct (peer_daily_kpi_rows num_tiers (sales df)) as (frame & E & Hk & _).
    rewrite E in Hsel. cbn in Hsel. inversion Hsel; subst selected. cbn in Hb.
    apply peer_best_dates_incl in Hb. destruct Hb as [Hb _].
    exists (kpi_max_stock (PeerGroupChampions.kpi best)).
    apply Hkpi. rewrite <- Hk. now apply in_map.
  - intros l H29 s Hs El. destruct (Hcol s Hs) as [Hm H30].
    rewrite El in Hm. pose proof (is_max_stock_unique _ _ _ _ H29 Hm). lia.
  - intros l H30 r Hr El. apply sales_snapshots. split; [assumption|].
    exists 30. rewrite El. split; [assumption | lia].
Qed.

(** Three listings: stocks 29 and 28; stocks 20 and 30; stock 31.  The
    first is dropped, the snapshots of the other two are all kept, with
    capacities 30 and 31. *)
Lemma listing_capacity_filter_witness :
  let snap h c s := mkRow h 1 1 100 c s 5000 in
  let df := [snap 1 1 29; snap 2 1 20; snap 1 2 28; snap 2 2 30; snap 3 1 31] in
  map (fun s => (hotel_id (snapshot s), stock (snapshot s), max_stock s)) (sales df)
  = [(2, 20, 30); (2, 30, 30); (3, 31, 31)]
  /\ (forall s, In s (sales df) -> sale_listing s <> (1, 1, 1))
  /\ (exists s, In s (sales df) /\ snapshot s = snap 2 1 20).
Proof.
  cbn zeta.
  match goal with |- context [sales ?d] => set (df := d) end.
  split; [vm_compute; reflexivity|].
  destruct (listing_capacity_filter df) as (_ & _ & _ & _ & _ & H29 & H30).
  split.
  - apply H29. split.
    + exists (mkRow 1 1 1 100 1 29 5000). split; [now left | split; reflexivity].
    + intros r Hr El. unfold df in Hr. cbn in Hr.
      destruct Hr as [<- | [<- | [<- | [<- | [<- | []]]]]];
        try discriminate El; cbn; lia.
  - apply (H30 (2, 1, 1)); [|right; left; reflexivity | reflexivity].
    split.
    + exists (mkRow 2 1 1 100 2 30 5000).
      split; [do 3 right; left; reflexivity | split; reflexivity].
    + intros r Hr El. unfold df in Hr. cbn in Hr.
      destruct Hr as [<- | [<- | [<- | [<- | [<- | []]]]]];
        try discriminate El; cbn; lia.
Defined.

(** C2. Sale derivation: the sale events of a stay date of a retained
    listing are all the snapshots that the table has of that stay date,
    each once (a listing that is not retained has none), in the order of
    their observation time; the first sells nothing, every later one sells
    the drop of the stock since the snapshot before it, never less than
    zero; the revenue of a snapshot is its sold units times its own
    price.  With stocks 30, 30, 20, 20, 10 the sold units are
    0, 0, 10, 0, 10 and the stay date totals 20. *)
Theorem sale_derivation (df : list Row) (g : stay) :
  let events := events_of g (sales df) in
  (retained df (fst g) ->
   Permutation (map snapshot events) (filter (fun r => eqb (stay_of r) g) df))
  /\ (~ retained df (fst g) -> events = [])
  /\ StronglySorted (fun a b => created_at (snapshot a) <= created_at (snapshot b))
                    events
  /\ map sold events = sold_sequence (map (fun s => stock (snapshot s)) events)
  /\ Forall (fun s => revenue s = (inject_Z (sold s) * price (snapshot s))%Q) events
  /\ (map (fun s => stock (snapshot s)) events = [30; 30; 20; 20; 10] ->
      map sold events = [0; 0; 10; 0; 10]
      /\ exists k, In k (KpiAggregator.daily_kpi (sales df))
                   /\ kpi_stay k = g /\ total_sold k = 20).
Proof.
  cbn zeta. split; [apply events_snapshots|]. split; [apply events_of_dropped|].
  split; [apply events_sorted|]. split; [apply events_sold|].
  split.
  - unfold events_of. apply Forall_forall. intros s Hs. apply filter_In in Hs.
    pose proof (sales_revenue df) as Hr. rewrite Forall_forall in Hr. now apply Hr.
  - intros E.
    assert (Es : map sold (events_of g (sales df)) = [0; 0; 10; 0; 10]).
    { rewrite events_sold, E. reflexivity. }
    split; [assumption|].
    exists (agg (g, events_of g (sales df))). rewrite daily_kpi_In. cbn.
    rewrite Es. cbn. repeat split; try lia.
    destruct (events_of g (sales df)) as [|s rest] eqn:Ev; [discriminate|].
    assert (Hs : In s (events_of g (sales df))) by (rewrite Ev; now left).
    unfold events_of in Hs. apply filter_In in Hs. destruct Hs as [Hs Eg].
    apply eqb_eq in Eg. rewrite <- Eg. now apply in_map.
Qed.

(** The scenario of C2: five snapshots of one stay date, given out of
    order, with stocks 30, 30, 20, 20, 10 in the order of observation. *)
Lemma sale_derivation_witness :
  let snap c s := mkRow 1 1 1 100 c s 12000 in
  let df := [snap 5 10; snap 1 30; snap 3 20; snap 2 30; snap 4 20] in
  let events := events_of (1, 1, 1, 100) (sales df) in
  map (fun s => (created_at (snapshot s), stock (snapshot s))) events
  = [(1, 30); (2, 30); (3, 20); (4, 20); (5, 10)]
  /\ Permutation (map snapshot events) df
  /\ map sold events = [0; 0; 10; 0; 10]
  /\ exists k, In k (KpiAggregator.daily_kpi (sales df))
               /\ kpi_stay k = (1, 1, 1, 100) /\ total_sold k = 20.
Proof.
  cbn zeta.
  match goal with |- context [sales ?d] => set (df := d) end.
  destruct (sale_derivation df (1, 1, 1, 100)) as (Hperm & _ & _ & _ & _ & Hsold).
  split; [vm_compute; reflexivity|]. split.
  - apply Hperm. exists 30. split; [|lia]. split.
    + exists (mkRow 1 1 1 100 1 30 12000).
      split; [right; left; reflexivity | split; reflexivity].
    + intros r Hr _. unfold df in Hr. cbn in Hr.
      destruct Hr as [<- | [<- | [<- | [<- | [<- | []]]]]]; cbn; lia.
  - apply Hsold. vm_compute. reflexivity.
Defined.

Lemma daily_kpi_stay_dates (df : list Row) (g : stay) :
  (exists s, In s (sales df) /\ sale_stay s = g /\ 0 < sold s)
  <-> In g (map kpi_stay (KpiAggregator.daily_kpi (sales df))).
Proof.
  rewrite daily_kpi_keys, filter_In, Z.ltb_lt, group_keys_In.
  rewrite (sumZ_pos_exists (map sold (events_of g (sales df)))).
  - split.
    + intros (s & Hs & Es & Hp). split; [rewrite <- Es; now apply in_map|].
      exists (sold s). split; [|assumption]. apply in_map.
      unfold events_of. apply filter_In. split; [assumption|].
      now apply eqb_eq.
    + intros (_ & x & Hx & Hp). apply in_map_iff in Hx.
      destruct Hx as (s & <- & Hs). unfold events_of in Hs.
      apply filter_In in Hs. destruct Hs as [Hs Es]. apply eqb_eq in Es.
      exists s. auto.
  - apply Forall_forall. intros x Hx. apply in_map_iff in Hx.
    destruct Hx as (s & <- & Hs).
    pose proof (events_sold_nonneg g df) as Hn. rewrite Forall_forall in Hn.
    now apply Hn.
Qed.

(** C3. Late-booking join: in either script the joined frame has a row
    for a stay date exactly when a snapshot of the sale frame records a
    sale for it (the retained stay dates with total_sold > 0); for every
    such row [last_30_days_booking_ratio] is the number of units sold from
    30 days before the stay date on, divided by [total_sold]; a join that
    finds no such sale counts as zero; a stay date whose sales all fall in
    the last 30 days has ratio 1, which meets the threshold 0.5. *)
Theorem late_booking_join (df : list Row) :
  (forall g, (exists s, In s (sales df) /\ sale_stay s = g /\ 0 < sold s)
             <-> exists r, In r (OptimalBookingCurves.daily_kpi (sales df))
                           /\ kpi_stay (OptimalBookingCurves.kpi r) = g)
  /\ (forall r, In r (OptimalBookingCurves.daily_kpi (sales df)) ->
        late_booking_spec (sales df) (OptimalBookingCurves.kpi r)
          (OptimalBookingCurves.sold_last_30 r)
          (OptimalBookingCurves.last_30_days_booking_ratio r))
  /\ (forall num_tiers,
        exists frame,
          PeerGroupChampions.daily_kpi num_tiers (sales df) = Ok frame
          /\ (forall g, (exists s, In s (sales df) /\ sale_stay s = g /\ 0 < sold s)
                        <-> exists r, In r (PeerGroupChampions.rows frame)
                                      /\ kpi_stay (PeerGroupChampions.kpi r) = g)
          /\ forall r, In r (PeerGroupChampions.rows frame) ->
               late_booking_spec (sales df) (PeerGroupChampions.kpi r)
                 (PeerGroupChampions.sold_last_30 r)
                 (PeerGroupChampions.last_30_days_booking_ratio r)).
Proof.
  split; [|split].
  - intros g. rewrite daily_kpi_stay_dates, optimal_daily_kpi_rows. split.
    + intros Hg. apply in_map_iff in Hg. destruct Hg as (k & Ek & Hk).
      eexists. split; [apply in_map; exact Hk | exact Ek].
    + intros (r & Hr & Er). apply in_map_iff in Hr. destruct Hr as (k & <- & Hk).
      rewrite <- Er. now apply in_map.
  - intros r Hr. rewrite optimal_daily_kpi_rows in Hr.
    apply in_map_iff in Hr. destruct Hr as (k & <- & Hk).
    cbn. now apply late_booking_holds.
  - intros num_tiers.
    destruct (peer_daily_kpi_rows num_tiers (sales df)) as (frame & E & Hk & Hr & _).
    exists frame. split; [assumption|]. split.
    + intros g. rewrite daily_kpi_stay_dates, <- Hk, map_map. split.
      * intros Hg. apply in_map_iff in Hg. destruct Hg as (r & Er & Hin). eauto.
      * intros (r & Hin & Er). rewrite <- Er.
        now apply (in_map (fun r => kpi_stay (PeerGroupChampions.kpi r))).
    + intros r Hin.
      rewrite Forall_forall in Hr. rewrite (Hr r Hin). cbn.
      apply late_booking_holds. rewrite <- Hk. now apply in_map.
Qed.

(** The scenario of C3: the 20 units of a stay date are all sold in its
    last 30 days; the joined frame has its row, with the ratio 20/20,
    which meets the threshold one half. *)
Lemma late_booking_join_witness :
  let snap c s := mkRow 1 1 1 (100 * 86400000000000) (c * 86400000000000) s 12000 in
  let df := [snap 75 30; snap 80 20; snap 95 10] in
  exists r,
    OptimalBookingCurves.daily_kpi (sales df) = [r]
    /\ OptimalBookingCurves.sold_last_30 r = 20
    /\ OptimalBookingCurves.sold_last_30 r = total_sold (OptimalBookingCurves.kpi r)
    /\ exists q, OptimalBookingCurves.last_30_days_booking_ratio r = Fin q
                 /\ (q == 1)%Q
                 /\ fnum_leb (Fin (1 # 2))
                      (OptimalBookingCurves.last_30_days_booking_ratio r) = true.
Proof.
  cbn zeta.
  match goal with |- context [sales ?d] => set (df := d) end.
  destruct (late_booking_join df) as (_ & Hspec & _).
  eexists. split; [vm_compute; reflexivity|].
  split; [reflexivity|].
  match goal with |- _ ?r = _ /\ _ =>
    destruct (Hspec r) as (_ & _ & _ & _ & _ & Hall); [left; reflexivity|]
  end.
  apply Hall. intros s Hs Hsold. vm_compute in Hs.
  destruct Hs as [<- | [<- | [<- | []]]]; [|reflexivity | reflexivity].
  exfalso. apply Hsold. reflexivity.
Defined.
